(** * Business registry: COLIN adapter model, filing validation, filing submission

    A shallow embedding of

    - [colin_api/models/business.py] (class [Business]): the business
      resolver [find_by_identifier], the corp-state transition
      [update_corp_state] and the reset service
      ([_get_last_ar_dates_for_reset], [reset_corporations],
      [reset_corp_states]);
    - [legal_api/services/filings/validations/validation.py] ([validate]);
    - [legal_api/resources/business/business_filings.py]
      ([ListFilingResource.put] and its helpers).

    Python dicts are finite maps with string keys, a dict whose iteration
    order matters is an association list, SQL tables are lists of records,
    and a function that talks to the database or may raise runs in a state
    and exception monad over the tables and the application log. *)

From Stdlib Require Import ZArith Lia.
From stdpp Require Import gmap strings list fin_maps pretty.

(** ** Python values, exceptions, the log *)

Module Colin.

(** The values the adapter moves between Oracle rows and dicts: SQL NULL
    ([None]), character data, [datetime] values (an instant on a totally
    ordered time line) and integers. *)
Inductive value :=
| Null
| Str (s : string)
| Datetime (t : Z)
| Int (n : Z).

#[global] Instance value_eq_dec : EqDecision value.
Proof. solve_decision. Defined.

(** Python truthiness: [None], the empty string and [0] are falsy, every
    [datetime] is truthy. *)
Definition truthy (v : value) : bool :=
  match v with
  | Null => false
  | Str s => bool_decide (s ≠ "")
  | Datetime _ => true
  | Int n => bool_decide (n ≠ 0%Z)
  end.

(** A nullable DATE column as it reaches Python. *)
Definition of_date (o : option Z) : value :=
  match o with
  | Some t => Datetime t
  | None => Null
  end.

Inductive exn :=
| KeyError (key : string)
| TypeError
| BusinessNotFoundException (identifier : string)
| DatabaseError (msg : string).

#[global] Instance exn_eq_dec : EqDecision exn.
Proof. solve_decision. Defined.

(** What [current_app.logger.error] receives: an exception object
    ([find_by_identifier], [update_corp_state]) or one of the three
    formatted messages of the reset service, kept here with the value
    that is formatted into the message. *)
Inductive log_entry :=
| LogExn (e : exn)
| LogResetCorporationFailed (corp_num : value)
| LogDeleteCorpStateFailed (event_ids : list Z)
| LogResetCorpStateFailed (event_ids : list Z).

(** ** Tables *)

(** CORP_STATE: [end_event_id] is nullable, NULL marks the active row. *)
Record CorpState := {
  cs_corp_num : string;
  start_event_id : Z;
  end_event_id : option Z;
  state_typ_cd : string
}.

#[global] Instance CorpState_eq_dec : EqDecision CorpState.
Proof. solve_decision. Defined.

(** CORPORATION, with the three columns the reset service writes. *)
Record Corporation := {
  c_corp_num : string;
  last_ar_filed_dt : value;
  last_agm_date : value;
  last_ledger_dt : value
}.

#[global] Instance Corporation_eq_dec : EqDecision Corporation.
Proof. solve_decision. Defined.

(** One row of [event JOIN filing] as [_get_last_ar_dates_for_reset]
    selects it and keys it by lower-cased column name: [event_timestmp]
    is never NULL, [period_end_dt] and [agm_date] may be. *)
Record date_row := {
  dr_corp_num : string;
  event_timestmp : Z;
  period_end_dt : option Z;
  agm_date : option Z
}.

(** One row of the first statement of [find_by_identifier], columns in
    select order. *)
Record corp_row := {
  identifier : value;
  corp_frozen_typ_cd : value;
  type : value;
  last_ar_date : value;
  last_ar_filed_date : value;
  r_last_agm_date : value;
  state : value;
  r_corp_state : value;
  legal_name : value;
  assumed_name : value;
  founding_date : value;
  business_number : value;
  can_jur_typ_cd : value;
  othr_juris_desc : value
}.

(** EVENT, with the columns the last-ledger statement reads. *)
Record event_row := {
  ev_corp_num : string;
  event_typ_cd : string;
  ev_event_timestmp : Z
}.

(** The calls made on the database connection: opening a cursor and the
    statements passed to [cursor.execute]. *)
Inductive statement :=
| OpenCursor
| SelectBusiness (corp_num : string)
| SelectLastLedger (corp_num : string)
| SelectDates (event_ids : list Z) (corp_num : string)
| EndCorpState (event_id : Z) (corp_num : string)
| InsertCorpState (corp_num : string) (event_id : Z) (state : string)
| UpdateCorporation (ar_filed_date agm_date event_date corp_num : value)
| DeleteCorpState (event_ids : list Z)
| ReopenCorpState (event_ids : list Z).

(** The mutable part of the world: the two tables that are written, the
    statements issued so far and the application log. *)
Record world := {
  corp_state : list CorpState;
  corporation : list Corporation;
  issued : list statement;
  logged : list log_entry
}.

Definition with_corp_state (t : list CorpState) (w : world) : world :=
  {| corp_state := t; corporation := corporation w;
     issued := issued w; logged := logged w |}.

Definition with_corporation (t : list Corporation) (w : world) : world :=
  {| corp_state := corp_state w; corporation := t;
     issued := issued w; logged := logged w |}.

Definition with_issued (s : statement) (w : world) : world :=
  {| corp_state := corp_state w; corporation := corporation w;
     issued := issued w ++ [s]; logged := logged w |}.

Definition with_logged (l : log_entry) (w : world) : world :=
  {| corp_state := corp_state w; corporation := corporation w;
     issued := issued w; logged := logged w ++ [l] |}.

(** ** The monad: state [world], exceptions [exn] *)

Definition M (A : Type) : Type := world → (exn + A) * world.

#[global] Instance M_ret : MRet M := λ A a w, (inr a, w).

#[global] Instance M_bind : MBind M :=
  λ A B f m w, match m w with
               | (inl e, w') => (inl e, w')
               | (inr a, w') => f a w'
               end.

Definition raise {A} (e : exn) : M A := λ w, (inl e, w).

(** [try: m except Exception as err: h err] *)
Definition try_except {A} (m : M A) (h : exn → M A) : M A :=
  λ w, match m w with
       | (inl e, w') => h e w'
       | (inr a, w') => (inr a, w')
       end.

Definition log_error (l : log_entry) : M unit := λ w, (inr tt, with_logged l w).

(** [d[k]]: a missing key raises [KeyError]. *)
Definition getitem (d : gmap string value) (k : string) : M value :=
  match d !! k with
  | Some v => mret v
  | None => raise (KeyError k)
  end.

(** [del d[k]] *)
Definition delitem (d : gmap string value) (k : string) : M (gmap string value) :=
  match d !! k with
  | Some _ => mret (delete k d)
  | None => raise (KeyError k)
  end.

(** ** SQL semantics of the write statements *)

(** [UPDATE corp_state SET end_event_id = :event_id
     WHERE corp_num = :corp_num and end_event_id is NULL] *)
Definition end_row (event_id : Z) (corp_num : string) (r : CorpState) : CorpState :=
  if bool_decide (cs_corp_num r = corp_num ∧ end_event_id r = None)
  then {| cs_corp_num := cs_corp_num r; start_event_id := start_event_id r;
          end_event_id := Some event_id; state_typ_cd := state_typ_cd r |}
  else r.

(** [UPDATE corp_state SET end_event_id = null WHERE end_event_id in (ids)];
    a NULL [end_event_id] is in no list. [stringify_list] of
    [colin_api.utils] renders [event_ids] as the SQL list: the rows "ended
    by the undone events" are those whose [end_event_id] is one of the
    ids, and likewise for the rows "created by" them in the DELETE. *)
Definition reopen_row (event_ids : list Z) (r : CorpState) : CorpState :=
  match end_event_id r with
  | Some e =>
      if bool_decide (e ∈ event_ids)
      then {| cs_corp_num := cs_corp_num r; start_event_id := start_event_id r;
              end_event_id := None; state_typ_cd := state_typ_cd r |}
      else r
  | None => r
  end.

(** [UPDATE corporation SET LAST_AR_FILED_DT = .., LAST_AGM_DATE = ..,
     LAST_LEDGER_DT = .. WHERE corp_num = :corp_num]; a bind value that is
    not character data matches no row. *)
Definition reset_row (ar_filed agm event_date corp_num : value) (c : Corporation)
  : Corporation :=
  if bool_decide (corp_num = Str (c_corp_num c))
  then {| c_corp_num := c_corp_num c; last_ar_filed_dt := ar_filed;
          last_agm_date := agm; last_ledger_dt := event_date |}
  else c.

Definition run (s : statement) (w : world) : world :=
  match s with
  | OpenCursor | SelectBusiness _ | SelectLastLedger _ | SelectDates _ _ => w
  | EndCorpState event_id corp_num =>
      with_corp_state (end_row event_id corp_num <$> corp_state w) w
  | InsertCorpState corp_num event_id state =>
      with_corp_state
        (corp_state w ++
           [{| cs_corp_num := corp_num; start_event_id := event_id;
               end_event_id := None; state_typ_cd := state |}]) w
  | UpdateCorporation ar_filed agm event_date corp_num =>
      with_corporation (reset_row ar_filed agm event_date corp_num <$> corporation w) w
  | DeleteCorpState event_ids =>
      with_corp_state
        (filter (λ r, start_event_id r ∉ event_ids) (corp_state w)) w
  | ReopenCorpState event_ids =>
      with_corp_state (reopen_row event_ids <$> corp_state w) w
  end.

Section Adapter.

(** The database side the functions below do not compute themselves:
    which statements the database rejects (and with which error), and the
    rows the cursor returns for the reset query
    [SELECT .. FROM event JOIN filing .. WHERE event.event_id not in (ids)
     AND event.corp_num = :corp_num ORDER BY event.event_timestmp desc]. *)
Variable fault : statement → option exn.
Variable fetch_dates : list Z → string → list date_row.

(** [cursor.execute(stmt)]: the statement is issued; a rejected statement
    raises and changes no table. *)
Definition execute (s : statement) : M unit :=
  λ w, match fault s with
       | Some e => (inl e, with_issued s w)
       | None => (inr tt, with_issued s (run s w))
       end.

(** ** [_get_last_ar_dates_for_reset] *)

Record event_info_item := { ei_corp_num : string; ei_event_id : Z }.

(** [events_by_corp_num], a dict iterated in insertion order. *)
Fixpoint assoc_get (k : string) (d : list (string * Z)) : option Z :=
  match d with
  | [] => None
  | (k', v) :: d' => if decide (k' = k) then Some v else assoc_get k d'
  end.

(** [d[k] = v]: an existing key keeps its position. *)
Fixpoint assoc_set (k : string) (v : Z) (d : list (string * Z)) : list (string * Z) :=
  match d with
  | [] => [(k, v)]
  | (k', v') :: d' =>
      if decide (k' = k) then (k, v) :: d' else (k', v') :: assoc_set k v d'
  end.

Definition group_event (d : list (string * Z)) (info : event_info_item)
  : list (string * Z) :=
  match assoc_get (ei_corp_num info) d with
  | None => assoc_set (ei_corp_num info) (ei_event_id info) d
  | Some e =>
      if bool_decide (e > ei_event_id info)%Z
      then assoc_set (ei_corp_num info) (ei_event_id info) d
      else d
  end.

Definition events_by_corp_num (event_info : list event_info_item) : list (string * Z) :=
  foldl group_event [] event_info.

(** [key not in dates or dates[key] < t]; the stored values are datetimes. *)
Definition newer (dates : gmap string value) (key : string) (t : Z) : bool :=
  match dates !! key with
  | None => true
  | Some (Datetime a) => bool_decide (a < t)%Z
  | Some _ => false
  end.

(** The body of [for row in cursor.fetchall()]. *)
Definition walk_row (dates : gmap string value) (row : date_row) : gmap string value :=
  let dates :=
    if newer dates "event_date" (event_timestmp row)
    then <["event_date" := Datetime (event_timestmp row)]> dates
    else dates in
  let dates :=
    match period_end_dt row with
    | Some p =>
        if newer dates "ar_date" p
        then <["ar_filed_date" := Datetime (event_timestmp row)]>
               (<["ar_date" := Datetime p]> dates)
        else dates
    | None => dates
    end in
  match agm_date row with
  | Some a =>
      if newer dates "agm_date" a
      then <["agm_date" := Datetime a]> dates
      else dates
  | None => dates
  end.

Definition walk (corp_num : string) (rows : list date_row) : gmap string value :=
  foldl walk_row {[ "corp_num" := Str corp_num ]} rows.

Fixpoint dates_loop (event_ids : list Z) (corps : list string)
  (dates_by_corp_num : list (gmap string value)) : M (list (gmap string value)) :=
  match corps with
  | [] => mret dates_by_corp_num
  | corp_num :: corps' =>
      execute (SelectDates event_ids corp_num) ;;
      dates_loop event_ids corps'
        (dates_by_corp_num ++ [walk corp_num (fetch_dates event_ids corp_num)])
  end.

Definition _get_last_ar_dates_for_reset
  (event_info : list event_info_item) (event_ids : list Z)
  : M (list (gmap string value)) :=
  dates_loop event_ids (fst <$> events_by_corp_num event_info) [].

(** ** [update_corp_state] *)

Definition update_corp_state (event_id : Z) (corp_num : string) (state : string)
  : M unit :=
  try_except (execute (EndCorpState event_id corp_num))
    (λ err, log_error (LogExn err) ;; raise err) ;;
  try_except (execute (InsertCorpState corp_num event_id state))
    (λ err, log_error (LogExn err) ;; raise err).

(** ** [reset_corporations] *)

(** One turn of [for item in dates_by_corp_num]; the keyword arguments of
    [cursor.execute] are evaluated in the order they are written. *)
Definition reset_item (item : gmap string value) : M unit :=
  try_except
    (c ← getitem item "agm_date";
     agm_date ← (if truthy c then getitem item "agm_date"
                 else getitem item "ar_date");
     ar_filed_date ← getitem item "ar_filed_date";
     event_date ← getitem item "event_date";
     corp_num ← getitem item "corp_num";
     execute (UpdateCorporation ar_filed_date agm_date event_date corp_num))
    (λ err,
       corp_num ← getitem item "corp_num";
       log_error (LogResetCorporationFailed corp_num) ;;
       raise err).

Fixpoint reset_loop (items : list (gmap string value)) : M unit :=
  match items with
  | [] => mret tt
  | item :: items' => reset_item item ;; reset_loop items'
  end.

Definition reset_corporations
  (event_info : list event_info_item) (event_ids : list Z) : M unit :=
  if bool_decide (length event_info < 1) then mret tt
  else
    dates_by_corp_num ← _get_last_ar_dates_for_reset event_info event_ids;
    reset_loop dates_by_corp_num.

(** ** [reset_corp_states] *)

Definition reset_corp_states (event_ids : list Z) : M unit :=
  if bool_decide (length event_ids < 1) then mret tt
  else
    try_except (execute (DeleteCorpState event_ids))
      (λ err, log_error (LogDeleteCorpStateFailed event_ids) ;; raise err) ;;
    try_except (execute (ReopenCorpState event_ids))
      (λ err, log_error (LogResetCorpStateFailed event_ids) ;; raise err).

(** ** [find_by_identifier] *)

(** The rows of the FROM clause of the first statement (CORPORATION joined
    with its names, active state, jurisdiction, events and OTANN filings),
    in the order the database produces them, and the EVENT table. *)
Variable corp_join : list corp_row.
Variable event_table : list event_row.

(** The second statement of [find_by_identifier] is not bound but pasted
    together with [str.format] (see [last_ledger_sql]), so for some
    identifiers its text is not the intended statement: [other_statement]
    is what the database then returns for the text, as the first column of
    the first row. A text that the database rejects or that yields no row
    ends in an exception inside the [try] block, which is what [fault]
    stands for. *)
Variable other_statement : string → value.

(** [colin_api.utils.convert_to_json_date] and [convert_to_json_datetime]. *)
Variable convert_to_json_date : value → value.
Variable convert_to_json_datetime : value → value.

(** [where corp_typ_cd = 'CP' and corp.CORP_NUM = :corp_num] *)
Definition business_where (corp_num : string) (r : corp_row) : bool :=
  bool_decide (type r = Str "CP") && bool_decide (identifier r = Str corp_num).

(** [order by last_ar_date desc nulls last]: [sorts_before r r'] when [r]
    comes strictly before [r']. Rows with equal keys keep the order the
    database produced them in. *)
Definition sorts_before (r r' : corp_row) : bool :=
  match last_ar_date r, last_ar_date r' with
  | Datetime a, Datetime b => bool_decide (b < a)%Z
  | Datetime _, _ => true
  | _, _ => false
  end.

Fixpoint insert_row (r : corp_row) (l : list corp_row) : list corp_row :=
  match l with
  | [] => [r]
  | x :: l' => if sorts_before x r then x :: insert_row r l' else r :: x :: l'
  end.

Definition order_by_last_ar_date (l : list corp_row) : list corp_row :=
  foldr insert_row [] l.

Definition select_business (corp_num : string) : list corp_row :=
  order_by_last_ar_date (filter (λ r, business_where corp_num r = true) corp_join).

(** [select max(EVENT_TIMESTMP) from EVENT
     where EVENT_TYP_CD in ('FILE', 'CONVOTHER') and CORP_NUM = '..'] *)
Definition max_timestmp (acc : value) (e : event_row) : value :=
  match acc with
  | Datetime a => Datetime (Z.max a (ev_event_timestmp e))
  | _ => Datetime (ev_event_timestmp e)
  end.

(** The text of the statement, line breaks and indentation included: the
    identifier is pasted between two quotes. *)
Definition newline : string := String (Ascii.ascii_of_nat 10) "".

Definition last_ledger_sql (identifier : string) : string :=
  newline
  +:+ "            select max(EVENT_TIMESTMP) as last_ledger_timestamp from EVENT"
  +:+ newline
  +:+ "            where EVENT_TYP_CD in('FILE', 'CONVOTHER') and CORP_NUM = '"
  +:+ identifier +:+ "'".

(** An identifier without a quote is, between the two quotes of the text,
    the string literal that CORP_NUM is compared with; with a quote in it
    the literal ends early and the rest of the identifier is read as SQL. *)
Fixpoint quote_free (identifier : string) : bool :=
  match identifier with
  | EmptyString => true
  | String c s' => negb (Ascii.eqb c (Ascii.ascii_of_nat 39)) && quote_free s'
  end.

Definition select_last_ledger (corp_num : string) : value :=
  if quote_free corp_num then
    foldl max_timestmp Null
      (filter (λ e, (event_typ_cd e = "FILE" ∨ event_typ_cd e = "CONVOTHER")
                    ∧ ev_corp_num e = corp_num) event_table)
  else other_statement (last_ledger_sql corp_num).

Definition columns : list string :=
  ["identifier"; "corp_frozen_typ_cd"; "type"; "last_ar_date";
   "last_ar_filed_date"; "last_agm_date"; "state"; "corp_state";
   "legal_name"; "assumed_name"; "founding_date"; "business_number";
   "can_jur_typ_cd"; "othr_juris_desc"].

Definition row_tuple (r : corp_row) : list value :=
  [identifier r; corp_frozen_typ_cd r; type r; last_ar_date r;
   last_ar_filed_date r; r_last_agm_date r; state r; r_corp_state r;
   legal_name r; assumed_name r; founding_date r; business_number r;
   can_jur_typ_cd r; othr_juris_desc r].

(** [dict(zip([x[0].lower() for x in cursor.description], business))] *)
Definition row_dict (r : corp_row) : gmap string value :=
  list_to_map (zip columns (row_tuple r)).

Definition is_datetime (v : value) : bool :=
  match v with
  | Datetime _ => true
  | _ => false
  end.

(** [a > b] on datetimes and on integers; Python raises [TypeError] when
    [None] or mixed types are compared. *)
Definition gt (a b : value) : M bool :=
  match a, b with
  | Datetime x, Datetime y => mret (bool_decide (y < x)%Z)
  | Int x, Int y => mret (bool_decide (y < x)%Z)
  | _, _ => raise TypeError
  end.

(** [a and b], short-circuit. *)
Definition and_then (a b : M bool) : M bool :=
  x ← a; if (x : bool) then b else mret false.

Fixpoint del_all (keys : list string) (d : gmap string value)
  : M (gmap string value) :=
  match keys with
  | [] => mret d
  | k :: keys' => d' ← delitem d k; del_all keys' d'
  end.

(** [if business['type'] == 'XCP': .. else: business['jurisdiction'] = 'BC'] *)
Definition set_jurisdiction (business : gmap string value) : M (gmap string value) :=
  ty ← getitem business "type";
  if bool_decide (ty = Str "XCP") then
    jur ← getitem business "can_jur_typ_cd";
    if bool_decide (jur = Str "OT") then
      d ← getitem business "othr_juris_desc";
      mret (<["jurisdiction" := d]> business)
    else
      j ← getitem business "can_jur_typ_cd";
      mret (<["jurisdiction" := j]> business)
  else mret (<["jurisdiction" := Str "BC"]> business).

(** [if business['assumed_name']: business['legal_name'] = ..] *)
Definition set_name (business : gmap string value) : M (gmap string value) :=
  an ← getitem business "assumed_name";
  if truthy an then
    a ← getitem business "assumed_name";
    mret (<["legal_name" := a]> business)
  else mret business.

(** The status: In Good Standing if certain criteria are met, otherwise
    the original value. *)
Definition set_status (business : gmap string value) : M (gmap string value) :=
  c ← and_then (st ← getitem business "state"; mret (bool_decide (st = Str "Active")))
      (and_then (v ← getitem business "last_ar_filed_date"; mret (bool_decide (v ≠ Null)))
      (and_then (v ← getitem business "last_ar_filed_date"; mret (is_datetime v))
      (and_then (v ← getitem business "last_agm_date"; mret (bool_decide (v ≠ Null)))
                (v ← getitem business "last_agm_date"; mret (is_datetime v)))));
  if (c : bool) then
    filed ← getitem business "last_ar_filed_date";
    agm ← getitem business "last_agm_date";
    later ← gt filed agm;
    if (later : bool) then mret (<["status" := Str "In Good Standing"]> business)
    else st ← getitem business "state"; mret (<["status" := st]> business)
  else st ← getitem business "state"; mret (<["status" := st]> business).

(** Dates and date-times in json format, names in camel case. *)
Definition to_json_format (business : gmap string value) : M (gmap string value) :=
  v ← getitem business "founding_date";
  let business := <["foundingDate" := convert_to_json_datetime v]> business in
  v ← getitem business "last_agm_date";
  let business := <["lastAgmDate" := convert_to_json_date v]> business in
  c ← getitem business "last_ar_date";
  v ← (if truthy c then
         v ← getitem business "last_ar_date"; mret (convert_to_json_date v)
       else getitem business "lastAgmDate");
  let business := <["lastArDate" := v]> business in
  v ← getitem business "last_ledger_timestamp";
  let business := <["lastLedgerTimestamp" := convert_to_json_datetime v]> business in
  v ← getitem business "business_number";
  let business := <["businessNumber" := v]> business in
  v ← getitem business "corp_state";
  let business := <["corpState" := v]> business in
  v ← getitem business "legal_name";
  let business := <["legalName" := v]> business in
  v ← getitem business "type";
  mret (<["legalType" := v]> business).

(** The fields removed with [del], in the order of the source. *)
Definition removed_fields : list string :=
  ["can_jur_typ_cd"; "othr_juris_desc"; "assumed_name"; "state";
   "business_number"; "corp_frozen_typ_cd"; "corp_state"; "founding_date";
   "last_agm_date"; "last_ar_filed_date"; "last_ledger_timestamp";
   "legal_name"; "type"; "last_ar_date"].

(** The statements of the [try] block after the row was found. *)
Definition resolve (ident : string) (row : corp_row) : M (gmap string value) :=
  let business := row_dict row in
  execute (SelectLastLedger ident) ;;
  let last_ledger_timestamp := select_last_ledger ident in
  let business := <["last_ledger_timestamp" := last_ledger_timestamp]> business in
  business ← set_jurisdiction business;
  business ← set_name business;
  business ← set_status business;
  business ← to_json_format business;
  business ← del_all removed_fields business;
  mret (<["cacheId" := Int 0]> business).

(** [identifier] is [None] or a string; the result is [None] or a
    [Business] object, given by its [business] dict. *)
Definition find_by_identifier (identifier : option string)
  : M (option (gmap string value)) :=
  match identifier with
  | None | Some "" => mret None
  | Some ident =>
      try_except
        (execute OpenCursor ;;
         execute (SelectBusiness ident) ;;
         match select_business ident with
         | [] => raise (BusinessNotFoundException ident)
         | row :: _ => business ← resolve ident row; mret (Some business)
         end)
        (λ err, log_error (LogExn err) ;; raise err)
  end.

End Adapter.

(** ** What the reset walk is to compute *)

(** [r] is the first row of [rows] that carries the greatest non-null
    [f]-value [m]: the rows before it carry strictly less, the rows after
    it at most [m]. *)
Definition first_latest (f : date_row → option Z) (rows : list date_row)
  (r : date_row) (m : Z) : Prop :=
  ∃ pre post, rows = pre ++ r :: post ∧ f r = Some m ∧
    (∀ x v, x ∈ pre → f x = Some v → (v < m)%Z) ∧
    (∀ x v, x ∈ post → f x = Some v → (v ≤ m)%Z).

(** The row, if any, that decides the latest [f]-value of [rows]. *)
Definition latest (f : date_row → option Z) (rows : list date_row)
  (o : option date_row) : Prop :=
  match o with
  | None => ∀ x, x ∈ rows → f x = None
  | Some r => ∃ m, first_latest f rows r m
  end.

Definition timestmp_of (r : date_row) : option Z := Some (event_timestmp r).

(** The dict the walk is to produce for [corp_num] from [rows]. *)
Definition latest_dates (corp_num : string) (rows : list date_row)
  (d : gmap string value) : Prop :=
  d !! "corp_num" = Some (Str corp_num) ∧
  (∃ o, latest timestmp_of rows o ∧
        d !! "event_date" = (λ r, Datetime (event_timestmp r)) <$> o) ∧
  (∃ o, latest period_end_dt rows o ∧
        d !! "ar_date" = (r ← o; Datetime <$> period_end_dt r) ∧
        d !! "ar_filed_date" = (λ r, Datetime (event_timestmp r)) <$> o) ∧
  (∃ o, latest agm_date rows o ∧
        d !! "agm_date" = (r ← o; Datetime <$> agm_date r)).

(** ** Active corp-state rows *)

(** The current state of [corp_num]: a row of that corporation whose
    [end_event_id] is NULL. *)
Definition is_active (corp_num : string) (r : CorpState) : Prop :=
  cs_corp_num r = corp_num ∧ end_event_id r = None.

#[global] Instance is_active_dec corp_num r : Decision (is_active corp_num r).
Proof. unfold is_active. apply _. Defined.

Definition ended_by (event_id : Z) (r : CorpState) : CorpState :=
  {| cs_corp_num := cs_corp_num r; start_event_id := start_event_id r;
     end_event_id := Some event_id; state_typ_cd := state_typ_cd r |}.

Definition started_by (event_id : Z) (corp_num state : string) : CorpState :=
  {| cs_corp_num := corp_num; start_event_id := event_id;
     end_event_id := None; state_typ_cd := state |}.

(** [event_id] occurs in row [r], as its start or as its end. *)
Definition mentions (event_id : Z) (r : CorpState) : Prop :=
  start_event_id r = event_id ∨ end_event_id r = Some event_id.

#[global] Instance mentions_dec event_id r : Decision (mentions event_id r).
Proof. unfold mentions. apply _. Defined.

(** ** What the resolver is to derive *)

(** The state is "Active", both dates are datetimes, and the last annual
    report was filed strictly after the last AGM date. *)
Definition good_standing (row : corp_row) : Prop :=
  state row = Str "Active" ∧
  ∃ filed agm, last_ar_filed_date row = Datetime filed ∧
               r_last_agm_date row = Datetime agm ∧ (agm < filed)%Z.

(** The value stored under ["status"]. *)
Definition status_of (st filed agm : value) : value :=
  match filed, agm with
  | Datetime a, Datetime g =>
      if bool_decide (st = Str "Active") && bool_decide (g < a)%Z
      then Str "In Good Standing" else st
  | _, _ => st
  end.

(** The value stored under ["jurisdiction"]. *)
Definition jurisdiction_of (row : corp_row) : value :=
  if bool_decide (type row = Str "XCP")
  then if bool_decide (can_jur_typ_cd row = Str "OT")
       then othr_juris_desc row else can_jur_typ_cd row
  else Str "BC".

Definition delete_all (keys : list string) (d : gmap string value)
  : gmap string value :=
  foldl (λ d k, delete k d) d keys.

(** ** Sample data *)

Definition no_fault : statement → option exn := λ _, None.

Definition empty_world : world :=
  {| corp_state := []; corporation := []; issued := []; logged := [] |}.

(** Two filings share the top timestamp 50 and a third, older one carries
    the same period end as the second: the first row that carries the
    greatest period end decides ["ar_date"] and ["ar_filed_date"]. *)
Definition tie_rows : list date_row :=
  [ {| dr_corp_num := "CP0000001"; event_timestmp := 50;
       period_end_dt := Some 10%Z; agm_date := None |};
    {| dr_corp_num := "CP0000001"; event_timestmp := 50;
       period_end_dt := Some 20%Z; agm_date := Some 15%Z |};
    {| dr_corp_num := "CP0000001"; event_timestmp := 40;
       period_end_dt := Some 20%Z; agm_date := Some 15%Z |} ].

(** One remaining annual report, filed at 100 for the period ending 90,
    without an AGM. *)
Definition ar_without_agm : list date_row :=
  [ {| dr_corp_num := "CP0000001"; event_timestmp := 100;
       period_end_dt := Some 90%Z; agm_date := None |} ].

Definition stale_corporation : world :=
  {| corp_state := [];
     corporation :=
       [ {| c_corp_num := "CP0000001"; last_ar_filed_dt := Datetime 200;
            last_agm_date := Datetime 190; last_ledger_dt := Datetime 200 |} ];
     issued := []; logged := [] |}.

Definition one_active_world : world :=
  {| corp_state :=
       [ {| cs_corp_num := "CP0000001"; start_event_id := 1;
            end_event_id := Some 3%Z; state_typ_cd := "ACT" |};
         {| cs_corp_num := "CP0000002"; start_event_id := 2;
            end_event_id := None; state_typ_cd := "ACT" |};
         {| cs_corp_num := "CP0000001"; start_event_id := 3;
            end_event_id := None; state_typ_cd := "HIS" |} ];
     corporation := []; issued := []; logged := [] |}.

(** The event id 5 is used twice for the same corporation: the table that
    the first transition produced is the prior state of the second. *)
Definition after_first_transition : world :=
  (update_corp_state no_fault 5 "CP0000001" "HIS"
     {| corp_state :=
          [ {| cs_corp_num := "CP0000001"; start_event_id := 1;
               end_event_id := None; state_typ_cd := "ACT" |} ];
        corporation := []; issued := []; logged := [] |}).2.

Definition coop : corp_row :=
  {| identifier := Str "CP0001965"; corp_frozen_typ_cd := Null;
     type := Str "CP"; last_ar_date := Datetime 300;
     last_ar_filed_date := Datetime 320; r_last_agm_date := Datetime 310;
     state := Str "Active"; r_corp_state := Str "ACT";
     legal_name := Str "Test Co-op"; assumed_name := Null;
     founding_date := Datetime 1; business_number := Str "123456789";
     can_jur_typ_cd := Null; othr_juris_desc := Null |}.

(** An extra-provincial row, as the [try] block would treat it. *)
Definition xpro : corp_row :=
  {| identifier := Str "XCP0000001"; corp_frozen_typ_cd := Null;
     type := Str "XCP"; last_ar_date := Null;
     last_ar_filed_date := Null; r_last_agm_date := Null;
     state := Str "Active"; r_corp_state := Str "ACT";
     legal_name := Str "Far Co-op"; assumed_name := Str "Near Co-op";
     founding_date := Datetime 1; business_number := Null;
     can_jur_typ_cd := Str "OT"; othr_juris_desc := Str "Yukon" |}.

Definition registry : list corp_row := [coop].

(** A database that answers NULL to every text that is not the intended
    last-ledger statement. *)
Definition unanswered (text : string) : value := Null.

Definition ledger : list event_row :=
  [ {| ev_corp_num := "CP0001965"; event_typ_cd := "FILE";
       ev_event_timestmp := 320 |} ].

Definition found_coop : (exn + option (gmap string value)) * world :=
  find_by_identifier no_fault registry ledger unanswered id id (Some "CP0001965") empty_world.

Definition coop_business : gmap string value :=
  match found_coop.1 with
  | inr (Some b) => b
  | _ => ∅
  end.

(** A co-operative whose state description itself reads "In Good
    Standing", and that has neither a last AR filed date nor an AGM date. *)
Definition described_as_standing : corp_row :=
  {| identifier := Str "CP0001965"; corp_frozen_typ_cd := Null;
     type := Str "CP"; last_ar_date := Null;
     last_ar_filed_date := Null; r_last_agm_date := Null;
     state := Str "In Good Standing"; r_corp_state := Str "ACT";
     legal_name := Str "Test Co-op"; assumed_name := Null;
     founding_date := Datetime 1; business_number := Str "123456789";
     can_jur_typ_cd := Null; othr_juris_desc := Null |}.

Definition found_described : (exn + option (gmap string value)) * world :=
  find_by_identifier no_fault [described_as_standing] ledger unanswered id id
    (Some "CP0001965") empty_world.

Definition described_business : gmap string value :=
  match found_described.1 with
  | inr (Some b) => b
  | _ => ∅
  end.

Definition resolved_xpro : (exn + gmap string value) * world :=
  resolve no_fault ledger unanswered id id "XCP0000001" xpro empty_world.

Definition xpro_business : gmap string value :=
  match resolved_xpro.1 with
  | inr b => b
  | _ => ∅
  end.

(** ** Sequences of transitions *)

(** [update_corp_state] called for each [(event_id, corp_num, state)] in
    turn; [None] when one of the calls raises. *)
Fixpoint run_updates (fault : statement → option exn)
  (updates : list (Z * string * string)) (w : world) : option world :=
  match updates with
  | [] => Some w
  | (event_id, corp_num, state) :: updates' =>
      match update_corp_state fault event_id corp_num state w with
      | (inr _, w') => run_updates fault updates' w'
      | (inl _, _) => None
      end
  end.

(** A database that rejects every INSERT into CORP_STATE, and one that
    rejects the UPDATE that reopens ended rows. *)
Definition insert_rejected (s : statement) : option exn :=
  match s with
  | InsertCorpState _ _ _ => Some (DatabaseError "ORA-00001")
  | _ => None
  end.

Definition reopen_rejected (s : statement) : option exn :=
  match s with
  | ReopenCorpState _ => Some (DatabaseError "ORA-00060")
  | _ => None
  end.

(** Three transitions, two of them by the same event and two of them for
    the same corporation. *)
Definition shared_event_batch : list (Z * string * string) :=
  [ (8%Z, "CP0000001", "ACT"); (8%Z, "CP0000002", "HIS"); (9%Z, "CP0000001", "HIS") ].

(** ** What the reset is to write *)

(** The CORPORATION row [c'] is [c] with the dates recovered from [rows]:
    the ledger date from the latest event, the AR filed date from the
    filing that decides the latest period end, the AGM date the latest
    AGM date. *)
Definition carries_recovered (rows : list date_row) (c c' : Corporation) : Prop :=
  c_corp_num c' = c_corp_num c ∧
  ∃ rt ra rg m_ar m_agm,
    first_latest timestmp_of rows rt (event_timestmp rt) ∧
    first_latest period_end_dt rows ra m_ar ∧
    first_latest agm_date rows rg m_agm ∧
    last_ledger_dt c' = Datetime (event_timestmp rt) ∧
    last_ar_filed_dt c' = Datetime (event_timestmp ra) ∧
    last_agm_date c' = Datetime m_agm.

(** Two remaining filings of CP0000001, the later one without an AGM. *)
Definition two_filings : list date_row :=
  [ {| dr_corp_num := "CP0000001"; event_timestmp := 100;
       period_end_dt := Some 90%Z; agm_date := None |};
    {| dr_corp_num := "CP0000001"; event_timestmp := 60;
       period_end_dt := Some 50%Z; agm_date := Some 55%Z |} ].

(** CP0000001 has the two filings above, CP0000002 an annual report
    without an AGM. *)
Definition remaining_filings (event_ids : list Z) (corp_num : string)
  : list date_row :=
  if bool_decide (corp_num = "CP0000001") then two_filings else ar_without_agm.

Definition two_corporations : world :=
  {| corp_state := [];
     corporation :=
       [ {| c_corp_num := "CP0000001"; last_ar_filed_dt := Datetime 200;
            last_agm_date := Datetime 190; last_ledger_dt := Datetime 200 |};
         {| c_corp_num := "CP0000002"; last_ar_filed_dt := Datetime 210;
            last_agm_date := Datetime 205; last_ledger_dt := Datetime 210 |};
         {| c_corp_num := "CP0000003"; last_ar_filed_dt := Datetime 220;
            last_agm_date := Datetime 215; last_ledger_dt := Datetime 220 |} ];
     issued := []; logged := [] |}.

(** ** The resolved record *)

(** The keys of the dict that [find_by_identifier] hands out. *)
Definition public_fields : list string :=
  ["identifier"; "status"; "jurisdiction"; "foundingDate"; "lastAgmDate";
   "lastArDate"; "lastLedgerTimestamp"; "businessNumber"; "corpState";
   "legalName"; "legalType"; "cacheId"].

(** The events that count for the last ledger timestamp of [corp_num]. *)
Definition ledger_event (corp_num : string) (e : event_row) : Prop :=
  (event_typ_cd e = "FILE" ∨ event_typ_cd e = "CONVOTHER") ∧ ev_corp_num e = corp_num.

(** The co-operative with an older annual report listed first, and with
    an assumed name. *)
Definition coop_2018 : corp_row :=
  {| identifier := Str "CP0001965"; corp_frozen_typ_cd := Null;
     type := Str "CP"; last_ar_date := Datetime 200;
     last_ar_filed_date := Datetime 320; r_last_agm_date := Datetime 310;
     state := Str "Active"; r_corp_state := Str "ACT";
     legal_name := Str "Test Co-op"; assumed_name := Str "Tested";
     founding_date := Datetime 1; business_number := Str "123456789";
     can_jur_typ_cd := Null; othr_juris_desc := Null |}.

Definition two_reports : list corp_row := [coop_2018; coop].

Definition busy_ledger : list event_row :=
  [ {| ev_corp_num := "CP0001965"; event_typ_cd := "FILE"; ev_event_timestmp := 320 |};
    {| ev_corp_num := "CP0001965"; event_typ_cd := "ADMIN"; ev_event_timestmp := 400 |};
    {| ev_corp_num := "CP0000002"; event_typ_cd := "FILE"; ev_event_timestmp := 500 |};
    {| ev_corp_num := "CP0001965"; event_typ_cd := "CONVOTHER"; ev_event_timestmp := 350 |} ].

Definition found_latest : (exn + option (gmap string value)) * world :=
  find_by_identifier no_fault two_reports busy_ledger unanswered id id (Some "CP0001965")
    empty_world.

Definition latest_business : gmap string value :=
  match found_latest.1 with
  | inr (Some b) => b
  | _ => ∅
  end.

(** What a table looks like after transitions by events of [ids]: the
    rows of the original table [t], each as it was or ended by one of the
    events, followed by rows that the events started. *)
Definition transitioned (ids : list Z) (t t' : list CorpState) : Prop :=
  ∃ old new,
    t' = old ++ new ∧
    Forall2 (λ r r', r' = r ∨
                     (end_event_id r = None ∧ ∃ e, e ∈ ids ∧ r' = ended_by e r))
      t old ∧
    Forall (λ r, start_event_id r ∈ ids) new.

End Colin.

(** * JSON documents *)

Module Json.

(** A parsed JSON document as Python holds it; a dict keeps the order in
    which its keys were encountered. *)
#[warnings="-register-all"]
Inductive json :=
| JNull
| JBool (b : bool)
| JNum (n : Z)
| JStr (s : string)
| JList (l : list json)
| JDict (d : list (string * json)).

Definition truthy (j : json) : bool :=
  match j with
  | JNull => false
  | JBool b => b
  | JNum n => bool_decide (n ≠ 0%Z)
  | JStr s => bool_decide (s ≠ "")
  | JList l => match l with [] => false | _ => true end
  | JDict d => match d with [] => false | _ => true end
  end.

(** [d.get(k)] *)
Fixpoint dict_get (k : string) (d : list (string * json)) : option json :=
  match d with
  | [] => None
  | (k', v) :: d' => if decide (k' = k) then Some v else dict_get k d'
  end.

(** [d[k] = v] *)
Fixpoint dict_set (k : string) (v : json) (d : list (string * json))
  : list (string * json) :=
  match d with
  | [] => [(k, v)]
  | (k', v') :: d' =>
      if decide (k' = k) then (k, v) :: d' else (k', v') :: dict_set k v d'
  end.

Inductive exn :=
| KeyError (key : string)
| TypeError
| AttributeError.

(** [j[k]] *)
Definition getitem (j : json) (k : string) : exn + json :=
  match j with
  | JDict d =>
      match dict_get k d with
      | Some v => inr v
      | None => inl (KeyError k)
      end
  | _ => inl TypeError
  end.

(** [j.keys()] *)
Definition keys (j : json) : exn + list string :=
  match j with
  | JDict d => inr d.*1
  | _ => inl AttributeError
  end.

End Json.

(** * Filing validation ([validation.py]) *)

Module Validation.
Import Json.

Inductive validator := AnnualReport | ChangeOfAddress | ChangeOfDirectors.

Section Validate.

(** [legal_api.models.Business] and [legal_api.errors.Error]; an [Error]
    object is truthy, so [if err:] tests for [None]. *)
Context {Business Error : Type}.

(** [validate_against_schema] and the three validators imported by the
    module, and the registry [Filing.FILINGS] (filing type to a dict with
    the entries 'name' and 'code'). *)
Variable validate_against_schema : json → option Error.
Variable annual_report_validate : Business → json → option Error.
Variable coa_validate : Business → json → option Error.
Variable cod_validate : Business → json → option Error.
Variable FILINGS : gmap string (gmap string string).

Definition run_validator (v : validator) : Business → json → option Error :=
  match v with
  | AnnualReport => annual_report_validate
  | ChangeOfAddress => coa_validate
  | ChangeOfDirectors => cod_validate
  end.

(** [Filing.FILINGS.get(k, None)] as a condition: a non-empty entry. *)
Definition registered (k : string) : bool :=
  match FILINGS !! k with
  | Some info => bool_decide (info ≠ ∅)
  | None => false
  end.

(** [Filing.FILINGS[t].get('name')] *)
Definition filing_name (t : string) : exn + option string :=
  match FILINGS !! t with
  | Some info => inr (info !! "name")
  | None => inl (KeyError t)
  end.

(** The [if]/[elif] chain: the validator that key [k] selects, if any. *)
Definition dispatch (k : string) : exn + option validator :=
  match filing_name "annualReport" with
  | inl e => inl e
  | inr n =>
      if bool_decide (Some k = n) then inr (Some AnnualReport)
      else
        match filing_name "changeOfAddress" with
        | inl e => inl e
        | inr n =>
            if bool_decide (Some k = n) then inr (Some ChangeOfAddress)
            else
              match filing_name "changeOfDirectors" with
              | inl e => inl e
              | inr n =>
                  if bool_decide (Some k = n) then inr (Some ChangeOfDirectors)
                  else inr None
              end
        end
  end.

(** [for k in filing_json['filing'].keys()], with the current value of
    [err] and the validators called so far. *)
Fixpoint validate_keys (business : Business) (filing_json : json)
  (ks : list string) (err : option Error) (called : list validator)
  : (exn + option Error) * list validator :=
  match ks with
  | [] => (inr None, called)
  | k :: ks' =>
      if registered k then
        match dispatch k with
        | inl e => (inl e, called)
        | inr sel =>
            let '(err, called) :=
              match sel with
              | Some v => (run_validator v business filing_json, called ++ [v])
              | None => (err, called)
              end in
            match err with
            | Some e => (inr (Some e), called)
            | None => validate_keys business filing_json ks' err called
            end
        end
      else validate_keys business filing_json ks' err called
  end.

(** The result, and the validators that were called, in order. *)
Definition validate (business : Business) (filing_json : json)
  : (exn + option Error) * list validator :=
  match validate_against_schema filing_json with
  | Some err => (inr (Some err), [])
  | None =>
      match getitem filing_json "filing" with
      | inl e => (inl e, [])
      | inr filing =>
          match keys filing with
          | inl e => (inl e, [])
          | inr ks => validate_keys business filing_json ks None []
          end
      end
  end.

(** ** What the pipeline is to do *)

(** The validator dedicated to key [k]: [k] is in the registry and is the
    name the registry gives to one of the three validated filing types. *)
Definition dedicated (n_ar n_coa n_cod : option string) (k : string)
  : option validator :=
  if registered k then
    if bool_decide (Some k = n_ar) then Some AnnualReport
    else if bool_decide (Some k = n_coa) then Some ChangeOfAddress
    else if bool_decide (Some k = n_cod) then Some ChangeOfDirectors
    else None
  else None.

(** Run the validators in order up to the first error. *)
Fixpoint first_error (business : Business) (filing_json : json)
  (vs : list validator) : option Error * list validator :=
  match vs with
  | [] => (None, [])
  | v :: vs' =>
      match run_validator v business filing_json with
      | Some e => (Some e, [v])
      | None =>
          let '(r, called) := first_error business filing_json vs' in
          (r, v :: called)
      end
  end.

End Validate.

(** ** Sample data *)

Definition sample_registry : gmap string (gmap string string) :=
  {[ "annualReport" := {[ "name" := "annualReport"; "code" := "OTANN" ]};
     "changeOfAddress" := {[ "name" := "changeOfAddress"; "code" := "OTADD" ]};
     "changeOfDirectors" := {[ "name" := "changeOfDirectors"; "code" := "OTCDR" ]} ]}.

(** A document whose annual report is fine and whose two other filings
    are not; the header is no filing type. *)
Definition three_filings : json :=
  JDict [("filing",
          JDict [("header", JDict [("name", JStr "annualReport")]);
                 ("annualReport", JDict []);
                 ("changeOfDirectors", JDict []);
                 ("changeOfAddress", JDict [])])].


Definition accept (j : json) : option string := None.


Definition ar_passes (b : unit) (j : json) : option string := None.

Definition coa_fails (b : unit) (j : json) : option string := Some "Address".

Definition cod_fails (b : unit) (j : json) : option string := Some "Directors".


Definition ar_entry : gmap string string :=
  {[ "name" := "annualReport"; "code" := "OTANN" ]}.

Definition coa_entry : gmap string string :=
  {[ "name" := "changeOfAddress"; "code" := "OTADD" ]}.

Definition cod_entry : gmap string string :=
  {[ "name" := "changeOfDirectors"; "code" := "OTCDR" ]}.

Definition three_filings_body : json :=
  JDict [("header", JDict [("name", JStr "annualReport")]);
         ("annualReport", JDict []);
         ("changeOfDirectors", JDict []);
         ("changeOfAddress", JDict [])].

Definition three_filings_keys : list string :=
  ["header"; "annualReport"; "changeOfDirectors"; "changeOfAddress"].

End Validation.

(** * Filing submission ([business_filings.py]) *)

Module Filings.
Import Json.

Inductive HTTPStatus :=
| OK | CREATED | ACCEPTED
| BAD_REQUEST | UNAUTHORIZED | PAYMENT_REQUIRED | FORBIDDEN | NOT_FOUND.

#[global] Instance HTTPStatus_eq_dec : EqDecision HTTPStatus.
Proof. solve_decision. Defined.

Definition status_code (s : HTTPStatus) : Z :=
  match s with
  | OK => 200 | CREATED => 201 | ACCEPTED => 202
  | BAD_REQUEST => 400 | UNAUTHORIZED => 401 | PAYMENT_REQUIRED => 402
  | FORBIDDEN => 403 | NOT_FOUND => 404
  end.

Inductive http_method := GET | POST | PUT | DELETE | OPTIONS.

#[global] Instance http_method_eq_dec : EqDecision http_method.
Proof. solve_decision. Defined.

(** The Flask request: [get_json] is [JNull] when there is no body. *)
Record Request := {
  method : http_method;
  get_json : json;
  args : gmap string string
}.

Record Address := {
  city : string;
  postal_code : string;
  region : string;
  street : string;
  country : string
}.

(** [legal_api.models.Business], [User] and [Filing], with the attributes
    the resource reads and writes; [mailing_address] stands for
    [business.mailing_address.one_or_none()]. A [Filing] that was never
    saved has no [id]. *)
Record Business := {
  b_id : Z;
  b_identifier : string;
  b_legal_name : string;
  mailing_address : option Address
}.

Record User := { user_id : Z }.

Record Filing := {
  id : option Z;
  business_id : option Z;
  submitter_id : option Z;
  filing_date : option Z;
  filing_json : json;
  payment_token : json
}.

Inductive exn :=
| JsonError (e : Json.exn)
| ConnectionError
| AuthError
| BusinessException (error : string) (status : HTTPStatus).

Inductive log_entry :=
| LogPaymentConnectionFailure (identifier : string) (filing_id : option Z).

(** The filings table, the next free primary key and the log. *)
Record world := {
  filings : gmap Z Filing;
  next_id : Z;
  logged : list log_entry
}.

Definition M (A : Type) : Type := world → (exn + A) * world.

#[global] Instance M_ret : MRet M := λ A a w, (inr a, w).

#[global] Instance M_bind : MBind M :=
  λ A B f m w, match m w with
               | (inl e, w') => (inl e, w')
               | (inr a, w') => f a w'
               end.

Definition raise {A} (e : exn) : M A := λ w, (inl e, w).

Definition lift {A} (r : Json.exn + A) : M A :=
  match r with
  | inl e => raise (JsonError e)
  | inr a => mret a
  end.

Definition log_error (l : log_entry) : M unit :=
  λ w, (inr tt, {| filings := filings w; next_id := next_id w;
                   logged := logged w ++ [l] |}).

(** The outcome of [requests.post]. *)
Inductive post_outcome :=
| ConnectionFailed
| Response (body : json).

(** [s.lower()] on ASCII letters. *)
Definition lower_ascii (c : Ascii.ascii) : Ascii.ascii :=
  let n := Ascii.nat_of_ascii c in
  if bool_decide (65 ≤ n ≤ 90)%nat then Ascii.ascii_of_nat (n + 32) else c.

Fixpoint lower (s : string) : string :=
  match s with
  | EmptyString => EmptyString
  | String c s' => String (lower_ascii c) (lower s')
  end.

(** ['/'.join(path)] *)
Fixpoint join (sep : string) (l : list string) : string :=
  match l with
  | [] => ""
  | [x] => x
  | x :: l' => x +:+ sep +:+ join sep l'
  end.

(** [s[:-7]] *)
Definition drop_last7 (s : string) : string :=
  String.substring 0 (String.length s - 7) s.

Definition message (text : string) : json := JDict [("message", JStr text)].

Section Resource.

(** The collaborators of the resource: authorization, the filing schema
    ([rsbc_schemas.validate(.., 'filing')], with path and message of each
    error), the user of the token, [Business.find_by_identifier], the
    clock, the [json] property of a filing, the [BusinessException] that
    [Filing.save] raises for a filing it rejects, the registry
    [Filing.FILINGS], the bearer token, the configured payment URL and the
    payment service itself. *)
Variable authorized : string → bool.
Variable schema_validate : json → bool * list (list string * string).
Variable current_user : User.
Variable find_by_identifier : string → option Business.
Variable utcnow : Z.
Variable Filing_json : Filing → list (string * json).
Variable save_rejects : Filing → option (string * HTTPStatus).
Variable FILINGS : gmap string (gmap string string).
Variable token_auth_header : option string.
Variable payment_svc_url : string.
Variable requests_post : string → json → string → post_outcome.

(** Modelled from the spec: [Filing.save] of [legal_api.models], which is
    not among the sources. The submission service "persists a Filing row
    linked to the resolved Business": the row is written under the
    filing's primary key, a new filing gets the next free key, and a
    filing the model rejects raises [BusinessException]. The saved object
    is handed back. *)
Definition save (filing : Filing) : M Filing :=
  λ w, match save_rejects filing with
       | Some (error, status) => (inl (BusinessException error status), w)
       | None =>
           let key := default (next_id w) (id filing) in
           let saved :=
             {| id := Some key; business_id := business_id filing;
                submitter_id := submitter_id filing;
                filing_date := filing_date filing;
                filing_json := filing_json filing;
                payment_token := payment_token filing |} in
           (inr saved,
            {| filings := <[key := saved]> (filings w);
               next_id := match id filing with
                          | Some _ => next_id w
                          | None => (next_id w + 1)%Z
                          end;
               logged := logged w |})
       end.

Definition _put_basic_checks (identifier : string) (filing_id : option Z)
  (client_request : Request) : option (json * HTTPStatus) :=
  let json_input := get_json client_request in
  if negb (truthy json_input) then
    Some (message ("No filing json data in body of post for " +:+ identifier +:+ "."),
          BAD_REQUEST)
  else if bool_decide (filing_id ≠ None ∧ filing_id ≠ Some 0%Z)
          && bool_decide (method client_request ≠ PUT) then
    Some (message ("Illegal to attempt to create a new filing over an existing filing for "
                   +:+ identifier +:+ "."),
          FORBIDDEN)
  else None.

Definition _validate_filing_json (client_request : Request) : json * HTTPStatus :=
  let '(valid, err) := schema_validate (get_json client_request) in
  if valid then (message "Filing is valid", OK)
  else
    (JList ((λ error, JDict [("path", JStr (join "/" error.1));
                             ("error", JStr error.2)]) <$> err),
     BAD_REQUEST).

Definition _save_filing (client_request : Request) (business_identifier : string)
  (user : User) (filing_id : option Z)
  : M (option Business * option Filing * option json * option HTTPStatus) :=
  let json_input := get_json client_request in
  if negb (truthy json_input) then
    mret (None, None,
          Some (message ("No filing json data in body of post for "
                         +:+ business_identifier +:+ ".")),
          Some BAD_REQUEST)
  else
    match find_by_identifier business_identifier with
    | None =>
        mret (None, None, Some (message (business_identifier +:+ " not found")),
              Some NOT_FOUND)
    | Some business =>
        let store :=
          λ filing : Filing,
            λ w,
              match
                save {| id := id filing; business_id := business_id filing;
                        submitter_id := Some (user_id user);
                        filing_date := Some utcnow;
                        filing_json := json_input;
                        payment_token := payment_token filing |} w
              with
              | (inl (BusinessException error status), w') =>
                  (inr (None, None, Some (message error), Some status), w')
              | (inl e, w') => (inl e, w')
              | (inr saved, w') => (inr (Some business, Some saved, None, None), w')
              end in
        if bool_decide (method client_request = PUT) then
          λ w,
            match filing_id ≫= (λ i, filings w !! i) with
            | Some filing =>
                if bool_decide (business_id filing = Some (b_id business)
                                ∧ b_identifier business = business_identifier)
                then store filing w
                else (inr (None, None,
                           Some (message (business_identifier +:+ " no filings found")),
                           Some NOT_FOUND), w)
            | None =>
                (inr (None, None,
                      Some (message (business_identifier +:+ " no filings found")),
                      Some NOT_FOUND), w)
            end
        else
          store {| id := None; business_id := Some (b_id business);
                   submitter_id := None; filing_date := None;
                   filing_json := JNull; payment_token := JNull |}
    end.

(** [for k in filing.filing_json['filing'].keys()] *)
Definition filing_types (ks : list string) : list json :=
  omap (λ k,
          match FILINGS !! k with
          | Some info =>
              if bool_decide (info ≠ ∅)
              then Some (JDict [("filing_type_code",
                                 from_option JStr JNull (info !! "code"))])
              else None
          | None => None
          end) ks.

(** The payload; a business without mailing address has no [city]. *)
Definition invoice_payload (business : Business) (filing : Filing)
  : Json.exn + json :=
  match getitem (filing_json filing) "filing" with
  | inl e => inl e
  | inr f =>
      match keys f with
      | inl e => inl e
      | inr ks =>
          match mailing_address business with
          | None => inl AttributeError
          | Some a =>
              inr (JDict
                [("payment_info", JDict [("method_of_payment", JStr "CC")]);
                 ("business_info",
                  JDict [("business_identifier", JStr (b_identifier business));
                         ("corp_type", JStr (drop_last7 (b_identifier business)));
                         ("business_name", JStr (b_legal_name business));
                         ("contact_info",
                          JDict [("city", JStr (city a));
                                 ("postal_code", JStr (postal_code a));
                                 ("province", JStr (region a));
                                 ("address_line_1", JStr (street a));
                                 ("country", JStr (country a))])]);
                 ("filing_info", JDict [("filing_types", JList (filing_types ks))])])
          end
      end
  end.

(** The filing object is mutated by the callee; it is handed back with the
    pair the source returns. *)
Definition _create_invoice (business : Business) (filing : Filing)
  : M (Filing * (option json * option HTTPStatus)) :=
  payload ← lift (invoice_payload business filing);
  match token_auth_header with
  | None => raise AuthError
  | Some token =>
      match requests_post payment_svc_url payload ("Bearer " +:+ token) with
      | ConnectionFailed =>
          log_error (LogPaymentConnectionFailure (b_identifier business) (id filing)) ;;
          mret (filing,
                (Some (message "unable to create invoice for payment."),
                 Some PAYMENT_REQUIRED))
      | Response body =>
          pid ← lift (match body with
                      | JDict d => inr (default JNull (dict_get "id" d))
                      | _ => inl AttributeError
                      end);
          saved ← save {| id := id filing; business_id := business_id filing;
                          submitter_id := submitter_id filing;
                          filing_date := filing_date filing;
                          filing_json := filing_json filing;
                          payment_token := pid |};
          mret (saved, (None, None))
      end
  end.

(** [draft = request.args.get('draft', None)];
    [not draft or draft.lower() != 'true'] *)
Definition not_draft (client_request : Request) : bool :=
  match args client_request !! "draft" with
  | None => true
  | Some draft => bool_decide (draft = "") || bool_decide (lower draft ≠ "true")
  end.

Definition put (identifier : string) (filing_id : option Z) (request : Request)
  : M (json * HTTPStatus) :=
  (* basic checks *)
  match _put_basic_checks identifier filing_id request with
  | Some error => mret (error.1, error.2)
  | None =>
      (* check authorization *)
      if negb (authorized identifier) then
        mret (message ("You are not authorized to submit a filing for "
                       +:+ identifier +:+ "."), UNAUTHORIZED)
      else
        (* validate filing *)
        let only_validate := args request !! "only_validate" in
        let '(err_msg, err_code) := _validate_filing_json request in
        if bool_decide (err_code ≠ OK) || bool_decide (only_validate = Some "true") then
          let msg := if bool_decide (err_code ≠ OK)
                     then JDict [("errors", err_msg)] else err_msg in
          mret (msg, err_code)
        else
          (* save filing *)
          r ← _save_filing request identifier current_user filing_id;
          let '(business, filing, err_msg, err_code) := r in
          match err_code, business, filing with
          | Some err_code, _, _ => mret (default JNull err_msg, err_code)
          | None, Some business, Some filing =>
              let all_done := λ filing : Filing,
                mret (JDict (Filing_json filing),
                      if bool_decide (method request = POST) then CREATED else ACCEPTED) in
              (* create invoice ?? *)
              if not_draft request then
                r ← _create_invoice business filing;
                let '(filing, (err_msg, err_code)) := r in
                match err_code with
                | Some err_code =>
                    let reply := Filing_json filing in
                    let reply := dict_set "errors" (JList [default JNull err_msg]) reply in
                    mret (JDict reply, err_code)
                | None => all_done filing
                end
              else all_done filing
          | None, _, _ =>
              (* no error code comes with a business and a filing *)
              raise (JsonError AttributeError)
          end
  end.

End Resource.

(** ** Sample data *)

Definition coop : Business :=
  {| b_id := 7; b_identifier := "CP0001965"; b_legal_name := "Test Co-op";
     mailing_address :=
       Some {| city := "Victoria"; postal_code := "V8V 1X4"; region := "BC";
               street := "1 Main St"; country := "CA" |} |}.

Definition annual_report : json :=
  JDict [("filing", JDict [("header", JDict [("name", JStr "annualReport")]);
                           ("annualReport", JDict [("agmDate", JStr "2019-04-08")])])].

Definition post_request : Request :=
  {| method := POST; get_json := annual_report; args := ∅ |}.

Definition no_filings : world := {| filings := ∅; next_id := 1; logged := [] |}.

Definition saved_filing : Filing :=
  {| id := Some 1%Z; business_id := Some 7%Z; submitter_id := Some 3%Z;
     filing_date := Some 1000%Z; filing_json := annual_report;
     payment_token := JNull |}.

Definition sample_registry : gmap string (gmap string string) :=
  {[ "annualReport" := {[ "name" := "annualReport"; "code" := "OTANN" ]} ]}.

Definition as_json (f : Filing) : list (string * json) :=
  [("filing", filing_json f)].

Definition registry_of (identifier : string) : option Business :=
  if bool_decide (identifier = "CP0001965") then Some coop else None.

Definition unreachable (url : string) (payload : json) (auth : string)
  : post_outcome := ConnectionFailed.

Definition after_save : world :=
  (_save_filing registry_of 1000 (λ _, None) post_request "CP0001965"
     {| user_id := 3 |} None no_filings).2.

Definition sample_payload : json :=
  match invoice_payload sample_registry coop saved_filing with
  | inr p => p
  | inl _ => JNull
  end.


Definition put_request : Request :=
  {| method := PUT; get_json := annual_report; args := ∅ |}.

Definition validate_request : Request :=
  {| method := POST; get_json := annual_report;
     args := {[ "only_validate" := "true" ]} |}.

(** A payment service that creates invoice 42. *)
Definition pays (url : string) (payload : json) (auth : string) : post_outcome :=
  Response (JDict [("id", JNum 42)]).

(** A table whose only filing, under key 1, belongs to another business
    (id 8, where the co-operative has id 7). *)
Definition other_business_filing : Filing :=
  {| id := Some 1%Z; business_id := Some 8%Z; submitter_id := Some 3%Z;
     filing_date := Some 1000%Z; filing_json := annual_report;
     payment_token := JNull |}.

Definition other_business_table : world :=
  {| filings := {[ 1%Z := other_business_filing ]}; next_id := 2; logged := [] |}.

Definition paid_filing : Filing :=
  {| id := Some 1%Z; business_id := Some 7%Z; submitter_id := Some 3%Z;
     filing_date := Some 1000%Z; filing_json := annual_report;
     payment_token := JNum 42 |}.

End Filings.

(** * The internal endpoints ([business_filings.py]) *)

Module Internal.
Import Json Filings.

(** A row of the filings table with the two further columns the internal
    endpoints read and write: the correlated COLIN event id (null until
    COLIN has the filing) and the status. *)
Record FilingRow := {
  filing : Filing;
  colin_event_id : json;
  status : string
}.

(** A row of [colin_last_update]; [lu_id] is the serial primary key. *)
Record LastUpdate := {
  lu_id : Z;
  last_update : Z;
  last_event_id : Z
}.

Record store := {
  rows : list FilingRow;
  colin_last_update : list LastUpdate;
  next_update_id : Z;
  error_log : list string
}.

(** What a handler returns: a (body, status) pair; the four-tuple
    [None, None, body, status] of two branches of [patch]; or the set
    [{message, 500}] of the [except] branch of [post]. *)
Inductive response :=
| Reply (body : json) (status : HTTPStatus)
| Tuple4 (body : json) (status : HTTPStatus)
| MessageSet (message : string) (code : Z).

Inductive exn :=
| JsonError (e : Json.exn)
| MultipleResultsFound
| NoneNotSubscriptable.

(** [Filing.colin_event_id == None, Filing.status == 'COMPLETED'] *)
Definition pending (r : FilingRow) : Prop :=
  colin_event_id r = JNull ∧ status r = "COMPLETED".

#[global] Instance pending_dec r : Decision (pending r).
Proof.
  unfold pending. destruct (colin_event_id r); try (right; by intros [? _]).
  destruct (decide (status r = "COMPLETED")); [left|right]; by try intros [_ ?].
Defined.

(** [f'{n}'] for an integer. *)
Definition str (n : Z) : string := pretty n.

Section Endpoints.

(** The [json] property of a filing, the [BusinessException] that
    [Filing.save] raises for a row it rejects, [jwt.validate_roles(['colin'])],
    whether the database rejects the INSERT, and [current_timestamp]. *)
Variable row_json : FilingRow → list (string * json).
Variable save_rejects : FilingRow → option (string * HTTPStatus).
Variable has_colin_role : bool.
Variable insert_error : option string.
Variable current_timestamp : Z.

(** [InternalFilings.get] *)
Definition internal_get (s : store) : response :=
  let pending_filings := filter pending (rows s) in
  Reply (JList ((λ x, JDict (row_json x)) <$> pending_filings)) OK.

(** [db.session.query(Filing).filter(Filing.id == filing_id).one_or_none()] *)
Definition one_or_none (filing_id : Z) (l : list FilingRow) : exn + option FilingRow :=
  match filter (λ r, id (filing r) = Some filing_id) l with
  | [] => inr None
  | [r] => inr (Some r)
  | _ => inl MultipleResultsFound
  end.

(** Modelled from the spec: [Filing.save] of [legal_api.models], which is
    not among the sources; a saved filing is the row of its primary key,
    "immutable once created except for a later-attached payment token or
    colin-event correlation id". The row with the key of [r] is replaced
    by [r]. *)
Definition save_row (r : FilingRow) (l : list FilingRow) : list FilingRow :=
  (λ x, if decide (id (filing x) = id (filing r)) then r else x) <$> l.

(** [InternalFilings.patch] *)
Definition internal_patch (filing_id : Z) (json_input : json) (s : store)
  : (exn + response) * store :=
  if negb (truthy json_input) then
    (inr (Tuple4 (message ("No filing json data in body of patch for "
                           +:+ str filing_id +:+ "."))
            BAD_REQUEST), s)
  else
    match getitem json_input "colinId" with
    | inl e => (inl (JsonError e), s)
    | inr colin_id =>
        match one_or_none filing_id (rows s) with
        | inl e => (inl e, s)
        | inr None =>
            (inr (Reply (message (str filing_id +:+ " no filings found")) NOT_FOUND), s)
        | inr (Some rv) =>
            let filing :=
              {| filing := filing rv; colin_event_id := colin_id;
                 status := status rv |} in
            match save_rejects filing with
            | Some (error, status_code) =>
                (inr (Tuple4 (message error) status_code), s)
            | None =>
                (inr (Reply (JDict (row_json filing)) ACCEPTED),
                 {| rows := save_row filing (rows s);
                    colin_last_update := colin_last_update s;
                    next_update_id := next_update_id s;
                    error_log := error_log s |})
            end
        end
    end.

(** [order by id desc] and [fetchone]: the row with the greatest id. *)
Definition newest (acc : option LastUpdate) (u : LastUpdate) : option LastUpdate :=
  match acc with
  | Some a => if bool_decide (lu_id a < lu_id u)%Z then Some u else Some a
  | None => Some u
  end.

Definition last_row (l : list LastUpdate) : option LastUpdate :=
  foldl newest None l.

(** [where colin_event_id = {colin_id}] *)
Definition carries (colin_id : Z) (r : FilingRow) : bool :=
  match colin_event_id r with
  | JNum n => bool_decide (n = colin_id)
  | _ => false
  end.

(** [ColinLastUpdate.get]; [method] is [request.method], and a
    [colin_id] of [None] or 0 takes the second branch. *)
Definition last_update_get (method : http_method) (colin_id : option Z) (s : store)
  : exn + response :=
  let by_id := λ c : Z,
    match head (filter (λ r, carries c r = true) (rows s)) with
    | None => inr (Reply (message "No colin ids found") NOT_FOUND)
    | Some r => inr (Reply (JDict [("colinId", colin_event_id r)]) OK)
    end in
  let newest_update :=
    match last_row (colin_last_update s) with
    | None => inl NoneNotSubscriptable
    | Some u =>
        if bool_decide (last_event_id u = 0%Z)
        then inr (Reply (message "No colin ids found") NOT_FOUND)
        else inr (Reply (JDict [("maxId", JNum (last_event_id u))])
                    (if bool_decide (method = GET) then OK else CREATED))
    end in
  match colin_id with
  | Some c => if bool_decide (c ≠ 0%Z) then by_id c else newest_update
  | None => newest_update
  end.

(** [ColinLastUpdate.post]; every exception ends in the [except] branch. *)
Definition last_update_post (colin_id : Z) (s : store) : response * store :=
  let failed := λ (err : string) (s : store),
    (MessageSet "message: failed to update colin_last_update." 500%Z,
     {| rows := rows s; colin_last_update := colin_last_update s;
        next_update_id := next_update_id s;
        error_log := error_log s ++
          ["Error updating colin_last_update table in legal db: " +:+ err] |}) in
  if negb has_colin_role then
    (Reply (message "You are not authorized to update this table") UNAUTHORIZED, s)
  else
    match insert_error with
    | Some err => failed err s
    | None =>
        let s' :=
          {| rows := rows s;
             colin_last_update :=
               colin_last_update s ++
                 [{| lu_id := next_update_id s; last_update := current_timestamp;
                     last_event_id := colin_id |}];
             next_update_id := (next_update_id s + 1)%Z;
             error_log := error_log s |} in
        match last_update_get POST None s' with
        | inr r => (r, s')
        | inl _ => failed "'NoneType' object is not subscriptable" s'
        end
    end.

End Endpoints.

(** ** Sample data *)

Definition completed (key : Z) (colin : json) : FilingRow :=
  {| filing := {| id := Some key; business_id := Some 7%Z; submitter_id := Some 3%Z;
                  filing_date := Some 1000%Z; filing_json := annual_report;
                  payment_token := JNum 42 |};
     colin_event_id := colin; status := "COMPLETED" |}.

Definition row_key (r : FilingRow) : list (string * json) :=
  [("id", from_option JNum JNull (id (filing r))); ("colinId", colin_event_id r)].

Definition two_pending : store :=
  {| rows := [completed 1 JNull; completed 2 (JNum 77); completed 3 JNull];
     colin_last_update :=
       [{| lu_id := 1; last_update := 10; last_event_id := 70 |};
        {| lu_id := 2; last_update := 20; last_event_id := 77 |}];
     next_update_id := 3; error_log := [] |}.

End Internal.

(** * Facts about the COLIN adapter *)

Module ColinFacts.
Import Colin.

(** ** The reset walk *)

Lemma latest_nil f : latest f [] None.
Proof. intros x Hx. by apply elem_of_nil in Hx. Qed.

(** One more row: it takes over exactly when its value is non-null and
    strictly greater than the value held so far. *)
Lemma latest_snoc f rows o x :
  latest f rows o →
  latest f (rows ++ [x])
    (match f x, o with
     | None, _ => o
     | Some v, None => Some x
     | Some v, Some r =>
         match f r with
         | Some m => if bool_decide (m < v)%Z then Some x else Some r
         | None => Some r
         end
     end).
Proof.
  intros H. destruct (f x) as [v|] eqn:Hx.
  - destruct o as [r|]; simpl in *.
    + destruct H as (m & pre & post & -> & Hr & Hpre & Hpost). rewrite Hr.
      case_bool_decide as Hlt.
      * exists v, (pre ++ r :: post), []. split_and!; [done|done| |].
        -- intros y u Hy Hu. apply elem_of_app in Hy as [Hy|Hy].
           ++ specialize (Hpre _ _ Hy Hu). lia.
           ++ apply elem_of_cons in Hy as [->|Hy].
              ** rewrite Hr in Hu. injection Hu as <-. done.
              ** specialize (Hpost _ _ Hy Hu). lia.
        -- intros y u Hy. by apply elem_of_nil in Hy.
      * exists m, pre, (post ++ [x]). split_and!; [|done|done|].
        -- by rewrite <- app_assoc.
        -- intros y u Hy Hu. apply elem_of_app in Hy as [Hy|Hy]; [by eapply Hpost|].
           apply list_elem_of_singleton in Hy as ->.
           rewrite Hx in Hu. injection Hu as <-. lia.
    + exists v, rows, []. split_and!; [done|done| |].
      * intros y u Hy Hu. rewrite (H _ Hy) in Hu. done.
      * intros y u Hy. by apply elem_of_nil in Hy.
  - destruct o as [r|]; simpl in *.
    + destruct H as (m & pre & post & -> & Hr & Hpre & Hpost).
      exists m, pre, (post ++ [x]). split_and!; [|done|done|].
      * by rewrite <- app_assoc.
      * intros y u Hy Hu. apply elem_of_app in Hy as [Hy|Hy]; [by eapply Hpost|].
        apply list_elem_of_singleton in Hy as ->. congruence.
    + intros y Hy. apply elem_of_app in Hy as [Hy|Hy]; [by apply H|].
      by apply list_elem_of_singleton in Hy as ->.
Qed.

(** The deciding row and its value are determined by the rows. *)
Lemma first_latest_unique f (rows : list date_row) r m r' m' :
  first_latest f rows r m → first_latest f rows r' m' → r = r' ∧ m = m'.
Proof.
  assert (∀ pre post pre' post' (r r' : date_row) m m',
             pre ++ r :: post = pre' ++ r' :: post' →
             length pre < length pre' →
             f r = Some m → f r' = Some m' →
             (∀ x v, x ∈ pre' → f x = Some v → (v < m')%Z) →
             (∀ x v, x ∈ post → f x = Some v → (v ≤ m)%Z) → False) as Hcross.
  { intros pre post pre' post' a a' n n' E Hlt Ha Ha' Hpre' Hpost.
    assert (a ∈ pre') as Hin.
    { apply list_elem_of_lookup. exists (length pre).
      rewrite <- (lookup_app_l pre' (a' :: post')) by done.
      rewrite <- E. apply list_lookup_middle. done. }
    assert (a' ∈ post) as Hin'.
    { apply list_elem_of_lookup. exists (length pre' - length pre - 1)%nat.
      assert ((pre ++ a :: post) !! length pre' = Some a') as Hl
        by (rewrite E; by apply list_lookup_middle).
      rewrite lookup_app_r in Hl by lia.
      destruct (length pre' - length pre)%nat as [|k] eqn:Hk; [lia|].
      simpl in Hl. by replace (S k - 1)%nat with k by lia. }
    specialize (Hpre' _ _ Hin Ha). specialize (Hpost _ _ Hin' Ha'). lia. }
  intros (pre & post & E & Hr & Hpre & Hpost) (pre' & post' & E' & Hr' & Hpre' & Hpost').
  rewrite E in E'.
  destruct (Nat.lt_trichotomy (length pre) (length pre')) as [Hlt|[Heq|Hgt]].
  - destruct (Hcross _ _ _ _ _ _ _ _ E' Hlt Hr Hr' Hpre' Hpost).
  - apply app_inj_1 in E' as [_ [= <- _]]; [|done]. split; [done|congruence].
  - symmetry in E'. destruct (Hcross _ _ _ _ _ _ _ _ E' Hgt Hr' Hr Hpre Hpost').
Qed.

Lemma walk_snoc corp rows x :
  walk corp (rows ++ [x]) = walk_row (walk corp rows) x.
Proof. unfold walk. by rewrite foldl_app. Qed.

(** What one turn of the loop does to each key. *)
Lemma newer_insert_ne d k k' v t :
  k ≠ k' → newer (<[k := v]> d) k' t = newer d k' t.
Proof. intros H. unfold newer. by rewrite lookup_insert_ne. Qed.

Ltac walk_row_cases :=
  unfold walk_row;
  repeat match goal with
    | |- context [match ?o with Some _ => _ | None => _ end] =>
        lazymatch o with
        | period_end_dt _ => destruct o
        | agm_date _ => destruct o
        end
    | |- context [if newer ?d ?k ?t then _ else _] => destruct (newer d k t) eqn:?
    end.

Lemma walk_row_corp_num d x : walk_row d x !! "corp_num" = d !! "corp_num".
Proof. walk_row_cases; by simplify_map_eq. Qed.

Lemma walk_row_event_date d x :
  walk_row d x !! "event_date" =
    if newer d "event_date" (event_timestmp x)
    then Some (Datetime (event_timestmp x)) else d !! "event_date".
Proof. walk_row_cases; by simplify_map_eq. Qed.

Lemma walk_row_ar_date d x :
  walk_row d x !! "ar_date" =
    match period_end_dt x with
    | Some p => if newer d "ar_date" p then Some (Datetime p) else d !! "ar_date"
    | None => d !! "ar_date"
    end.
Proof.
  unfold walk_row.
  destruct (newer d "event_date" _); destruct (period_end_dt x) as [p|];
    rewrite ?newer_insert_ne by done;
    try destruct (newer d "ar_date" p);
    destruct (agm_date x) as [a|];
    try destruct (newer _ "agm_date" a); by simplify_map_eq.
Qed.

Lemma walk_row_ar_filed_date d x :
  walk_row d x !! "ar_filed_date" =
    match period_end_dt x with
    | Some p => if newer d "ar_date" p then Some (Datetime (event_timestmp x))
                else d !! "ar_filed_date"
    | None => d !! "ar_filed_date"
    end.
Proof.
  unfold walk_row.
  destruct (newer d "event_date" _); destruct (period_end_dt x) as [p|];
    rewrite ?newer_insert_ne by done;
    try destruct (newer d "ar_date" p);
    destruct (agm_date x) as [a|];
    try destruct (newer _ "agm_date" a); by simplify_map_eq.
Qed.

Lemma walk_row_agm_date d x :
  walk_row d x !! "agm_date" =
    match agm_date x with
    | Some a => if newer d "agm_date" a then Some (Datetime a) else d !! "agm_date"
    | None => d !! "agm_date"
    end.
Proof.
  unfold walk_row.
  destruct (newer d "event_date" _); destruct (period_end_dt x) as [p|];
    try destruct (newer _ "ar_date" p);
    destruct (agm_date x) as [a|];
    rewrite ?newer_insert_ne by done;
    try destruct (newer d "agm_date" a); by simplify_map_eq.
Qed.

(** The walk computes the latest dates, whatever the order of the rows. *)
Lemma walk_latest_dates corp rows : latest_dates corp rows (walk corp rows).
Proof.
  induction rows as [|x rows IH] using rev_ind.
  - unfold walk; simpl. split_and!; [done|..]; exists None; split_and?;
      first [apply latest_nil | done].
  - destruct IH as (Hc & (ot & Lt & Ht) & (oa & La & Ha & Hf) & (og & Lg & Hg)).
    rewrite walk_snoc. split_and!.
    + by rewrite walk_row_corp_num.
    + eexists. split; [apply (latest_snoc _ _ _ x Lt)|].
      rewrite walk_row_event_date. unfold newer. rewrite Ht.
      unfold timestmp_of. destruct ot as [r|]; simpl; [|done].
      by case_bool_decide.
    + eexists. split; [apply (latest_snoc _ _ _ x La)|].
      rewrite walk_row_ar_date, walk_row_ar_filed_date. unfold newer.
      rewrite Ha, Hf.
      destruct (period_end_dt x) as [p|] eqn:Hp; [|done].
      destruct oa as [r|]; simpl; [|by rewrite Hp].
      destruct La as (m & pre & post & _ & Hr & _). rewrite Hr. simpl.
      case_bool_decide; simpl; by rewrite ?Hp, ?Hr.
    + eexists. split; [apply (latest_snoc _ _ _ x Lg)|].
      rewrite walk_row_agm_date. unfold newer. rewrite Hg.
      destruct (agm_date x) as [a|] eqn:Hp; [|done].
      destruct og as [r|]; simpl; [|by rewrite Hp].
      destruct Lg as (m & pre & post & _ & Hr & _). rewrite Hr. simpl.
      case_bool_decide; simpl; by rewrite ?Hp, ?Hr.
Qed.

(** ** Grouping the undone events by corporation *)

Lemma assoc_get_None k d : assoc_get k d = None ↔ k ∉ d.*1.
Proof.
  induction d as [|[k' v'] d IH]; simpl.
  - split; [intros _ H; by apply elem_of_nil in H | done].
  - destruct (decide (k' = k)) as [->|Hne].
    + split; [done|]. intros H. destruct H. apply elem_of_cons. by left.
    + rewrite IH, not_elem_of_cons. split; [by intros ?|by intros [_ ?]].
Qed.

Lemma assoc_set_keys_in k v d : k ∈ d.*1 → (assoc_set k v d).*1 = d.*1.
Proof.
  induction d as [|[k' v'] d IH]; simpl; intros H.
  - by apply elem_of_nil in H.
  - destruct (decide (k' = k)) as [->|Hne]; [done|].
    apply elem_of_cons in H as [->|H]; [done|].
    rewrite !fmap_cons. f_equal. by apply IH.
Qed.

Lemma assoc_set_keys_fresh k v d : k ∉ d.*1 → (assoc_set k v d).*1 = d.*1 ++ [k].
Proof.
  induction d as [|[k' v'] d IH]; simpl; intros H; [done|].
  apply not_elem_of_cons in H as [Hne H].
  destruct (decide (k' = k)) as [->|_]; [done|].
  rewrite !fmap_cons. simpl. f_equal. by apply IH.
Qed.

Lemma group_event_keys d info :
  (group_event d info).*1 =
    if decide (ei_corp_num info ∈ d.*1) then d.*1 else d.*1 ++ [ei_corp_num info].
Proof.
  unfold group_event. destruct (assoc_get _ d) as [e|] eqn:He.
  - assert (ei_corp_num info ∈ d.*1) as Hin.
    { destruct (decide (ei_corp_num info ∈ d.*1)) as [|Hn]; [done|].
      apply assoc_get_None in Hn. congruence. }
    rewrite decide_True by done.
    case_bool_decide; [by apply assoc_set_keys_in | done].
  - apply assoc_get_None in He. rewrite decide_False by done.
    by apply assoc_set_keys_fresh.
Qed.

(** The keys of [events_by_corp_num] are the corporations of [event_info],
    each once. *)
Lemma events_by_corp_num_keys event_info :
  NoDup (events_by_corp_num event_info).*1 ∧
  ∀ c, c ∈ (events_by_corp_num event_info).*1 ↔ c ∈ ei_corp_num <$> event_info.
Proof.
  unfold events_by_corp_num.
  induction event_info as [|info l IH] using rev_ind; simpl.
  - split; [constructor | done].
  - destruct IH as [Hnd Hin].
    rewrite foldl_app; simpl. rewrite group_event_keys, fmap_app; simpl.
    case_decide as Hc.
    + split; [done|]. intros c. rewrite elem_of_app, list_elem_of_singleton.
      rewrite Hin. split; [by left|]. intros [?| ->]; [done|]. by apply Hin.
    + split.
      * apply NoDup_app. split_and!; [done| |apply NoDup_singleton].
        intros c Hc1 Hc2. apply list_elem_of_singleton in Hc2 as ->. done.
      * intros c. rewrite !elem_of_app, !list_elem_of_singleton. by rewrite Hin.
Qed.

Section Reset.

Variable fault : statement → option exn.
Variable fetch_dates : list Z → string → list date_row.

Lemma execute_ok s w :
  fault s = None → execute fault s w = (inr tt, with_issued s (run s w)).
Proof. intros H. unfold execute. by rewrite H. Qed.

Lemma execute_fault s e w :
  fault s = Some e → execute fault s w = (inl e, with_issued s w).
Proof. intros H. unfold execute. by rewrite H. Qed.

Lemma dates_loop_ok event_ids corps acc w :
  (∀ c, c ∈ corps → fault (SelectDates event_ids c) = None) →
  dates_loop fault fetch_dates event_ids corps acc w =
    (inr (acc ++ ((λ c, walk c (fetch_dates event_ids c)) <$> corps)),
     foldl (λ w c, with_issued (SelectDates event_ids c) w) w corps).
Proof.
  revert acc w. induction corps as [|c corps IH]; intros acc w Hok; simpl.
  - by rewrite app_nil_r.
  - unfold mbind, M_bind. rewrite execute_ok by (apply Hok; left).
    rewrite IH by (intros; apply Hok; by right).
    by rewrite <- app_assoc.
Qed.

(** C1. Provided the database accepts the reset query,
    [_get_last_ar_dates_for_reset] returns one dict per affected
    corporation, and the dict of corporation [c] holds, for the rows the
    cursor returned for [c]: under ["event_date"] the latest event
    timestamp; under ["ar_date"] the latest non-null period-end date and
    under ["ar_filed_date"] the event timestamp of the row that carries it;
    under ["agm_date"], independently, the latest non-null AGM date. In
    each case the deciding row is the first one, in cursor order, that
    carries the greatest value ([first_latest]): the comparisons are strict,
    so a later row with an equal value does not replace it. A key whose
    column is NULL in every row (or, for ["event_date"], when there is no
    row) is absent from the dict. *)
Theorem get_last_ar_dates_for_reset_latest event_info event_ids w :
  (∀ c, fault (SelectDates event_ids c) = None) →
  ∃ ds w' corps,
    _get_last_ar_dates_for_reset fault fetch_dates event_info event_ids w
      = (inr ds, w') ∧
    NoDup corps ∧
    (∀ c, c ∈ corps ↔ c ∈ ei_corp_num <$> event_info) ∧
    Forall2 (λ c d, latest_dates c (fetch_dates event_ids c) d) corps ds.
Proof.
  intros Hok. unfold _get_last_ar_dates_for_reset.
  rewrite dates_loop_ok by (intros; apply Hok).
  destruct (events_by_corp_num_keys event_info) as [Hnd Hin].
  eexists _, _, _. split_and!; [reflexivity|exact Hnd|exact Hin|].
  simpl. apply Forall2_fmap_r, Forall_Forall2_diag, Forall_forall.
  intros c _. apply walk_latest_dates.
Qed.

End Reset.

Example walk_tie_rows :
  let dates := walk "CP0000001" tie_rows in
  dates !! "corp_num" = Some (Str "CP0000001") ∧
  dates !! "event_date" = Some (Datetime 50) ∧
  dates !! "ar_date" = Some (Datetime 20) ∧
  dates !! "ar_filed_date" = Some (Datetime 50) ∧
  dates !! "agm_date" = Some (Datetime 15).
Proof. vm_compute. by split_and!. Qed.

Lemma get_last_ar_dates_for_reset_latest_witness :
  ∃ ds w' corps,
    _get_last_ar_dates_for_reset (λ _, None) (λ _ _, tie_rows)
      [ {| ei_corp_num := "CP0000001"; ei_event_id := 7 |} ] [7%Z]
      {| corp_state := []; corporation := []; issued := []; logged := [] |}
      = (inr ds, w') ∧
    NoDup corps ∧
    (∀ c, c ∈ corps ↔
          c ∈ ei_corp_num <$> [ {| ei_corp_num := "CP0000001"; ei_event_id := 7 |} ]) ∧
    Forall2 (λ c d, latest_dates c tie_rows d) corps ds.
Proof.
  apply (get_last_ar_dates_for_reset_latest (λ _, None) (λ _ _, tie_rows)).
  reflexivity.
Defined.

(** ** [reset_corporations] *)

(** When every key was recovered, the UPDATE carries the recovered
    values. *)
Lemma reset_item_writes fault item agm filed ev corp w :
  item !! "agm_date" = Some (Datetime agm) →
  item !! "ar_filed_date" = Some filed →
  item !! "event_date" = Some ev →
  item !! "corp_num" = Some corp →
  fault (UpdateCorporation filed (Datetime agm) ev corp) = None →
  reset_item fault item w =
    (inr tt, with_issued (UpdateCorporation filed (Datetime agm) ev corp)
               (with_corporation
                  (reset_row filed (Datetime agm) ev corp <$> corporation w) w)).
Proof.
  intros Ha Hf He Hc Hok.
  unfold reset_item, try_except, mbind, M_bind, getitem.
  rewrite Ha, Hf, He, Hc. simpl.
  by rewrite execute_ok.
Qed.

(** No remaining filing of the corporation has an AGM date: the walk
    leaves ["agm_date"] out of the dict and [item['agm_date']] raises. *)
Lemma reset_item_missing_agm_date fault item corp w :
  item !! "agm_date" = None →
  item !! "corp_num" = Some corp →
  reset_item fault item w =
    (inl (KeyError "agm_date"), with_logged (LogResetCorporationFailed corp) w).
Proof.
  intros Ha Hc. unfold reset_item, try_except, mbind, M_bind, getitem.
  rewrite Ha. simpl. by rewrite Hc.
Qed.

(** C2. Undoing event 7 of CP0000001, whose only remaining filing is an
    annual report without an AGM date: [reset_corporations] raises
    [KeyError('agm_date')] after logging the failure, and the CORPORATION
    row keeps its stale values; no fallback to the recovered AR date takes
    place. *)
Theorem reset_corporations_raises_without_agm_date :
  reset_corporations no_fault (λ _ _, ar_without_agm)
    [ {| ei_corp_num := "CP0000001"; ei_event_id := 7 |} ] [7%Z] stale_corporation
  = (inl (KeyError "agm_date"),
     {| corp_state := [];
        corporation := corporation stale_corporation;
        issued := [SelectDates [7%Z] "CP0000001"];
        logged := [LogResetCorporationFailed (Str "CP0000001")] |}).
Proof. by vm_compute. Qed.

(** ** [update_corp_state] *)

Section ListFacts.

Context {A : Type} (P : A → Prop) `{!∀ x, Decision (P x)}.

Lemma filter_nil_Forall (l : list A) : filter P l = [] → Forall (λ y, ¬ P y) l.
Proof.
  intros Hnil. apply Forall_forall. intros x Hx HP.
  by apply (filter_nil_not_elem_of P l x).
Qed.

Lemma Forall_not_filter_nil (l : list A) : Forall (λ y, ¬ P y) l → filter P l = [].
Proof.
  induction 1 as [|x l Hx _ IH]; [done|]. by rewrite filter_cons_False.
Qed.

Lemma filter_singleton_split (l : list A) (x : A) :
  filter P l = [x] →
  ∃ pre post, l = pre ++ x :: post ∧ P x ∧
              Forall (λ y, ¬ P y) pre ∧ Forall (λ y, ¬ P y) post.
Proof.
  induction l as [|a l IH]; [done|]. rewrite filter_cons.
  destruct (decide (P a)) as [Ha|Ha]; intros Hf.
  - injection Hf as -> Hnil. exists [], l. split_and!; [done|done|constructor|].
    by apply filter_nil_Forall.
  - destruct (IH Hf) as (pre & post & -> & Hx & Hpre & Hpost).
    exists (a :: pre), post. split_and!; [done|done| |done]. by constructor.
Qed.

End ListFacts.

Lemma end_row_active event_id corp_num r :
  is_active corp_num r → end_row event_id corp_num r = ended_by event_id r.
Proof. intros H. unfold end_row. by rewrite bool_decide_eq_true_2. Qed.

Lemma end_row_inactive event_id corp_num r :
  ¬ is_active corp_num r → end_row event_id corp_num r = r.
Proof. intros H. unfold end_row. by rewrite bool_decide_eq_false_2. Qed.

Lemma end_row_inactive_all event_id corp_num l :
  Forall (λ r, ¬ is_active corp_num r) l → end_row event_id corp_num <$> l = l.
Proof.
  induction 1 as [|r l Hr _ IH]; [done|].
  rewrite fmap_cons, IH. by rewrite end_row_inactive.
Qed.

Lemma end_row_corp_num event_id corp_num r :
  cs_corp_num (end_row event_id corp_num r) = cs_corp_num r.
Proof. unfold end_row. by case_bool_decide. Qed.

Lemma end_row_not_active event_id corp_num r :
  ¬ is_active corp_num (end_row event_id corp_num r).
Proof.
  unfold end_row. case_bool_decide as H; [|done]. by intros [_ ?].
Qed.

Lemma end_row_other event_id corp_num c r :
  c ≠ corp_num → cs_corp_num r = c → end_row event_id corp_num r = r.
Proof. intros Hne Hc. apply end_row_inactive. intros [? _]. congruence. Qed.

Lemma end_row_filter_other event_id corp_num c (l : list CorpState) :
  c ≠ corp_num →
  filter (λ r, cs_corp_num r = c) (end_row event_id corp_num <$> l)
  = filter (λ r, cs_corp_num r = c) l.
Proof.
  intros Hne. induction l as [|r l IH]; [done|].
  rewrite fmap_cons, !filter_cons, end_row_corp_num, IH.
  case_decide as Hc; [|done]. f_equal. by apply (end_row_other _ _ c).
Qed.

(** A call that completes has run both statements. *)
Lemma update_corp_state_inv fault event_id corp_num state w w' :
  update_corp_state fault event_id corp_num state w = (inr tt, w') →
  corp_state w' =
    (end_row event_id corp_num <$> corp_state w)
      ++ [started_by event_id corp_num state].
Proof.
  unfold update_corp_state, try_except, mbind, M_bind, execute, log_error, raise.
  destruct (fault (EndCorpState _ _)); simpl; [done|].
  destruct (fault (InsertCorpState _ _ _)); simpl; [done|].
  by intros [= <-].
Qed.

Lemma update_corp_state_ok fault event_id corp_num state w :
  fault (EndCorpState event_id corp_num) = None →
  fault (InsertCorpState corp_num event_id state) = None →
  ∃ w', update_corp_state fault event_id corp_num state w = (inr tt, w').
Proof.
  intros H1 H2.
  unfold update_corp_state, try_except, mbind, M_bind, execute.
  rewrite H1. simpl. rewrite H2. by eexists.
Qed.

(** C3. If the CORP_STATE rows of [corp_num] contain exactly one active
    row [old] before [update_corp_state event_id corp_num state], then
    after the call has completed they again contain exactly one active
    row: [old] is still in its place, now ended by [event_id], one new row
    started by [event_id] with the new state code was added and is the
    active one, and the rows of every other corporation are what they
    were. *)
Theorem update_corp_state_one_active fault event_id corp_num state w w' old :
  filter (is_active corp_num) (corp_state w) = [old] →
  update_corp_state fault event_id corp_num state w = (inr tt, w') →
  filter (is_active corp_num) (corp_state w')
    = [started_by event_id corp_num state] ∧
  (∃ pre post,
      corp_state w = pre ++ old :: post ∧
      corp_state w' =
        pre ++ ended_by event_id old :: post
          ++ [started_by event_id corp_num state]) ∧
  (∀ c, c ≠ corp_num →
        filter (λ r, cs_corp_num r = c) (corp_state w')
        = filter (λ r, cs_corp_num r = c) (corp_state w)).
Proof.
  intros Hone Hrun. apply update_corp_state_inv in Hrun. rewrite Hrun.
  destruct (filter_singleton_split _ _ _ Hone)
    as (pre & post & Hw & Hold & Hpre & Hpost).
  split_and!.
  - rewrite filter_app. rewrite Forall_not_filter_nil.
    + rewrite filter_cons_True; [done|]. by split.
    + apply Forall_fmap, Forall_forall. intros r _. apply end_row_not_active.
  - exists pre, post. split; [done|]. rewrite Hw.
    rewrite fmap_app, fmap_cons, !end_row_inactive_all by done.
    rewrite end_row_active by done. by rewrite <- app_assoc.
  - intros c Hne. rewrite filter_app.
    rewrite filter_cons_False by (simpl; congruence).
    rewrite filter_nil, app_nil_r. by apply end_row_filter_other.
Qed.

Lemma update_corp_state_one_active_witness :
  let old := {| cs_corp_num := "CP0000001"; start_event_id := 3;
                end_event_id := None; state_typ_cd := "HIS" |} in
  let w' := (update_corp_state no_fault 5 "CP0000001" "ACT" one_active_world).2 in
  filter (is_active "CP0000001") (corp_state w')
    = [started_by 5 "CP0000001" "ACT"] ∧
  (∃ pre post,
      corp_state one_active_world = pre ++ old :: post ∧
      corp_state w' =
        pre ++ ended_by 5 old :: post ++ [started_by 5 "CP0000001" "ACT"]) ∧
  (∀ c, c ≠ "CP0000001" →
        filter (λ r, cs_corp_num r = c) (corp_state w')
        = filter (λ r, cs_corp_num r = c) (corp_state one_active_world)).
Proof.
  apply (update_corp_state_one_active no_fault 5 "CP0000001" "ACT"
           one_active_world); reflexivity.
Defined.

(** ** [reset_corp_states] *)

Lemma reset_corp_states_inv fault event_ids w w' :
  reset_corp_states fault event_ids w = (inr tt, w') →
  corp_state w' =
    match event_ids with
    | [] => corp_state w
    | _ => reopen_row event_ids
             <$> filter (λ r, start_event_id r ∉ event_ids) (corp_state w)
    end.
Proof.
  unfold reset_corp_states.
  destruct event_ids as [|e ids]; [by intros [= <-]|].
  rewrite bool_decide_eq_false_2 by (simpl; lia).
  unfold try_except, mbind, M_bind, execute, log_error, raise.
  destruct (fault (DeleteCorpState _)); simpl; [done|].
  destruct (fault (ReopenCorpState _)); simpl; [done|].
  by intros [= <-].
Qed.

Lemma reset_corp_states_ok fault event_ids w :
  fault (DeleteCorpState event_ids) = None →
  fault (ReopenCorpState event_ids) = None →
  ∃ w', reset_corp_states fault event_ids w = (inr tt, w').
Proof.
  intros H1 H2. unfold reset_corp_states. case_bool_decide; [by eexists|].
  unfold try_except, mbind, M_bind, execute.
  rewrite H1. simpl. rewrite H2. by eexists.
Qed.

Lemma reopen_row_unmentioned event_ids r :
  (∀ e, e ∈ event_ids → ¬ mentions e r) → reopen_row event_ids r = r.
Proof.
  intros H. unfold reopen_row. destruct (end_event_id r) as [e|] eqn:He; [|done].
  case_bool_decide as Hin; [|done]. destruct (H e Hin). by right.
Qed.

Lemma reset_unmentioned event_ids (t : list CorpState) :
  (∀ r e, r ∈ t → e ∈ event_ids → ¬ mentions e r) →
  reopen_row event_ids <$> filter (λ r, start_event_id r ∉ event_ids) t = t.
Proof.
  induction t as [|r t IH]; intros H; [done|].
  rewrite filter_cons_True.
  - rewrite fmap_cons, IH by (intros ? ? ?; apply H; by right).
    rewrite reopen_row_unmentioned; [done|]. intros e He. apply H; [by left|done].
  - intros Hin. apply (H r (start_event_id r)); [by left|done|by left].
Qed.

(** Ending a row by a fresh event id and reopening the rows ended by that
    id gives the row back. *)
Lemma reopen_end_row event_id corp_num r :
  ¬ mentions event_id r →
  reopen_row [event_id] (end_row event_id corp_num r) = r.
Proof.
  intros Hm. unfold end_row. case_bool_decide as Ha.
  - destruct Ha as [_ Ha]. unfold reopen_row; simpl.
    rewrite bool_decide_eq_true_2 by (by left).
    destruct r; simpl in *. by rewrite Ha.
  - apply reopen_row_unmentioned. intros e He.
    by apply list_elem_of_singleton in He as ->.
Qed.

Lemma end_row_start event_id corp_num r :
  start_event_id (end_row event_id corp_num r) = start_event_id r.
Proof. unfold end_row. by case_bool_decide. Qed.

Lemma reset_update_fresh event_id corp_num state (t : list CorpState) :
  (∀ r, r ∈ t → ¬ mentions event_id r) →
  reopen_row [event_id]
    <$> filter (λ r, start_event_id r ∉ [event_id])
          ((end_row event_id corp_num <$> t) ++ [started_by event_id corp_num state])
  = t.
Proof.
  intros H. rewrite filter_app.
  rewrite (filter_cons_False _ (started_by _ _ _))
    by (intros Hn; apply Hn; simpl; by left).
  rewrite filter_nil, app_nil_r.
  induction t as [|r t IH]; [done|].
  rewrite fmap_cons, filter_cons_True.
  - rewrite fmap_cons, IH by (intros; apply H; by right).
    rewrite reopen_end_row; [done|]. apply H. by left.
  - rewrite end_row_start. intros Hin. apply list_elem_of_singleton in Hin.
    apply (H r); [by left|by left].
Qed.

(** C4, as the code has it. [reset_corp_states] called with event ids that
    no CORP_STATE row mentions leaves the table as it is; and when no row
    of the prior table mentions [event_id], [reset_corp_states [event_id]]
    after [update_corp_state event_id ..] gives the prior table back: the
    row the update created is deleted and the row it ended is active
    again. *)
Theorem reset_corp_states_reverses_update fault :
  (∀ event_ids w w',
      (∀ r e, r ∈ corp_state w → e ∈ event_ids → ¬ mentions e r) →
      reset_corp_states fault event_ids w = (inr tt, w') →
      corp_state w' = corp_state w) ∧
  (∀ event_id corp_num state w w1 w2,
      (∀ r, r ∈ corp_state w → ¬ mentions event_id r) →
      update_corp_state fault event_id corp_num state w = (inr tt, w1) →
      reset_corp_states fault [event_id] w1 = (inr tt, w2) →
      corp_state w2 = corp_state w).
Proof.
  split.
  - intros event_ids w w' H Hrun. apply reset_corp_states_inv in Hrun.
    rewrite Hrun. destruct event_ids; [done|]. by apply reset_unmentioned.
  - intros event_id corp_num state w w1 w2 H Hup Hre.
    apply update_corp_state_inv in Hup. apply reset_corp_states_inv in Hre.
    rewrite Hre, Hup. by apply reset_update_fresh.
Qed.

Lemma reset_corp_states_reverses_update_witness :
  corp_state (reset_corp_states no_fault [8%Z; 9%Z] one_active_world).2
    = corp_state one_active_world ∧
  corp_state
    (reset_corp_states no_fault [5%Z]
       (update_corp_state no_fault 5 "CP0000001" "ACT" one_active_world).2).2
    = corp_state one_active_world.
Proof.
  split.
  - apply (proj1 (reset_corp_states_reverses_update no_fault) [8%Z; 9%Z]
             one_active_world); [|reflexivity].
    intros r e Hr He. vm_compute in Hr.
    assert (e = 8 ∨ e = 9)%Z as Hcases.
    { apply elem_of_cons in He as [->|He]; [by left|].
      apply list_elem_of_singleton in He as ->. by right. }
    intros [Hm|Hm];
      repeat (apply elem_of_cons in Hr as [->|Hr]);
      try (by apply elem_of_nil in Hr);
      simpl in Hm; destruct Hcases; subst; discriminate.
  - apply (proj2 (reset_corp_states_reverses_update no_fault) 5%Z "CP0000001"
             "ACT" one_active_world
             (update_corp_state no_fault 5 "CP0000001" "ACT" one_active_world).2);
      [|reflexivity|reflexivity].
    intros r Hr [Hm|Hm];
      repeat (apply elem_of_cons in Hr as [->|Hr]);
      try (by apply elem_of_nil in Hr); simpl in Hm; discriminate.
Defined.

(** C4 as stated fails on a prior table that already mentions the event
    id: the reset then also deletes the row that the earlier transition
    created, and the prior table does not come back. *)
Lemma reset_corp_states_reused_event_id :
  ∃ w1 w2,
    update_corp_state no_fault 5 "CP0000001" "ACT" after_first_transition
      = (inr tt, w1) ∧
    reset_corp_states no_fault [5%Z] w1 = (inr tt, w2) ∧
    corp_state after_first_transition =
      [ {| cs_corp_num := "CP0000001"; start_event_id := 1;
           end_event_id := Some 5%Z; state_typ_cd := "ACT" |};
        {| cs_corp_num := "CP0000001"; start_event_id := 5;
           end_event_id := None; state_typ_cd := "HIS" |} ] ∧
    corp_state w2 =
      [ {| cs_corp_num := "CP0000001"; start_event_id := 1;
           end_event_id := None; state_typ_cd := "ACT" |} ] ∧
    corp_state w2 ≠ corp_state after_first_transition.
Proof.
  eexists _, _. split_and!; [reflexivity|reflexivity|reflexivity|reflexivity|].
  by vm_compute.
Qed.

(** ** [find_by_identifier]: the stages of the resolver *)

Section Resolver.

Variable fault : statement → option exn.
Variable corp_join : list corp_row.
Variable event_table : list event_row.
Variable other_statement : string → value.
Variable convert_to_json_date : value → value.
Variable convert_to_json_datetime : value → value.

Ltac run_monad :=
  repeat (unfold mbind, M_bind, mret, M_ret, raise; simpl).

Lemma set_jurisdiction_ok (d : gmap string value) ty jur desc w :
  d !! "type" = Some ty →
  d !! "can_jur_typ_cd" = Some jur →
  d !! "othr_juris_desc" = Some desc →
  set_jurisdiction d w =
    (inr (<["jurisdiction" :=
             if bool_decide (ty = Str "XCP")
             then if bool_decide (jur = Str "OT") then desc else jur
             else Str "BC"]> d), w).
Proof.
  intros H1 H2 H3. unfold set_jurisdiction, getitem. rewrite H1, H2, H3.
  run_monad. repeat case_bool_decide; done.
Qed.

Lemma set_name_ok (d : gmap string value) an w :
  d !! "assumed_name" = Some an →
  set_name d w = (inr (if truthy an then <["legal_name" := an]> d else d), w).
Proof.
  intros H. unfold set_name, getitem. rewrite H. run_monad.
  by destruct (truthy an).
Qed.

Lemma set_status_ok (d : gmap string value) st filed agm w :
  d !! "state" = Some st →
  d !! "last_ar_filed_date" = Some filed →
  d !! "last_agm_date" = Some agm →
  set_status d w = (inr (<["status" := status_of st filed agm]> d), w).
Proof.
  intros H1 H2 H3. unfold set_status, and_then, getitem. rewrite H1, H2, H3.
  unfold status_of, gt. run_monad.
  destruct (bool_decide (st = Str "Active")); [|by destruct filed, agm].
  destruct filed; try done; destruct agm; try done; simpl.
  by case_bool_decide.
Qed.

Lemma to_json_format_ok (d : gmap string value) fd agm lar llt bn cs ln ty w :
  d !! "founding_date" = Some fd →
  d !! "last_agm_date" = Some agm →
  d !! "last_ar_date" = Some lar →
  d !! "last_ledger_timestamp" = Some llt →
  d !! "business_number" = Some bn →
  d !! "corp_state" = Some cs →
  d !! "legal_name" = Some ln →
  d !! "type" = Some ty →
  to_json_format convert_to_json_date convert_to_json_datetime d w =
    (inr (<["legalType" := ty]>
            (<["legalName" := ln]>
               (<["corpState" := cs]>
                  (<["businessNumber" := bn]>
                     (<["lastLedgerTimestamp" := convert_to_json_datetime llt]>
                        (<["lastArDate" :=
                            if truthy lar then convert_to_json_date lar
                            else convert_to_json_date agm]>
                           (<["lastAgmDate" := convert_to_json_date agm]>
                              (<["foundingDate" := convert_to_json_datetime fd]>
                                 d)))))))), w).
Proof.
  intros H1 H2 H3 H4 H5 H6 H7 H8. unfold to_json_format, getitem.
  destruct (truthy lar) eqn:Hl;
    repeat (progress
              (repeat first [ rewrite lookup_insert_eq
                            | rewrite lookup_insert_ne by done ];
               rewrite ?H1, ?H2, ?H3, ?H4, ?H5, ?H6, ?H7, ?H8, ?Hl; run_monad));
    done.
Qed.

Lemma lookup_delete_all keys d k :
  k ∉ keys → delete_all keys d !! k = d !! k.
Proof.
  unfold delete_all. revert d. induction keys as [|k' keys IH]; intros d Hk; [done|].
  apply not_elem_of_cons in Hk as [Hne Hk]. simpl.
  rewrite IH by done. by rewrite lookup_delete_ne.
Qed.

Lemma del_all_ok keys d w :
  NoDup keys → (∀ k, k ∈ keys → is_Some (d !! k)) →
  del_all keys d w = (inr (delete_all keys d), w).
Proof.
  unfold delete_all. revert d.
  induction keys as [|k keys IH]; intros d Hnd Hin; [done|].
  apply NoDup_cons in Hnd as [Hk Hnd]. simpl. unfold delitem.
  destruct (Hin k) as [v Hv]; [by left|]. rewrite Hv. run_monad.
  apply IH; [done|]. intros k' Hk'.
  rewrite lookup_delete_ne by (intros ->; done). apply Hin. by right.
Qed.

Lemma lookup_delete_all_in keys d k :
  k ∈ keys → delete_all keys d !! k = None.
Proof.
  unfold delete_all. revert d. induction keys as [|k' keys IH]; intros d Hk.
  - by apply elem_of_nil in Hk.
  - simpl. destruct (decide (k ∈ keys)) as [Hin|Hnin]; [by apply IH|].
    apply elem_of_cons in Hk as [->|Hk]; [|done].
    fold (delete_all keys (delete k' d)).
    rewrite lookup_delete_all by done. apply lookup_delete_eq.
Qed.

Lemma removed_fields_NoDup : NoDup removed_fields.
Proof. apply (bool_decide_unpack (NoDup removed_fields)). by vm_compute. Qed.

Ltac lookup_chain :=
  repeat first [ rewrite lookup_insert_eq | rewrite lookup_insert_ne by done ].

Ltac not_removed :=
  unfold removed_fields; rewrite !not_elem_of_cons;
  split_and!; [done .. | apply not_elem_of_nil].

(** The dict of a row with the last ledger timestamp added. *)
Lemma row_dict_lookup row llt :
  let d := <["last_ledger_timestamp" := llt]> (row_dict row) in
  d !! "identifier" = Some (identifier row) ∧
  d !! "corp_frozen_typ_cd" = Some (corp_frozen_typ_cd row) ∧
  d !! "type" = Some (type row) ∧
  d !! "last_ar_date" = Some (last_ar_date row) ∧
  d !! "last_ar_filed_date" = Some (last_ar_filed_date row) ∧
  d !! "last_agm_date" = Some (r_last_agm_date row) ∧
  d !! "state" = Some (state row) ∧
  d !! "corp_state" = Some (r_corp_state row) ∧
  d !! "legal_name" = Some (legal_name row) ∧
  d !! "assumed_name" = Some (assumed_name row) ∧
  d !! "founding_date" = Some (founding_date row) ∧
  d !! "business_number" = Some (business_number row) ∧
  d !! "can_jur_typ_cd" = Some (can_jur_typ_cd row) ∧
  d !! "othr_juris_desc" = Some (othr_juris_desc row) ∧
  d !! "last_ledger_timestamp" = Some llt.
Proof. by vm_compute. Qed.

(** Once the last-ledger statement is accepted, the rest of the [try]
    block raises nothing; the status and the jurisdiction it stores
    survive the renaming and the removal of fields. *)
Lemma resolve_ok ident row w :
  fault (SelectLastLedger ident) = None →
  ∃ b,
    resolve fault event_table other_statement convert_to_json_date convert_to_json_datetime
      ident row w = (inr b, with_issued (SelectLastLedger ident) w) ∧
    b !! "identifier" = Some (identifier row) ∧
    b !! "status" =
      Some (status_of (state row) (last_ar_filed_date row) (r_last_agm_date row)) ∧
    b !! "jurisdiction" = Some (jurisdiction_of row) ∧
    b !! "state" = None.
Proof.
  intros Hok. unfold resolve.
  unfold mbind at 1. unfold M_bind at 1. rewrite execute_ok by done.
  change (run (SelectLastLedger ident) w) with w.
  generalize (with_issued (SelectLastLedger ident) w). clear w. intros w.
  destruct (row_dict_lookup row (select_last_ledger event_table other_statement ident))
    as (Hid & Hfz & Hty & Hlar & Hfiled & Hagm & Hst & Hcs & Hln & Han & Hfd
        & Hbn & Hjur & Hdesc & Hllt).
  generalize dependent (<["last_ledger_timestamp" :=
                           select_last_ledger event_table other_statement ident]> (row_dict row)).
  intros d Hid Hfz Hty Hlar Hfiled Hagm Hst Hcs Hln Han Hfd Hbn Hjur Hdesc Hllt.
  unfold mbind, M_bind.
  rewrite (set_jurisdiction_ok d _ _ _ w Hty Hjur Hdesc).
  fold (jurisdiction_of row).
  erewrite set_name_ok by (rewrite lookup_insert_ne by done; exact Han).
  destruct (truthy (assumed_name row));
    (erewrite set_status_ok by (lookup_chain; eassumption));
    (erewrite to_json_format_ok
       by (lookup_chain; first [eassumption|reflexivity]));
    (rewrite del_all_ok;
     [ eexists; split; [reflexivity|];
       split_and!; rewrite lookup_insert_ne by done;
       [ rewrite lookup_delete_all by not_removed; lookup_chain; done ..
       | apply lookup_delete_all_in; unfold removed_fields;
         rewrite !elem_of_cons; tauto ]
     | apply removed_fields_NoDup
     | intros k Hk; unfold removed_fields in Hk;
       repeat (apply elem_of_cons in Hk as [->|Hk]);
       [ lookup_chain; eauto .. | by apply elem_of_nil in Hk ] ]).
Qed.

Lemma resolve_fault ident row e w :
  fault (SelectLastLedger ident) = Some e →
  resolve fault event_table other_statement convert_to_json_date convert_to_json_datetime
    ident row w = (inl e, with_issued (SelectLastLedger ident) w).
Proof.
  intros H. unfold resolve. unfold mbind at 1. unfold M_bind at 1.
  by rewrite (execute_fault _ _ e).
Qed.

(** ** [find_by_identifier]: the query *)

Lemma insert_row_perm r l : insert_row r l ≡ₚ r :: l.
Proof.
  induction l as [|x l IH]; simpl; [done|].
  destruct (sorts_before x r); [|done]. rewrite IH. apply Permutation_swap.
Qed.

Lemma order_by_last_ar_date_perm l : order_by_last_ar_date l ≡ₚ l.
Proof.
  unfold order_by_last_ar_date. induction l as [|x l IH]; simpl; [done|].
  by rewrite insert_row_perm, IH.
Qed.

(** The row that [fetchone] returns satisfies the WHERE clause. *)
Lemma select_business_where ident row rest :
  select_business corp_join ident = row :: rest →
  row ∈ corp_join ∧ type row = Str "CP" ∧ identifier row = Str ident.
Proof.
  intros H.
  assert (row ∈ select_business corp_join ident) as Hin by (rewrite H; by left).
  unfold select_business in Hin. rewrite order_by_last_ar_date_perm in Hin.
  apply list_elem_of_filter in Hin as [Hw Hin]. split; [done|].
  unfold business_where in Hw. apply andb_prop in Hw as [H1 H2].
  by apply bool_decide_eq_true in H1, H2.
Qed.

Lemma select_business_none ident :
  (∀ row, row ∈ corp_join → ¬ (type row = Str "CP" ∧ identifier row = Str ident)) →
  select_business corp_join ident = [].
Proof.
  intros H. destruct (select_business corp_join ident) as [|row rest] eqn:Hs; [done|].
  apply select_business_where in Hs as (Hin & Hty & Hid). by destruct (H row Hin).
Qed.

(** ** [find_by_identifier]: the control flow *)

Lemma find_by_identifier_cases ident w :
  ident ≠ "" →
  find_by_identifier fault corp_join event_table other_statement convert_to_json_date
    convert_to_json_datetime (Some ident) w =
  match fault OpenCursor with
  | Some e => (inl e, with_logged (LogExn e) (with_issued OpenCursor w))
  | None =>
      let w1 := with_issued OpenCursor w in
      match fault (SelectBusiness ident) with
      | Some e =>
          (inl e, with_logged (LogExn e) (with_issued (SelectBusiness ident) w1))
      | None =>
          let w2 := with_issued (SelectBusiness ident) w1 in
          match select_business corp_join ident with
          | [] => (inl (BusinessNotFoundException ident), with_logged (LogExn (BusinessNotFoundException ident)) w2)
          | row :: _ =>
              match resolve fault event_table other_statement convert_to_json_date
                      convert_to_json_datetime ident row w2 with
              | (inl e, w3) => (inl e, with_logged (LogExn e) w3)
              | (inr b, w3) => (inr (Some b), w3)
              end
          end
      end
  end.
Proof.
  intros Hne. destruct ident as [|a ident]; [done|].
  unfold find_by_identifier, try_except, execute, log_error, raise.
  unfold mbind at 1. unfold M_bind at 1.
  destruct (fault OpenCursor); [done|].
  unfold mbind at 1. unfold M_bind at 1.
  destruct (fault (SelectBusiness _)); [done|]. simpl.
  destruct (select_business _ _) as [|row rest]; [done|].
  unfold mbind at 1. unfold M_bind at 1.
  by destruct (resolve _ _ _ _ _ _ _) as [[e|b] w3].
Qed.

(** A call that returns a business found its row and ran the last-ledger
    statement. *)
Lemma find_by_identifier_inv identifier w b w' :
  find_by_identifier fault corp_join event_table other_statement convert_to_json_date
    convert_to_json_datetime identifier w = (inr (Some b), w') →
  ∃ ident row rest w2,
    identifier = Some ident ∧ ident ≠ "" ∧
    select_business corp_join ident = row :: rest ∧
    fault (SelectLastLedger ident) = None ∧
    resolve fault event_table other_statement convert_to_json_date convert_to_json_datetime
      ident row w2 = (inr b, w').
Proof.
  destruct identifier as [ident|]; [|done].
  destruct (decide (ident = "")) as [->|Hne]; [done|].
  rewrite find_by_identifier_cases by done.
  destruct (fault OpenCursor); [done|].
  destruct (fault (SelectBusiness ident)); [done|]. simpl.
  destruct (select_business corp_join ident) as [|row rest] eqn:Hs; [done|].
  destruct (fault (SelectLastLedger ident)) as [e|] eqn:Hf.
  - by rewrite (resolve_fault _ _ e).
  - destruct (resolve _ _ _ _ _ _ _) as [[e|b'] w3] eqn:Hr; [done|].
    intros [= -> ->]. by eexists ident, row, rest, _.
Qed.

Lemma status_of_good_standing row :
  good_standing row →
  status_of (state row) (last_ar_filed_date row) (r_last_agm_date row)
  = Str "In Good Standing".
Proof.
  intros (Hst & filed & agm & Hf & Ha & Hlt). unfold status_of.
  rewrite Hst, Hf, Ha. by rewrite !bool_decide_eq_true_2.
Qed.

Lemma status_of_otherwise row :
  ¬ good_standing row →
  status_of (state row) (last_ar_filed_date row) (r_last_agm_date row)
  = state row.
Proof.
  intros Hn. unfold status_of.
  destruct (last_ar_filed_date row) as [| |filed|] eqn:Hf; try done.
  destruct (r_last_agm_date row) as [| |agm|] eqn:Ha; try done.
  case_bool_decide as Hst; [|done]. case_bool_decide as Hlt; [|done].
  destruct Hn. split; [done|]. by exists filed, agm.
Qed.

Lemma good_standing_or_not row : good_standing row ∨ ¬ good_standing row.
Proof.
  unfold good_standing.
  destruct (decide (state row = Str "Active")); [|right; by intros [? _]].
  destruct (last_ar_filed_date row) as [| |filed|];
    try (right; by intros (_ & ? & ? & ? & _)).
  destruct (r_last_agm_date row) as [| |agm|];
    try (right; by intros (_ & ? & ? & _ & ? & _)).
  destruct (decide (agm < filed)%Z).
  - left. split; [done|]. by exists filed, agm.
  - right. intros (_ & f & a & [= <-] & [= <-] & ?). done.
Qed.

Lemma status_of_cases row :
  (good_standing row ∧
   status_of (state row) (last_ar_filed_date row) (r_last_agm_date row)
   = Str "In Good Standing") ∨
  (¬ good_standing row ∧
   status_of (state row) (last_ar_filed_date row) (r_last_agm_date row)
   = state row).
Proof.
  destruct (good_standing_or_not row) as [Hg|Hg]; [left|right]; (split; [done|]).
  - by apply status_of_good_standing.
  - by apply status_of_otherwise.
Qed.

(** C5, as the code has it. When [find_by_identifier] returns a business,
    its ["status"] is "In Good Standing" if the row has state "Active" and
    datetimes for the last AR filed date and the last AGM date, the first
    strictly after the second; in every other case it is the row's state
    description. So the status is "In Good Standing" exactly when these
    conditions hold or the state description itself reads "In Good
    Standing". *)
Theorem find_by_identifier_status identifier w b w' :
  find_by_identifier fault corp_join event_table other_statement convert_to_json_date
    convert_to_json_datetime identifier w = (inr (Some b), w') →
  ∃ ident row,
    identifier = Some ident ∧
    head (select_business corp_join ident) = Some row ∧
    (good_standing row → b !! "status" = Some (Str "In Good Standing")) ∧
    (¬ good_standing row → b !! "status" = Some (state row)) ∧
    (b !! "status" = Some (Str "In Good Standing") ↔
     good_standing row ∨ state row = Str "In Good Standing").
Proof.
  intros H. apply find_by_identifier_inv in H
    as (ident & row & rest & w2 & -> & Hne & Hs & Hf & Hr).
  destruct (resolve_ok ident row w2 Hf) as (b' & Hr' & _ & Hstatus & _).
  rewrite Hr in Hr'. injection Hr' as <-.
  exists ident, row. rewrite Hs. split_and!; [done|done|..].
  - intros Hg. by rewrite Hstatus, status_of_good_standing.
  - intros Hg. by rewrite Hstatus, status_of_otherwise.
  - rewrite Hstatus.
    destruct (status_of_cases row) as [[Hg ->]|[Hg ->]].
    + split; [by left|done].
    + split; [intros [= Heq]; by right|].
      intros [Hg'|Hst]; [done|by rewrite Hst].
Qed.

Local Abbreviation find_business :=
  (find_by_identifier fault corp_join event_table other_statement convert_to_json_date
     convert_to_json_datetime).
Local Abbreviation resolve_row :=
  (resolve fault event_table other_statement convert_to_json_date convert_to_json_datetime).

(** C7, as the code has it. For a non-empty identifier that no row of the
    query matches, [find_by_identifier] raises and returns no business
    record, and what it raises is [BusinessNotFoundException] once the
    database has accepted the query. Whatever it raises was logged, once,
    and is the exception itself: the not-found failure or the error of the
    database call that failed (opening the cursor, the business query or
    the last-ledger query), not a translation of it. *)
Theorem find_by_identifier_failures ident w :
  ident ≠ "" →
  ((∀ row, row ∈ corp_join →
           ¬ (type row = Str "CP" ∧ identifier row = Str ident)) →
   (∃ e, (find_business (Some ident) w).1 = inl e) ∧
   (fault OpenCursor = None → fault (SelectBusiness ident) = None →
    (find_business (Some ident) w).1 = inl (BusinessNotFoundException ident))) ∧
  (∀ e, (find_business (Some ident) w).1 = inl e →
        logged (find_business (Some ident) w).2 = logged w ++ [LogExn e]) ∧
  (∀ e, fault OpenCursor = Some e →
        (find_business (Some ident) w).1 = inl e) ∧
  (∀ e, fault OpenCursor = None → fault (SelectBusiness ident) = Some e →
        (find_business (Some ident) w).1 = inl e) ∧
  (∀ e row rest,
      fault OpenCursor = None → fault (SelectBusiness ident) = None →
      select_business corp_join ident = row :: rest →
      fault (SelectLastLedger ident) = Some e →
      (find_business (Some ident) w).1 = inl e).
Proof.
  intros Hne. rewrite find_by_identifier_cases by done. split_and!.
  - intros Hnone. rewrite (select_business_none _ Hnone).
    destruct (fault OpenCursor); [split; [by eexists|done]|].
    destruct (fault (SelectBusiness ident)); simpl; (split; [by eexists|done]).
  - intros e. destruct (fault OpenCursor) as [e1|]; [by intros [= ->]|].
    destruct (fault (SelectBusiness ident)) as [e2|]; [by intros [= ->]|]. simpl.
    destruct (select_business corp_join ident) as [|row rest]; [by intros [= <-]|].
    destruct (fault (SelectLastLedger ident)) as [e3|] eqn:Hf.
    + rewrite (resolve_fault _ _ e3) by done. by intros [= ->].
    + destruct (resolve_ok ident row
                  (with_issued (SelectBusiness ident) (with_issued OpenCursor w)) Hf)
        as (b & -> & _). done.
  - by intros e ->.
  - by intros e -> ->.
  - intros e row rest -> -> Hs Hf. simpl. rewrite Hs.
    by rewrite (resolve_fault _ _ e).
Qed.

(** C9. The [try] block stores, for a row of type 'XCP', the other
    jurisdiction description when the jurisdiction code is 'OT' and the
    jurisdiction code otherwise, and 'BC' for a row of any other type.
    The row behind a business that [find_by_identifier] returns passed
    [where corp_typ_cd = 'CP'], so its jurisdiction is 'BC'. *)
Theorem find_by_identifier_jurisdiction :
  (∀ ident row w b w',
      resolve_row ident row w = (inr b, w') →
      (type row = Str "XCP" → can_jur_typ_cd row = Str "OT" →
       b !! "jurisdiction" = Some (othr_juris_desc row)) ∧
      (type row = Str "XCP" → can_jur_typ_cd row ≠ Str "OT" →
       b !! "jurisdiction" = Some (can_jur_typ_cd row)) ∧
      (type row ≠ Str "XCP" → b !! "jurisdiction" = Some (Str "BC"))) ∧
  (∀ identifier w b w',
      find_business identifier w = (inr (Some b), w') →
      ∃ ident row w2,
        identifier = Some ident ∧
        head (select_business corp_join ident) = Some row ∧
        resolve_row ident row w2 = (inr b, w') ∧
        type row = Str "CP" ∧
        b !! "jurisdiction" = Some (Str "BC")).
Proof.
  assert (∀ ident row w b w',
             resolve_row ident row w = (inr b, w') →
             b !! "jurisdiction" = Some (jurisdiction_of row)) as Hjur.
  { intros ident row w b w' Hr.
    destruct (fault (SelectLastLedger ident)) as [e|] eqn:Hf.
    - by rewrite (resolve_fault _ _ e) in Hr.
    - destruct (resolve_ok ident row w Hf) as (b' & Hr' & _ & _ & Hj & _).
      rewrite Hr in Hr'. by injection Hr' as <-. }
  split.
  - intros ident row w b w' Hr. rewrite (Hjur _ _ _ _ _ Hr).
    unfold jurisdiction_of. split_and!.
    + intros -> ->. done.
    + intros -> Hn. by rewrite bool_decide_eq_true_2, bool_decide_eq_false_2.
    + intros Hn. by rewrite bool_decide_eq_false_2.
  - intros identifier w b w' H. apply find_by_identifier_inv in H
      as (ident & row & rest & w2 & -> & Hne & Hs & Hf & Hr).
    destruct (select_business_where _ _ _ Hs) as (_ & Hty & _).
    exists ident, row, w2. rewrite Hs. split_and!; [done..|].
    rewrite (Hjur _ _ _ _ _ Hr). unfold jurisdiction_of. by rewrite Hty.
Qed.

(** C10. A missing or empty identifier: [find_by_identifier] returns
    [None] and leaves the world as it was, so no statement was issued,
    nothing was logged and nothing was raised. *)
Theorem find_by_identifier_falsy w :
  find_by_identifier fault corp_join event_table other_statement convert_to_json_date
    convert_to_json_datetime None w = (inr None, w) ∧
  find_by_identifier fault corp_join event_table other_statement convert_to_json_date
    convert_to_json_datetime (Some "") w = (inr None, w).
Proof. by split. Qed.

End Resolver.

(** ** The resolver on a small registry *)

Example coop_business_fields :
  coop_business !! "identifier" = Some (Str "CP0001965") ∧
  coop_business !! "status" = Some (Str "In Good Standing") ∧
  coop_business !! "jurisdiction" = Some (Str "BC") ∧
  coop_business !! "legalName" = Some (Str "Test Co-op") ∧
  coop_business !! "lastLedgerTimestamp" = Some (Datetime 320) ∧
  coop_business !! "cacheId" = Some (Int 0) ∧
  coop_business !! "state" = None ∧
  size coop_business = 12.
Proof. vm_compute. by split_and!. Qed.

Lemma found_coop_eq : found_coop = (inr (Some coop_business), found_coop.2).
Proof.
  assert (match found_coop.1 with inr (Some _) => true | _ => false end = true)
    as H by (by vm_compute).
  unfold coop_business. by destruct found_coop as [[e|[b|]] w].
Qed.

Lemma resolved_xpro_eq : resolved_xpro = (inr xpro_business, resolved_xpro.2).
Proof.
  assert (match resolved_xpro.1 with inr _ => true | _ => false end = true)
    as H by (by vm_compute).
  unfold xpro_business. by destruct resolved_xpro as [[e|b] w].
Qed.

Lemma find_by_identifier_status_witness :
  ∃ ident row,
    Some "CP0001965" = Some ident ∧
    head (select_business registry ident) = Some row ∧
    (good_standing row → coop_business !! "status" = Some (Str "In Good Standing")) ∧
    (¬ good_standing row → coop_business !! "status" = Some (state row)) ∧
    (coop_business !! "status" = Some (Str "In Good Standing") ↔
     good_standing row ∨ state row = Str "In Good Standing").
Proof.
  apply (find_by_identifier_status no_fault registry ledger unanswered id id
           (Some "CP0001965") empty_world coop_business found_coop.2).
  exact found_coop_eq.
Defined.

(** C5 as stated fails for a row whose state description is itself "In
    Good Standing": the status of the business is "In Good Standing"
    although the state is not "Active" and no date is present. *)
Lemma find_by_identifier_status_described :
  ∃ b,
    (find_by_identifier no_fault [described_as_standing] ledger unanswered id id
       (Some "CP0001965") empty_world).1 = inr (Some b) ∧
    head (select_business [described_as_standing] "CP0001965")
      = Some described_as_standing ∧
    b !! "status" = Some (Str "In Good Standing") ∧
    state described_as_standing ≠ Str "Active" ∧
    last_ar_filed_date described_as_standing = Null ∧
    r_last_agm_date described_as_standing = Null ∧
    ¬ good_standing described_as_standing.
Proof.
  exists described_business. split_and!.
  - assert (match found_described.1 with inr (Some _) => true | _ => false end = true)
      as H by (by vm_compute).
    change (found_described.1 = inr (Some described_business)).
    unfold described_business. by destruct found_described as [[e|[b|]] w].
  - reflexivity.
  - by vm_compute.
  - discriminate.
  - reflexivity.
  - reflexivity.
  - by intros [? _].
Qed.

(** C7 as stated fails for the empty identifier: no row matches it, and
    [find_by_identifier] returns [None] instead of raising. *)
Lemma find_by_identifier_empty_not_raised :
  select_business registry "" = [] ∧
  find_by_identifier no_fault registry ledger unanswered id id (Some "") empty_world
    = (inr None, empty_world).
Proof. by split. Qed.

Lemma find_by_identifier_failures_witness :
  (find_by_identifier no_fault registry ledger unanswered id id
     (Some "CP0000000") empty_world).1
  = inl (BusinessNotFoundException "CP0000000").
Proof.
  assert ("CP0000000" ≠ "") as Hne by done.
  destruct (find_by_identifier_failures no_fault registry ledger unanswered id id
              "CP0000000" empty_world Hne) as [Hnone _].
  apply Hnone; [|reflexivity|reflexivity].
  intros row Hrow [_ Hid]. apply list_elem_of_singleton in Hrow as ->.
  discriminate Hid.
Defined.

Lemma find_by_identifier_jurisdiction_witness :
  xpro_business !! "jurisdiction" = Some (Str "Yukon") ∧
  ∃ ident row w2,
    Some "CP0001965" = Some ident ∧
    head (select_business registry ident) = Some row ∧
    resolve no_fault ledger unanswered id id ident row w2 = (inr coop_business, found_coop.2) ∧
    type row = Str "CP" ∧
    coop_business !! "jurisdiction" = Some (Str "BC").
Proof.
  split.
  - apply (proj1 (find_by_identifier_jurisdiction no_fault registry ledger unanswered id id)
             "XCP0000001" xpro empty_world xpro_business resolved_xpro.2
             resolved_xpro_eq); reflexivity.
  - apply (proj2 (find_by_identifier_jurisdiction no_fault registry ledger unanswered id id)
             (Some "CP0001965") empty_world coop_business found_coop.2
             found_coop_eq).
Defined.

End ColinFacts.

(** * Facts about the validation pipeline *)

Module ValidationFacts.
Import Json Validation.

Section Validate.

Context {Business Error : Type}.
Variable validate_against_schema : json → option Error.
Variable annual_report_validate : Business → json → option Error.
Variable coa_validate : Business → json → option Error.
Variable cod_validate : Business → json → option Error.
Variable FILINGS : gmap string (gmap string string).

Local Abbreviation run :=
  (run_validator annual_report_validate coa_validate cod_validate).
Local Abbreviation loop :=
  (validate_keys annual_report_validate coa_validate cod_validate FILINGS).
Local Abbreviation errors :=
  (first_error annual_report_validate coa_validate cod_validate).
Local Abbreviation validate_filing :=
  (validate validate_against_schema annual_report_validate coa_validate
     cod_validate FILINGS).


Section Registry.

(** The three filing types the module validates are in the registry. *)
Variables ar coa cod : gmap string string.
Hypothesis registry_ar : FILINGS !! "annualReport" = Some ar.
Hypothesis registry_coa : FILINGS !! "changeOfAddress" = Some coa.
Hypothesis registry_cod : FILINGS !! "changeOfDirectors" = Some cod.

Local Abbreviation selected :=
  (dedicated FILINGS (ar !! "name") (coa !! "name") (cod !! "name")).

Lemma dispatch_dedicated k :
  registered FILINGS k = true → dispatch FILINGS k = inr (selected k).
Proof.
  intros Hk. unfold dispatch, dedicated, filing_name.
  rewrite registry_ar, registry_coa, registry_cod, Hk.
  by repeat case_bool_decide.
Qed.

Lemma dedicated_unregistered k : registered FILINGS k = false → selected k = None.
Proof. intros Hk. unfold dedicated. by rewrite Hk. Qed.

(** The loop runs the dedicated validators of the keys, in key order, up
    to the first error. *)
Lemma validate_keys_first_error business filing_json ks called :
  loop business filing_json ks None called =
    (inr (errors business filing_json (omap selected ks)).1,
     called ++ (errors business filing_json (omap selected ks)).2).
Proof.
  revert called. induction ks as [|k ks IH]; intros called; simpl.
  - by rewrite app_nil_r.
  - destruct (registered FILINGS k) eqn:Hk.
    + rewrite dispatch_dedicated by done.
      destruct (selected k) as [v|]; simpl.
      * destruct (run v business filing_json) as [e|]; [done|].
        rewrite IH. destruct (errors _ _ _) as [r t]; simpl.
        by rewrite <- app_assoc.
      * apply IH.
    + rewrite dedicated_unregistered by done. apply IH.
Qed.

End Registry.


(** The first error is an error of the first failing validator, and the
    validators before it found none. *)
Lemma first_error_spec business filing_json vs :
  match (errors business filing_json vs).1 with
  | Some e =>
      ∃ pre v post,
        vs = pre ++ v :: post ∧
        Forall (λ u, run u business filing_json = None) pre ∧
        run v business filing_json = Some e ∧
        (errors business filing_json vs).2 = pre ++ [v]
  | None =>
      Forall (λ u, run u business filing_json = None) vs ∧
      (errors business filing_json vs).2 = vs
  end.
Proof.
  induction vs as [|v vs IH]; simpl; [by split|].
  destruct (run v business filing_json) as [e|] eqn:Hv; simpl.
  - exists [], v, vs. by split_and!.
  - destruct (errors business filing_json vs) as [[e|] t]; simpl in *.
    + destruct IH as (pre & u & post & -> & Hpre & Hu & ->).
      exists (v :: pre), u, post. split_and!; [done| |done|done].
      by constructor.
    + destruct IH as [Hall ->]. split; [|done]. by constructor.
Qed.

End Validate.

(** ** The pipeline on a small registry *)

Example validate_three_filings :
  validate accept ar_passes coa_fails cod_fails sample_registry tt three_filings
  = (inr (Some "Directors"), [AnnualReport; ChangeOfDirectors]).
Proof. by vm_compute. Qed.


End ValidationFacts.

(** * Facts about filing submission *)

Module FilingsFacts.
Import Json Filings.

(** ** Assigning to a key of a dict *)

Lemma dict_get_set_eq k v d : dict_get k (dict_set k v d) = Some v.
Proof.
  induction d as [|[k' v'] d IH]; simpl.
  - by rewrite decide_True.
  - destruct (decide (k' = k)) as [->|Hne]; simpl.
    + by rewrite decide_True.
    + by rewrite decide_False.
Qed.

Lemma dict_get_set_ne k k' v d :
  k' ≠ k → dict_get k' (dict_set k v d) = dict_get k' d.
Proof.
  intros Hne. induction d as [|[k0 v0] d IH]; simpl.
  - by rewrite decide_False.
  - destruct (decide (k0 = k)) as [->|Hk]; simpl.
    + rewrite !decide_False by done. done.
    + destruct (decide (k0 = k')); [done|exact IH].
Qed.

Section Resource.

Variable authorized : string → bool.
Variable schema_validate : json → bool * list (list string * string).
Variable current_user : User.
Variable find_by_identifier : string → option Business.
Variable utcnow : Z.
Variable Filing_json : Filing → list (string * json).
Variable save_rejects : Filing → option (string * HTTPStatus).
Variable FILINGS : gmap string (gmap string string).
Variable token_auth_header : option string.
Variable payment_svc_url : string.
Variable requests_post : string → json → string → post_outcome.

Local Abbreviation save_filing :=
  (_save_filing find_by_identifier utcnow save_rejects).
Local Abbreviation create_invoice :=
  (_create_invoice save_rejects FILINGS token_auth_header payment_svc_url
     requests_post).
Local Abbreviation put_filing :=
  (put authorized schema_validate current_user find_by_identifier utcnow
     Filing_json save_rejects FILINGS token_auth_header payment_svc_url
     requests_post).

(** A filing that [save] hands back is in the table under its key. *)
Lemma save_persists filing saved w w' :
  save save_rejects filing w = (inr saved, w') →
  ∃ key, id saved = Some key ∧ filings w' !! key = Some saved ∧
         payment_token saved = payment_token filing.
Proof.
  unfold save. destruct (save_rejects filing) as [[error status]|]; [done|].
  intros [= <- <-]. eexists. split_and!; [done| |done].
  simpl. apply lookup_insert_eq.
Qed.

(** [_save_filing] returns a business and a filing only after the filing
    row was written; a newly created filing carries no payment token. *)
Lemma save_filing_persisted request identifier user filing_id w business filing w1 :
  save_filing request identifier user filing_id w
    = (inr (Some business, Some filing, None, None), w1) →
  ∃ key, id filing = Some key ∧ filings w1 !! key = Some filing ∧
         (method request ≠ PUT → payment_token filing = JNull).
Proof.
  unfold _save_filing.
  destruct (truthy (get_json request)); simpl; [|done].
  destruct (find_by_identifier identifier) as [b|]; [|done].
  case_bool_decide as Hm.
  - destruct (filing_id ≫= _) as [f|]; [|done].
    case_bool_decide; [|done].
    destruct (save _ _ _) as [[e|saved] w'] eqn:Hs; [by destruct e|].
    intros [= <- <- <-]. apply save_persists in Hs as (key & ? & ? & _).
    exists key. by split_and!.
  - destruct (save _ _ _) as [[e|saved] w'] eqn:Hs; [by destruct e|].
    intros [= <- <- <-]. apply save_persists in Hs as (key & ? & ? & Ht).
    exists key. by split_and!.
Qed.

(** A connection failure: [_create_invoice] logs it and answers
    "payment required"; the filing and the filings table are untouched. *)
Lemma create_invoice_connection_failure business filing payload token w :
  invoice_payload FILINGS business filing = inr payload →
  token_auth_header = Some token →
  requests_post payment_svc_url payload ("Bearer " +:+ token) = ConnectionFailed →
  create_invoice business filing w =
    (inr (filing, (Some (message "unable to create invoice for payment."),
                   Some PAYMENT_REQUIRED)),
     {| filings := filings w; next_id := next_id w;
        logged := logged w ++
                    [LogPaymentConnectionFailure (b_identifier business) (id filing)] |}).
Proof.
  intros Hp Ht Hc. unfold _create_invoice, mbind, M_bind, lift.
  rewrite Hp. simpl. rewrite Ht, Hc. done.
Qed.

(** C8. A submission that is not a draft, whose filing row [_save_filing]
    has written, and for which the call to the payment service fails with
    a connection error: [put] answers 402 (payment required) with a dict
    that has an ["errors"] entry, the list holding the message, and under
    every other key what the JSON of the saved filing has there; and the
    filings table is the one [_save_filing] left: the filing is in it
    under its key as it was saved, without a payment token when it was
    newly created. *)
Theorem put_payment_connection_failure
  identifier filing_id request w business filing w1 payload token :
  _put_basic_checks identifier filing_id request = None →
  authorized identifier = true →
  (_validate_filing_json schema_validate request).2 = OK →
  args request !! "only_validate" ≠ Some "true" →
  save_filing request identifier current_user filing_id w
    = (inr (Some business, Some filing, None, None), w1) →
  not_draft request = true →
  invoice_payload FILINGS business filing = inr payload →
  token_auth_header = Some token →
  requests_post payment_svc_url payload ("Bearer " +:+ token) = ConnectionFailed →
  ∃ reply w',
    put_filing identifier filing_id request w =
      (inr (JDict reply, PAYMENT_REQUIRED), w') ∧
    reply = dict_set "errors"
              (JList [message "unable to create invoice for payment."])
              (Filing_json filing) ∧
    dict_get "errors" reply =
      Some (JList [JDict [("message", JStr "unable to create invoice for payment.")]]) ∧
    (∀ k, k ≠ "errors" → dict_get k reply = dict_get k (Filing_json filing)) ∧
    status_code PAYMENT_REQUIRED = 402%Z ∧
    filings w' = filings w1 ∧
    ∃ key, id filing = Some key ∧ filings w' !! key = Some filing ∧
           (method request ≠ PUT → payment_token filing = JNull).
Proof.
  intros Hbasic Hauth Hvalid Honly Hsave Hdraft Hpayload Htoken Hpost.
  unfold put. rewrite Hbasic, Hauth. simpl.
  destruct (_validate_filing_json schema_validate request) as [msg code].
  simpl in Hvalid. subst code.
  rewrite bool_decide_eq_false_2 by (by intros ?).
  rewrite bool_decide_eq_false_2 by done. simpl.
  unfold mbind at 1. unfold M_bind at 1. rewrite Hsave, Hdraft.
  unfold mbind at 1. unfold M_bind at 1.
  rewrite (create_invoice_connection_failure _ _ _ _ _ Hpayload Htoken Hpost).
  eexists _, _. split_and!; [reflexivity|reflexivity| | |done|done|].
  - apply dict_get_set_eq.
  - intros k Hk. by apply dict_get_set_ne.
  - by apply save_filing_persisted in Hsave.
Qed.

End Resource.

(** ** A submission while the payment service is unreachable *)

Lemma after_save_eq :
  _save_filing registry_of 1000 (λ _, None) post_request "CP0001965"
    {| user_id := 3 |} None no_filings
  = (inr (Some coop, Some saved_filing, None, None), after_save).
Proof.
  unfold after_save.
  assert ((_save_filing registry_of 1000 (λ _, None) post_request "CP0001965"
             {| user_id := 3 |} None no_filings).1
          = inr (Some coop, Some saved_filing, None, None)) as H
    by (vm_compute; reflexivity).
  destruct (_save_filing _ _ _ _ _ _ _ _) as [r w]. simpl in H. by subst.
Qed.

Lemma put_payment_connection_failure_witness :
  ∃ reply w',
    put (λ _, true) (λ _, (true, [])) {| user_id := 3 |} registry_of 1000 as_json
      (λ _, None) sample_registry (Some "token") "https://pay" unreachable
      "CP0001965" None post_request no_filings =
      (inr (JDict reply, PAYMENT_REQUIRED), w') ∧
    reply = dict_set "errors"
              (JList [message "unable to create invoice for payment."])
              (as_json saved_filing) ∧
    dict_get "errors" reply =
      Some (JList [JDict [("message", JStr "unable to create invoice for payment.")]]) ∧
    (∀ k, k ≠ "errors" → dict_get k reply = dict_get k (as_json saved_filing)) ∧
    status_code PAYMENT_REQUIRED = 402%Z ∧
    filings w' = filings after_save ∧
    ∃ key, id saved_filing = Some key ∧ filings w' !! key = Some saved_filing ∧
           (method post_request ≠ PUT → payment_token saved_filing = JNull).
Proof.
  apply (put_payment_connection_failure (λ _, true) (λ _, (true, []))
           {| user_id := 3 |} registry_of 1000 as_json (λ _, None) sample_registry
           (Some "token") "https://pay" unreachable
           "CP0001965" None post_request no_filings coop saved_filing after_save
           sample_payload "token");
    first [ exact after_save_eq | reflexivity | done ].
Defined.

End FilingsFacts.

(** * Further facts about the COLIN adapter *)

Module ColinMore.
Import Colin ColinFacts.

(** ** Grouping keeps the smallest event id *)

Lemma assoc_get_set_eq k v d : assoc_get k (assoc_set k v d) = Some v.
Proof.
  induction d as [|[k' v'] d IH]; simpl.
  - by rewrite decide_True.
  - destruct (decide (k' = k)) as [->|Hne]; simpl.
    + by rewrite decide_True.
    + by rewrite decide_False.
Qed.

Lemma assoc_get_set_ne k k' v d :
  k ≠ k' → assoc_get k' (assoc_set k v d) = assoc_get k' d.
Proof.
  intros Hne. induction d as [|[k0 v0] d IH]; simpl.
  - by rewrite decide_False.
  - destruct (decide (k0 = k)) as [->|Hk]; simpl.
    + by rewrite !decide_False.
    + destruct (decide (k0 = k')); [done|apply IH].
Qed.

(** X1. [events_by_corp_num] has an entry exactly for the corporations of
    [event_info], and the entry of a corporation is the smallest event id
    that [event_info] lists for it. *)
Theorem events_by_corp_num_min event_info c :
  match assoc_get c (events_by_corp_num event_info) with
  | None => ∀ info, info ∈ event_info → ei_corp_num info ≠ c
  | Some e =>
      (∃ info, info ∈ event_info ∧ ei_corp_num info = c ∧ ei_event_id info = e) ∧
      (∀ info, info ∈ event_info → ei_corp_num info = c → (e ≤ ei_event_id info)%Z)
  end.
Proof.
  unfold events_by_corp_num.
  induction event_info as [|info l IH] using rev_ind; simpl.
  - intros info Hin. by apply elem_of_nil in Hin.
  - rewrite foldl_app. simpl. set (d := foldl group_event [] l) in *.
    unfold group_event.
    destruct (decide (ei_corp_num info = c)) as [Hc|Hc].
    + rewrite Hc. destruct (assoc_get c d) as [e|] eqn:He.
      * destruct IH as [(i0 & Hi0 & Hc0 & He0) Hmin].
        case_bool_decide as Hgt.
        -- rewrite assoc_get_set_eq. split.
           ++ exists info. split_and!; [|done|done].
              apply elem_of_app. right. by left.
           ++ intros i Hi Hci. apply elem_of_app in Hi as [Hi|Hi].
              ** specialize (Hmin i Hi Hci). lia.
              ** apply list_elem_of_singleton in Hi as ->. lia.
        -- rewrite He. split.
           ++ exists i0. split_and!; [|done|done]. apply elem_of_app. by left.
           ++ intros i Hi Hci. apply elem_of_app in Hi as [Hi|Hi]; [by apply Hmin|].
              apply list_elem_of_singleton in Hi as ->. lia.
      * rewrite assoc_get_set_eq. split.
        -- exists info. split_and!; [|done|done]. apply elem_of_app. right. by left.
        -- intros i Hi Hci. apply elem_of_app in Hi as [Hi|Hi].
           ++ by destruct (IH i Hi).
           ++ by apply list_elem_of_singleton in Hi as ->.
    + assert (assoc_get c
                (match assoc_get (ei_corp_num info) d with
                 | Some e =>
                     if bool_decide (e > ei_event_id info)%Z
                     then assoc_set (ei_corp_num info) (ei_event_id info) d else d
                 | None => assoc_set (ei_corp_num info) (ei_event_id info) d
                 end) = assoc_get c d) as ->.
      { destruct (assoc_get (ei_corp_num info) d); [case_bool_decide|];
          by rewrite ?assoc_get_set_ne. }
      destruct (assoc_get c d) as [e|].
      * destruct IH as [(i0 & Hi0 & Hc0 & He0) Hmin]. split.
        -- exists i0. split_and!; [|done|done]. apply elem_of_app. by left.
        -- intros i Hi Hci. apply elem_of_app in Hi as [Hi|Hi]; [by apply Hmin|].
           apply list_elem_of_singleton in Hi as ->. done.
      * intros i Hi. apply elem_of_app in Hi as [Hi|Hi]; [by apply IH|].
        by apply list_elem_of_singleton in Hi as ->.
Qed.

(** ** The walk and the order of the rows *)

Lemma first_latest_max f (rows : list date_row) r m :
  first_latest f rows r m →
  r ∈ rows ∧ f r = Some m ∧ ∀ x v, x ∈ rows → f x = Some v → (v ≤ m)%Z.
Proof.
  intros (pre & post & -> & Hr & Hpre & Hpost). split_and!; [|done|].
  - apply elem_of_app. right. by left.
  - intros x v Hx Hv. apply elem_of_app in Hx as [Hx|Hx].
    + specialize (Hpre _ _ Hx Hv). lia.
    + apply elem_of_cons in Hx as [->|Hx]; [|by eapply Hpost].
      rewrite Hr in Hv. injection Hv as <-. lia.
Qed.

(** The latest value does not depend on the order of the rows. *)
Lemma latest_value_perm f (rows rows' : list date_row) o o' :
  rows ≡ₚ rows' → latest f rows o → latest f rows' o' →
  (o ≫= f) = (o' ≫= f).
Proof.
  intros Hp Ho Ho'. destruct o as [r|], o' as [r'|]; simpl in *.
  - destruct Ho as [m Hm], Ho' as [m' Hm'].
    apply first_latest_max in Hm as (Hin & Hr & Hmax).
    apply first_latest_max in Hm' as (Hin' & Hr' & Hmax').
    rewrite Hr, Hr'. f_equal.
    assert (m' ≤ m)%Z by (apply (Hmax r'); [by rewrite Hp|done]).
    assert (m ≤ m')%Z by (apply (Hmax' r); [by rewrite <- Hp|done]).
    lia.
  - destruct Ho as [m Hm]. apply first_latest_max in Hm as (Hin & Hr & _).
    rewrite Hp in Hin. rewrite (Ho' _ Hin) in Hr. done.
  - destruct Ho' as [m Hm]. apply first_latest_max in Hm as (Hin & Hr & _).
    rewrite <- Hp in Hin. rewrite (Ho _ Hin) in Hr. done.
  - done.
Qed.

(** X2. The recovered event date, AR date and AGM date do not depend on
    the order in which the cursor returns the rows: any reordering of the
    rows gives the same three values (only ["ar_filed_date"] can depend on
    the order, among rows that tie on the period end). *)
Theorem walk_order_independent corp (rows rows' : list date_row) :
  rows ≡ₚ rows' →
  walk corp rows !! "event_date" = walk corp rows' !! "event_date" ∧
  walk corp rows !! "ar_date" = walk corp rows' !! "ar_date" ∧
  walk corp rows !! "agm_date" = walk corp rows' !! "agm_date".
Proof.
  intros Hp.
  destruct (walk_latest_dates corp rows)
    as (_ & (ot & Lt & Ht) & (oa & La & Ha & _) & (og & Lg & Hg)).
  destruct (walk_latest_dates corp rows')
    as (_ & (ot' & Lt' & Ht') & (oa' & La' & Ha' & _) & (og' & Lg' & Hg')).
  pose proof (latest_value_perm _ _ _ _ _ Hp Lt Lt') as Et.
  pose proof (latest_value_perm _ _ _ _ _ Hp La La') as Ea.
  pose proof (latest_value_perm _ _ _ _ _ Hp Lg Lg') as Eg.
  split_and!.
  - rewrite Ht, Ht'. destruct ot, ot'; simpl in *; try done.
    unfold timestmp_of in Et. by injection Et as ->.
  - rewrite Ha, Ha'. destruct oa as [r|], oa' as [r'|]; simpl in *;
      [by rewrite Ea|..|done].
    + by rewrite Ea.
    + by rewrite <- Ea.
  - rewrite Hg, Hg'. destruct og as [r|], og' as [r'|]; simpl in *;
      [by rewrite Eg|..|done].
    + by rewrite Eg.
    + by rewrite <- Eg.
Qed.

Lemma walk_order_independent_witness :
  walk "CP0000001" tie_rows !! "event_date" =
    walk "CP0000001" (reverse tie_rows) !! "event_date" ∧
  walk "CP0000001" tie_rows !! "ar_date" =
    walk "CP0000001" (reverse tie_rows) !! "ar_date" ∧
  walk "CP0000001" tie_rows !! "agm_date" =
    walk "CP0000001" (reverse tie_rows) !! "agm_date".
Proof.
  apply (walk_order_independent "CP0000001" tie_rows (reverse tie_rows)).
  symmetry. apply reverse_Permutation.
Defined.

(** ** [update_corp_state] from any prior state *)

(** X3. Whatever the CORP_STATE rows of [corp_num] were before (no active
    row, one, or several), a completed [update_corp_state] leaves exactly
    one active row for it, the new one; every row that was active for
    [corp_num] is now ended by [event_id], and every other row is still in
    the table as it was. *)
Theorem update_corp_state_establishes_one_active
  fault event_id corp_num state w w' :
  update_corp_state fault event_id corp_num state w = (inr tt, w') →
  filter (is_active corp_num) (corp_state w')
    = [started_by event_id corp_num state] ∧
  (∀ r, r ∈ corp_state w → is_active corp_num r →
        ended_by event_id r ∈ corp_state w') ∧
  (∀ r, r ∈ corp_state w → ¬ is_active corp_num r → r ∈ corp_state w').
Proof.
  intros Hrun. apply update_corp_state_inv in Hrun. rewrite Hrun. split_and!.
  - rewrite filter_app, Forall_not_filter_nil.
    + rewrite filter_cons_True; [done|]. by split.
    + apply Forall_fmap, Forall_forall. intros r _. apply end_row_not_active.
  - intros r Hr Ha. apply elem_of_app. left.
    rewrite <- (end_row_active event_id corp_num r Ha).
    by apply list_elem_of_fmap_2.
  - intros r Hr Ha. apply elem_of_app. left.
    rewrite <- (end_row_inactive event_id corp_num r Ha) at 1.
    by apply list_elem_of_fmap_2.
Qed.

Lemma update_corp_state_establishes_one_active_witness :
  filter (is_active "CP0000001")
    (corp_state (update_corp_state no_fault 5 "CP0000001" "ACT"
                   (with_corp_state [] empty_world)).2)
  = [started_by 5 "CP0000001" "ACT"].
Proof.
  apply (update_corp_state_establishes_one_active no_fault 5 "CP0000001" "ACT"
           (with_corp_state [] empty_world)).
  reflexivity.
Defined.

(** X4. The two ways [update_corp_state] fails. When the database rejects
    the UPDATE, the error is logged and re-raised and the table is as it
    was. When it rejects the INSERT, the error is logged and re-raised
    with the UPDATE already applied: the corporation is left without an
    active row. *)
Theorem update_corp_state_failures fault event_id corp_num state w e :
  (fault (EndCorpState event_id corp_num) = Some e →
   ∃ w', update_corp_state fault event_id corp_num state w = (inl e, w') ∧
         corp_state w' = corp_state w ∧
         logged w' = logged w ++ [LogExn e]) ∧
  (fault (EndCorpState event_id corp_num) = None →
   fault (InsertCorpState corp_num event_id state) = Some e →
   ∃ w', update_corp_state fault event_id corp_num state w = (inl e, w') ∧
         corp_state w' = end_row event_id corp_num <$> corp_state w ∧
         filter (is_active corp_num) (corp_state w') = [] ∧
         logged w' = logged w ++ [LogExn e]).
Proof.
  split.
  - intros H1. unfold update_corp_state, try_except, mbind, M_bind, execute.
    rewrite H1. simpl. by eexists.
  - intros H1 H2. unfold update_corp_state, try_except, mbind, M_bind, execute.
    rewrite H1. simpl. rewrite H2. simpl. eexists. split_and!; [done|done| |done].
    simpl. apply Forall_not_filter_nil, Forall_fmap, Forall_forall.
    intros r _. apply end_row_not_active.
Qed.

Lemma update_corp_state_failures_witness :
  ∃ w', update_corp_state insert_rejected 5 "CP0000001" "ACT" one_active_world
          = (inl (DatabaseError "ORA-00001"), w') ∧
        corp_state w' = end_row 5 "CP0000001" <$> corp_state one_active_world ∧
        filter (is_active "CP0000001") (corp_state w') = [] ∧
        logged w' = logged one_active_world ++ [LogExn (DatabaseError "ORA-00001")].
Proof.
  apply (proj2 (update_corp_state_failures insert_rejected 5 "CP0000001" "ACT"
                  one_active_world (DatabaseError "ORA-00001")));
    reflexivity.
Defined.

(** ** [reset_corp_states]: what it leaves behind *)

Lemma reopen_row_start event_ids r :
  start_event_id (reopen_row event_ids r) = start_event_id r.
Proof.
  unfold reopen_row. destruct (end_event_id r); [|done]. by case_bool_decide.
Qed.

Lemma reopen_row_end event_ids r e :
  end_event_id (reopen_row event_ids r) = Some e → e ∉ event_ids.
Proof.
  unfold reopen_row. destruct (end_event_id r) as [e'|] eqn:He; [|by rewrite He].
  case_bool_decide as Hin; simpl; [done|]. rewrite He. by intros [= <-].
Qed.

(** X5. After a completed [reset_corp_states event_ids], no CORP_STATE row
    is started or ended by one of the events; a second call with the same
    ids therefore changes nothing. *)
Theorem reset_corp_states_idempotent fault event_ids w w1 :
  reset_corp_states fault event_ids w = (inr tt, w1) →
  event_ids ≠ [] →
  (∀ r e, r ∈ corp_state w1 → e ∈ event_ids → ¬ mentions e r) ∧
  (∀ w2, reset_corp_states fault event_ids w1 = (inr tt, w2) →
         corp_state w2 = corp_state w1).
Proof.
  intros Hrun Hne.
  assert (∀ r e, r ∈ corp_state w1 → e ∈ event_ids → ¬ mentions e r) as Hpost.
  { apply reset_corp_states_inv in Hrun. rewrite Hrun.
    destruct event_ids as [|e0 ids]; [done|].
    intros r e Hr He. apply list_elem_of_fmap in Hr as (r0 & -> & Hr0).
    apply list_elem_of_filter in Hr0 as [Hs _].
    intros [Hm|Hm].
    - rewrite reopen_row_start in Hm. by subst.
    - by apply reopen_row_end in Hm. }
  split; [done|]. intros w2 Hrun2. apply reset_corp_states_inv in Hrun2.
  rewrite Hrun2. destruct event_ids; [done|]. by apply reset_unmentioned.
Qed.

Lemma reset_corp_states_idempotent_witness :
  (∀ r e, r ∈ corp_state (reset_corp_states no_fault [3%Z] one_active_world).2 →
          e ∈ [3%Z] → ¬ mentions e r) ∧
  (∀ w2, reset_corp_states no_fault [3%Z]
           (reset_corp_states no_fault [3%Z] one_active_world).2 = (inr tt, w2) →
         corp_state w2
         = corp_state (reset_corp_states no_fault [3%Z] one_active_world).2).
Proof.
  apply (reset_corp_states_idempotent no_fault [3%Z] one_active_world);
    [reflexivity|done].
Defined.

(** X6. The two ways [reset_corp_states] fails. When the database rejects
    the DELETE, the failure is logged with the event ids, re-raised, and
    the table is as it was. When it rejects the UPDATE, the failure is
    logged and re-raised with the DELETE already applied: the rows the
    events created are gone and the rows they ended are still ended. *)
Theorem reset_corp_states_failures fault event_ids w e :
  event_ids ≠ [] →
  (fault (DeleteCorpState event_ids) = Some e →
   ∃ w', reset_corp_states fault event_ids w = (inl e, w') ∧
         corp_state w' = corp_state w ∧
         logged w' = logged w ++ [LogDeleteCorpStateFailed event_ids]) ∧
  (fault (DeleteCorpState event_ids) = None →
   fault (ReopenCorpState event_ids) = Some e →
   ∃ w', reset_corp_states fault event_ids w = (inl e, w') ∧
         corp_state w'
         = filter (λ r, start_event_id r ∉ event_ids) (corp_state w) ∧
         logged w' = logged w ++ [LogResetCorpStateFailed event_ids]).
Proof.
  intros Hne. unfold reset_corp_states.
  rewrite bool_decide_eq_false_2 by (destruct event_ids; [done|simpl; lia]).
  unfold try_except, mbind, M_bind, execute. split.
  - intros H1. rewrite H1. simpl. by eexists.
  - intros H1 H2. rewrite H1. simpl. rewrite H2. simpl. by eexists.
Qed.

Lemma reset_corp_states_failures_witness :
  ∃ w', reset_corp_states reopen_rejected [3%Z] one_active_world
          = (inl (DatabaseError "ORA-00060"), w') ∧
        corp_state w'
        = filter (λ r, start_event_id r ∉ [3%Z]) (corp_state one_active_world) ∧
        logged w' = logged one_active_world ++ [LogResetCorpStateFailed [3%Z]].
Proof.
  assert ([3%Z] ≠ []) as Hne by done.
  apply (proj2 (reset_corp_states_failures reopen_rejected [3%Z] one_active_world
                  (DatabaseError "ORA-00060") Hne)); reflexivity.
Defined.

(** ** Undoing a batch of transitions *)

Lemma transitioned_refl ids t : transitioned ids t t.
Proof.
  exists t, []. split_and!; [by rewrite app_nil_r| |constructor].
  apply Forall_Forall2_diag, Forall_forall. intros r _. by left.
Qed.

Lemma transitioned_update ids t t' event_id corp_num state :
  event_id ∈ ids → transitioned ids t t' →
  transitioned ids t
    ((end_row event_id corp_num <$> t') ++ [started_by event_id corp_num state]).
Proof.
  intros Hin (old & new & -> & Hold & Hnew).
  exists (end_row event_id corp_num <$> old),
    ((end_row event_id corp_num <$> new) ++ [started_by event_id corp_num state]).
  split_and!.
  - by rewrite fmap_app, <- app_assoc.
  - apply Forall2_fmap_r. refine (Forall2_impl _ _ _ _ Hold _).
    intros r r' Hrr. simpl in *. destruct Hrr as [->|(Hend & e & He & ->)].
    + unfold end_row. case_bool_decide as Ha; [|by left].
      right. destruct Ha as [_ Ha]. split; [done|]. by exists event_id.
    + right. split; [done|]. exists e. split; [done|].
      apply end_row_inactive. by intros [_ ?].
  - apply Forall_app. split.
    + apply Forall_fmap. refine (Forall_impl _ _ _ Hnew _).
      intros r Hr. simpl. by rewrite end_row_start.
    + by repeat constructor.
Qed.

Lemma run_updates_transitioned fault ids updates t w w1 :
  (∀ u, u ∈ updates → u.1.1 ∈ ids) →
  transitioned ids t (corp_state w) →
  run_updates fault updates w = Some w1 →
  transitioned ids t (corp_state w1).
Proof.
  revert w. induction updates as [|[[e c] s] us IH]; intros w Hids Ht; simpl.
  - by intros [= <-].
  - destruct (update_corp_state fault e c s w) as [[err|[]] w'] eqn:Hu; [done|].
    apply update_corp_state_inv in Hu. apply IH.
    + intros u Hu'. apply Hids. by right.
    + rewrite Hu. apply transitioned_update; [|done]. apply (Hids (e, c, s)). by left.
Qed.

Lemma reset_transitioned ids (t t' : list CorpState) :
  (∀ r e, r ∈ t → e ∈ ids → ¬ mentions e r) →
  transitioned ids t t' →
  reopen_row ids <$> filter (λ r, start_event_id r ∉ ids) t' = t.
Proof.
  intros Hfresh (old & new & -> & Hold & Hnew).
  rewrite filter_app.
  rewrite (Forall_not_filter_nil _ new)
    by (refine (Forall_impl _ _ _ Hnew _); intros r Hr Hn; by apply Hn).
  rewrite app_nil_r. clear Hnew.
  induction Hold as [|r r' t old Hr Hold IH]; [done|]. simpl in Hr.
  assert (∀ e, e ∈ ids → ¬ mentions e r) as Hr0
    by (intros e He; apply Hfresh; [by left|done]).
  rewrite filter_cons_True.
  - rewrite fmap_cons, IH by (intros ? ? ?; apply Hfresh; by right). f_equal.
    destruct Hr as [->|(Hend & e & He & ->)].
    + by apply reopen_row_unmentioned.
    + unfold reopen_row. simpl. rewrite bool_decide_eq_true_2 by done.
      destruct r; simpl in *. by rewrite Hend.
  - intros Hin. assert (start_event_id r' = start_event_id r) as Hs
      by (destruct Hr as [->|(_ & e & _ & ->)]; done).
    rewrite Hs in Hin. apply (Hr0 _ Hin). by left.
Qed.

(** X7. Undoing a batch. After any sequence of completed
    [update_corp_state] calls whose event ids occur in no row of the table
    they started from, [reset_corp_states] with those event ids gives that
    table back, also when several transitions share an event id or hit the
    same corporation. *)
Theorem reset_corp_states_reverses_batch fault updates w w1 w2 :
  (∀ r u, r ∈ corp_state w → u ∈ updates → ¬ mentions u.1.1 r) →
  run_updates fault updates w = Some w1 →
  reset_corp_states fault ((λ u, u.1.1) <$> updates) w1 = (inr tt, w2) →
  corp_state w2 = corp_state w.
Proof.
  intros Hfresh Hrun Hreset.
  apply reset_corp_states_inv in Hreset. rewrite Hreset.
  destruct (decide (updates = [])) as [->|Hne].
  { simpl in *. by injection Hrun as <-. }
  replace (match (λ u, u.1.1) <$> updates with
           | [] => corp_state w1
           | _ :: _ =>
               reopen_row ((λ u, u.1.1) <$> updates) <$>
               filter (λ r, start_event_id r ∉ (λ u, u.1.1) <$> updates)
                 (corp_state w1)
           end)
    with (reopen_row ((λ u, u.1.1) <$> updates) <$>
          filter (λ r, start_event_id r ∉ (λ u, u.1.1) <$> updates)
            (corp_state w1))
    by (by destruct updates).
  apply reset_transitioned.
  - intros r e Hr He. apply list_elem_of_fmap in He as (u' & -> & Hu').
    by apply Hfresh.
  - apply (run_updates_transitioned fault _ updates _ w w1);
      [|apply transitioned_refl|done].
    intros u' Hu'. by apply (list_elem_of_fmap_2 (λ u, u.1.1)).
Qed.

Lemma reset_corp_states_reverses_batch_witness :
  corp_state
    (reset_corp_states no_fault ((λ u, u.1.1) <$> shared_event_batch)
       (default empty_world
          (run_updates no_fault shared_event_batch one_active_world))).2
  = corp_state one_active_world.
Proof.
  apply (reset_corp_states_reverses_batch no_fault shared_event_batch
           one_active_world
           (default empty_world
              (run_updates no_fault shared_event_batch one_active_world)));
    [|reflexivity|reflexivity].
  intros r u Hr Hu. vm_compute in Hr.
  repeat (apply elem_of_cons in Hr as [->|Hr]); try (by apply elem_of_nil in Hr);
    repeat (apply elem_of_cons in Hu as [->|Hu]); try (by apply elem_of_nil in Hu);
    intros [Hm|Hm]; simpl in Hm; discriminate.
Defined.

Example shared_event_batch_runs :
  ∃ w1 w2,
    run_updates no_fault shared_event_batch one_active_world = Some w1 ∧
    length (corp_state w1) = 6 ∧
    reset_corp_states no_fault ((λ u, u.1.1) <$> shared_event_batch) w1
      = (inr tt, w2) ∧
    corp_state w2 = corp_state one_active_world.
Proof. eexists _, _. split_and!; reflexivity. Qed.

(** ** [reset_corporations]: what is written, and when it stops *)

Section ResetCorporations.

Variable fault : statement → option exn.
Variable fetch_dates : list Z → string → list date_row.

(** The dict of a corporation that has a remaining filing with a period
    end and one with an AGM date. *)
Lemma walk_recovered corp rows :
  (∃ x, x ∈ rows ∧ period_end_dt x ≠ None) →
  (∃ x, x ∈ rows ∧ agm_date x ≠ None) →
  ∃ rt ra rg m_ar m_agm,
    first_latest timestmp_of rows rt (event_timestmp rt) ∧
    first_latest period_end_dt rows ra m_ar ∧
    first_latest agm_date rows rg m_agm ∧
    walk corp rows !! "corp_num" = Some (Str corp) ∧
    walk corp rows !! "event_date" = Some (Datetime (event_timestmp rt)) ∧
    walk corp rows !! "ar_filed_date" = Some (Datetime (event_timestmp ra)) ∧
    walk corp rows !! "agm_date" = Some (Datetime m_agm).
Proof.
  intros (xa & Hxa & Hpa) (xg & Hxg & Hpg).
  destruct (walk_latest_dates corp rows)
    as (Hc & (ot & Lt & Ht) & (oa & La & _ & Hf) & (og & Lg & Hg)).
  destruct ot as [rt|]; [|by specialize (Lt _ Hxa)].
  destruct oa as [ra|]; [|by destruct Hpa; apply La].
  destruct og as [rg|]; [|by destruct Hpg; apply Lg].
  destruct Lt as [mt Lt], La as [m_ar La], Lg as [m_agm Lg].
  assert (mt = event_timestmp rt) as ->.
  { destruct Lt as (? & ? & _ & Hr & _). unfold timestmp_of in Hr. congruence. }
  exists rt, ra, rg, m_ar, m_agm. split_and!; try done.
  rewrite Hg. simpl. destruct Lg as (? & ? & _ & -> & _). done.
Qed.

(** A turn of the loop that completes has issued the UPDATE for the
    corporation of the dict and has logged nothing. *)
Lemma reset_item_inv item corp w w' :
  item !! "corp_num" = Some corp →
  reset_item fault item w = (inr tt, w') →
  ∃ filed agm ev,
    corporation w' = reset_row filed agm ev corp <$> corporation w ∧
    corp_state w' = corp_state w ∧ logged w' = logged w.
Proof.
  intros Hc. unfold reset_item, try_except, mbind, M_bind, getitem, execute.
  rewrite Hc.
  destruct (item !! "agm_date") as [a|]; simpl; [|done].
  destruct (item !! "ar_date") as [ar|], (item !! "ar_filed_date") as [f|],
    (item !! "event_date") as [ev|], (truthy a); simpl; try done;
    match goal with
    | |- context [fault ?s] => destruct (fault s); simpl; [done|]
    end;
    intros [= <-]; by eexists _, _, _.
Qed.

(** A turn of the loop that fails has written nothing and has logged the
    failure, once, with the corporation of the dict. *)
Lemma reset_item_failure item corp e w w' :
  item !! "corp_num" = Some corp →
  reset_item fault item w = (inl e, w') →
  corporation w' = corporation w ∧ corp_state w' = corp_state w ∧
  logged w' = logged w ++ [LogResetCorporationFailed corp].
Proof.
  intros Hc. unfold reset_item, try_except, mbind, M_bind, getitem, execute.
  rewrite Hc.
  destruct (item !! "agm_date") as [a|]; simpl; [|by intros [= <- <-]].
  destruct (item !! "ar_date") as [ar|], (item !! "ar_filed_date") as [f|],
    (item !! "event_date") as [ev|], (truthy a); simpl;
    try (by intros [= <- <-]);
    match goal with
    | |- context [fault ?s] => destruct (fault s); simpl; [|done]
    end;
    by intros [= <- <-].
Qed.

Local Abbreviation recovered event_ids :=
  (λ c, walk c (fetch_dates event_ids c)).

Lemma reset_row_other filed agm ev k c :
  c_corp_num c ≠ k → reset_row filed agm ev (Str k) c = c.
Proof.
  intros Hne. unfold reset_row. rewrite bool_decide_eq_false_2; [done|].
  intros [= ->]. done.
Qed.

Lemma reset_row_corp_num filed agm ev k c :
  c_corp_num (reset_row filed agm ev k c) = c_corp_num c.
Proof. unfold reset_row. by case_bool_decide. Qed.

(** The loop over the dicts of [corps], when every corporation has its
    dates: each row of an affected corporation carries the recovered
    dates, every other row is as it was. *)
Lemma reset_loop_writes event_ids corps w :
  NoDup corps →
  (∀ s, fault s = None) →
  (∀ c, c ∈ corps →
        (∃ x, x ∈ fetch_dates event_ids c ∧ period_end_dt x ≠ None) ∧
        (∃ x, x ∈ fetch_dates event_ids c ∧ agm_date x ≠ None)) →
  ∃ w', reset_loop fault (recovered event_ids <$> corps) w = (inr tt, w') ∧
        corp_state w' = corp_state w ∧ logged w' = logged w ∧
        Forall2 (λ c c',
                   if decide (c_corp_num c ∈ corps)
                   then carries_recovered (fetch_dates event_ids (c_corp_num c)) c c'
                   else c' = c)
          (corporation w) (corporation w').
Proof.
  intros Hnd Hok. revert w. induction corps as [|k ks IH]; intros w Hgood.
  - exists w. split_and!; try done.
    apply Forall_Forall2_diag, Forall_forall. intros c _.
    rewrite decide_False; [done|]. apply not_elem_of_nil.
  - apply NoDup_cons in Hnd as [Hk Hnd].
    destruct (Hgood k) as [Hp Hg]; [by left|].
    destruct (walk_recovered k _ Hp Hg)
      as (rt & ra & rg & m_ar & m_agm & Lt & La & Lg & Hc & He & Hf & Ha).
    rewrite fmap_cons. simpl. unfold mbind, M_bind.
    rewrite (reset_item_writes fault _ _ _ _ _ w Ha Hf He Hc (Hok _)).
    destruct (IH Hnd
                (with_issued
                   (UpdateCorporation (Datetime (event_timestmp ra))
                      (Datetime m_agm) (Datetime (event_timestmp rt)) (Str k))
                   (with_corporation
                      (reset_row (Datetime (event_timestmp ra)) (Datetime m_agm)
                         (Datetime (event_timestmp rt)) (Str k) <$> corporation w) w)))
      as (w' & Hrun & Hcs & Hlog & Hall); [intros; apply Hgood; by right|].
    exists w'. split_and!; [done|done|done|].
    simpl in Hall. apply Forall2_fmap_l in Hall.
    refine (Forall2_impl _ _ _ _ Hall _). intros c c' Hcc'. simpl in Hcc'.
    rewrite reset_row_corp_num in Hcc'.
    destruct (decide (c_corp_num c = k)) as [Heq|Hne].
    + rewrite decide_True by (rewrite Heq; by left).
      rewrite decide_False in Hcc' by (by rewrite Heq). subst c'.
      unfold reset_row. rewrite bool_decide_eq_true_2 by (by rewrite Heq).
      split; [done|]. rewrite Heq. by exists rt, ra, rg, m_ar, m_agm.
    + rewrite reset_row_other in Hcc' by done.
      destruct (decide (c_corp_num c ∈ ks)) as [Hin|Hnin].
      * rewrite decide_True by (by right). done.
      * rewrite decide_False; [done|]. by apply not_elem_of_cons.
Qed.

(** X8. When every affected corporation still has a filing with a period
    end and a filing with an AGM date, and the database accepts the
    statements, [reset_corporations] completes; each CORPORATION row of an
    affected corporation then carries the recovered dates (ledger date
    from the latest event, AR filed date from the filing with the latest
    period end, AGM date the latest AGM date), every other row, CORP_STATE
    and the log are as they were. *)
Theorem reset_corporations_writes_recovered event_info event_ids w :
  event_info ≠ [] →
  (∀ s, fault s = None) →
  (∀ c, c ∈ ei_corp_num <$> event_info →
        (∃ x, x ∈ fetch_dates event_ids c ∧ period_end_dt x ≠ None) ∧
        (∃ x, x ∈ fetch_dates event_ids c ∧ agm_date x ≠ None)) →
  ∃ w', reset_corporations fault fetch_dates event_info event_ids w = (inr tt, w') ∧
        corp_state w' = corp_state w ∧ logged w' = logged w ∧
        Forall2 (λ c c',
                   if decide (c_corp_num c ∈ ei_corp_num <$> event_info)
                   then carries_recovered (fetch_dates event_ids (c_corp_num c)) c c'
                   else c' = c)
          (corporation w) (corporation w').
Proof.
  intros Hne Hok Hgood. unfold reset_corporations.
  rewrite bool_decide_eq_false_2 by (destruct event_info; [done|simpl; lia]).
  unfold mbind, M_bind, _get_last_ar_dates_for_reset.
  rewrite dates_loop_ok by (intros; apply Hok). simpl.
  destruct (events_by_corp_num_keys event_info) as [Hnd Hin].
  destruct (reset_loop_writes event_ids (events_by_corp_num event_info).*1
              (foldl (λ w c, with_issued (SelectDates event_ids c) w) w
                 (events_by_corp_num event_info).*1) Hnd Hok)
    as (w' & Hrun & Hcs & Hlog & Hall).
  { intros c Hc. apply Hgood. by apply Hin. }
  assert (∀ corps w0,
             corp_state (foldl (λ w c, with_issued (SelectDates event_ids c) w) w0 corps)
             = corp_state w0 ∧
             logged (foldl (λ w c, with_issued (SelectDates event_ids c) w) w0 corps)
             = logged w0 ∧
             corporation (foldl (λ w c, with_issued (SelectDates event_ids c) w) w0 corps)
             = corporation w0) as Hsel.
  { induction corps as [|c corps IH]; intros w0; [done|]. simpl.
    destruct (IH (with_issued (SelectDates event_ids c) w0)) as (-> & -> & ->). done. }
  destruct (Hsel (events_by_corp_num event_info).*1 w) as (Es & El & Ec).
  exists w'. rewrite Hrun, Hcs, Hlog, Es, El. split_and!; try done.
  rewrite Ec in Hall. refine (Forall2_impl _ _ _ _ Hall _).
  intros c c' Hcc'. simpl in *.
  destruct (decide (c_corp_num c ∈ (events_by_corp_num event_info).*1)) as [Hi|Hi].
  - rewrite decide_True by (by apply Hin). done.
  - rewrite decide_False; [done|]. intros Hi'. by apply Hi, Hin.
Qed.

(** The loop stops at the first dict that fails. *)
Lemma reset_loop_aborts event_ids corps w e w' :
  reset_loop fault (recovered event_ids <$> corps) w = (inl e, w') →
  ∃ pre c post,
    corps = pre ++ c :: post ∧
    logged w' = logged w ++ [LogResetCorporationFailed (Str c)] ∧
    corp_state w' = corp_state w ∧
    Forall2 (λ r r', c_corp_num r ∉ pre → r' = r) (corporation w) (corporation w').
Proof.
  revert w. induction corps as [|k ks IH]; intros w; [done|].
  rewrite fmap_cons. simpl. unfold mbind, M_bind.
  assert (recovered event_ids k !! "corp_num" = Some (Str k)) as Hc
    by apply walk_latest_dates.
  destruct (reset_item fault (recovered event_ids k) w) as [[e1|[]] w1] eqn:Hitem.
  - intros [= <- <-]. apply (reset_item_failure _ _ _ _ _ Hc) in Hitem as (Ec & Es & El).
    exists [], k, ks. split_and!; [done|done|done|]. rewrite Ec.
    apply Forall_Forall2_diag, Forall_forall. by intros.
  - intros Hrest. apply (reset_item_inv _ _ _ _ Hc) in Hitem
      as (filed & agm & ev & Ec & Es & El).
    destruct (IH _ Hrest) as (pre & c & post & -> & Hl & Hs & Hall).
    exists (k :: pre), c, post. split_and!; [done|by rewrite Hl, El|by rewrite Hs|].
    rewrite Ec in Hall. apply Forall2_fmap_l in Hall.
    refine (Forall2_impl _ _ _ _ Hall _). intros r r' Hrr Hnin. simpl in Hrr.
    apply not_elem_of_cons in Hnin as [Hne Hnin].
    rewrite reset_row_corp_num in Hrr. rewrite (Hrr Hnin).
    by apply reset_row_other.
Qed.

(** X9. When [reset_corporations] raises although the database accepted
    the reset queries, it stopped at one affected corporation: the failure
    was logged once, with that corporation, and only rows of corporations
    that came before it in the batch can have changed; the corporations
    after it were not reset. *)
Theorem reset_corporations_aborts event_info event_ids w e w' :
  reset_corporations fault fetch_dates event_info event_ids w = (inl e, w') →
  (∀ c, fault (SelectDates event_ids c) = None) →
  ∃ pre c post,
    (events_by_corp_num event_info).*1 = pre ++ c :: post ∧
    logged w' = logged w ++ [LogResetCorporationFailed (Str c)] ∧
    corp_state w' = corp_state w ∧
    Forall2 (λ r r', c_corp_num r ∉ pre → r' = r) (corporation w) (corporation w').
Proof.
  intros Hrun Hok. unfold reset_corporations in Hrun.
  case_bool_decide; [done|].
  unfold mbind, M_bind, _get_last_ar_dates_for_reset in Hrun.
  rewrite dates_loop_ok in Hrun by (intros; apply Hok). simpl in Hrun.
  apply reset_loop_aborts in Hrun as (pre & c & post & Hk & Hl & Hs & Hall).
  assert (∀ corps w0,
             corp_state (foldl (λ w c, with_issued (SelectDates event_ids c) w) w0 corps)
             = corp_state w0 ∧
             logged (foldl (λ w c, with_issued (SelectDates event_ids c) w) w0 corps)
             = logged w0 ∧
             corporation (foldl (λ w c, with_issued (SelectDates event_ids c) w) w0 corps)
             = corporation w0) as Hsel.
  { induction corps as [|c0 corps IH]; intros w0; [done|]. simpl.
    destruct (IH (with_issued (SelectDates event_ids c0) w0)) as (-> & -> & ->). done. }
  destruct (Hsel (events_by_corp_num event_info).*1 w) as (Es & El & Ec).
  exists pre, c, post. rewrite Hl, Hs, El, Es. split_and!; try done.
  by rewrite Ec in Hall.
Qed.

End ResetCorporations.

Lemma reset_corporations_writes_recovered_witness :
  ∃ w', reset_corporations no_fault (λ _ _, two_filings)
          [ {| ei_corp_num := "CP0000001"; ei_event_id := 7 |} ] [7%Z]
          two_corporations = (inr tt, w') ∧
        corp_state w' = corp_state two_corporations ∧
        logged w' = logged two_corporations ∧
        Forall2 (λ c c',
                   if decide (c_corp_num c ∈ ei_corp_num <$>
                                [ {| ei_corp_num := "CP0000001"; ei_event_id := 7 |} ])
                   then carries_recovered two_filings c c'
                   else c' = c)
          (corporation two_corporations) (corporation w').
Proof.
  apply (reset_corporations_writes_recovered no_fault (λ _ _, two_filings)
           [ {| ei_corp_num := "CP0000001"; ei_event_id := 7 |} ] [7%Z]
           two_corporations); [done|done|].
  intros c _. split.
  - exists {| dr_corp_num := "CP0000001"; event_timestmp := 100;
              period_end_dt := Some 90%Z; agm_date := None |}.
    split; [by left|done].
  - exists {| dr_corp_num := "CP0000001"; event_timestmp := 60;
              period_end_dt := Some 50%Z; agm_date := Some 55%Z |}.
    split; [right; by left|done].
Defined.

Example reset_two_filings :
  corporation
    (reset_corporations no_fault (λ _ _, two_filings)
       [ {| ei_corp_num := "CP0000001"; ei_event_id := 7 |} ] [7%Z]
       two_corporations).2 !! 0%nat
  = Some {| c_corp_num := "CP0000001"; last_ar_filed_dt := Datetime 100;
            last_agm_date := Datetime 55; last_ledger_dt := Datetime 100 |}.
Proof. reflexivity. Qed.

Lemma reset_corporations_aborts_witness :
  ∃ pre c post,
    (events_by_corp_num
       [ {| ei_corp_num := "CP0000001"; ei_event_id := 7 |};
         {| ei_corp_num := "CP0000002"; ei_event_id := 8 |};
         {| ei_corp_num := "CP0000003"; ei_event_id := 9 |} ]).*1
      = pre ++ c :: post ∧
    logged
      (reset_corporations no_fault remaining_filings
         [ {| ei_corp_num := "CP0000001"; ei_event_id := 7 |};
           {| ei_corp_num := "CP0000002"; ei_event_id := 8 |};
           {| ei_corp_num := "CP0000003"; ei_event_id := 9 |} ]
         [7%Z; 8%Z; 9%Z] two_corporations).2
      = logged two_corporations ++ [LogResetCorporationFailed (Str c)] ∧
    corp_state
      (reset_corporations no_fault remaining_filings
         [ {| ei_corp_num := "CP0000001"; ei_event_id := 7 |};
           {| ei_corp_num := "CP0000002"; ei_event_id := 8 |};
           {| ei_corp_num := "CP0000003"; ei_event_id := 9 |} ]
         [7%Z; 8%Z; 9%Z] two_corporations).2
      = corp_state two_corporations ∧
    Forall2 (λ r r', c_corp_num r ∉ pre → r' = r)
      (corporation two_corporations)
      (corporation
         (reset_corporations no_fault remaining_filings
            [ {| ei_corp_num := "CP0000001"; ei_event_id := 7 |};
              {| ei_corp_num := "CP0000002"; ei_event_id := 8 |};
              {| ei_corp_num := "CP0000003"; ei_event_id := 9 |} ]
            [7%Z; 8%Z; 9%Z] two_corporations).2).
Proof.
  apply (reset_corporations_aborts no_fault remaining_filings
           [ {| ei_corp_num := "CP0000001"; ei_event_id := 7 |};
             {| ei_corp_num := "CP0000002"; ei_event_id := 8 |};
             {| ei_corp_num := "CP0000003"; ei_event_id := 9 |} ]
           [7%Z; 8%Z; 9%Z]
           two_corporations (KeyError "agm_date")); [|done].
  assert ((reset_corporations no_fault remaining_filings
             [ {| ei_corp_num := "CP0000001"; ei_event_id := 7 |};
               {| ei_corp_num := "CP0000002"; ei_event_id := 8 |};
               {| ei_corp_num := "CP0000003"; ei_event_id := 9 |} ]
             [7%Z; 8%Z; 9%Z] two_corporations).1 = inl (KeyError "agm_date")) as H
    by reflexivity.
  destruct (reset_corporations _ _ _ _ _) as [r w']. simpl in H. by subst.
Defined.

(** ** [find_by_identifier]: the record it hands out *)

Section Record.

Variable fault : statement → option exn.
Variable corp_join : list corp_row.
Variable event_table : list event_row.
Variable other_statement : string → value.
Variable convert_to_json_date : value → value.
Variable convert_to_json_datetime : value → value.

Ltac lookups :=
  repeat first [ rewrite lookup_insert_eq | rewrite lookup_insert_ne by done ].

Ltac kept :=
  unfold removed_fields; rewrite !not_elem_of_cons;
  split_and!; [done .. | apply not_elem_of_nil].

Ltac listed :=
  match goal with
  | |- ?k ∈ ?l => apply (bool_decide_unpack (k ∈ l)); by vm_compute
  end.

Lemma row_dict_other row k :
  k ∉ columns → row_dict row !! k = None.
Proof.
  intros Hk. unfold row_dict. apply not_elem_of_list_to_map_1.
  by rewrite fst_zip by done.
Qed.

(** Every entry of the dict that the [try] block hands out, and nothing
    else. *)
Lemma resolve_record ident row w :
  fault (SelectLastLedger ident) = None →
  ∃ b,
    resolve fault event_table other_statement convert_to_json_date convert_to_json_datetime
      ident row w = (inr b, with_issued (SelectLastLedger ident) w) ∧
    b !! "identifier" = Some (identifier row) ∧
    b !! "foundingDate" = Some (convert_to_json_datetime (founding_date row)) ∧
    b !! "lastAgmDate" = Some (convert_to_json_date (r_last_agm_date row)) ∧
    b !! "lastArDate" =
      Some (if truthy (last_ar_date row)
            then convert_to_json_date (last_ar_date row)
            else convert_to_json_date (r_last_agm_date row)) ∧
    b !! "lastLedgerTimestamp" =
      Some (convert_to_json_datetime (select_last_ledger event_table other_statement ident)) ∧
    b !! "businessNumber" = Some (business_number row) ∧
    b !! "corpState" = Some (r_corp_state row) ∧
    b !! "legalName" =
      Some (if truthy (assumed_name row) then assumed_name row else legal_name row) ∧
    b !! "legalType" = Some (type row) ∧
    b !! "cacheId" = Some (Int 0) ∧
    (∀ k, k ∉ public_fields → b !! k = None).
Proof.
  intros Hok. unfold resolve.
  unfold mbind at 1. unfold M_bind at 1. rewrite execute_ok by done.
  change (run (SelectLastLedger ident) w) with w.
  generalize (with_issued (SelectLastLedger ident) w). clear w. intros w.
  destruct (row_dict_lookup row (select_last_ledger event_table other_statement ident))
    as (Hid & Hfz & Hty & Hlar & Hfiled & Hagm & Hst & Hcs & Hln & Han & Hfd
        & Hbn & Hjur & Hdesc & Hllt).
  assert (∀ k, k ∉ columns → k ≠ "last_ledger_timestamp" →
               (<["last_ledger_timestamp" := select_last_ledger event_table other_statement ident]>
                  (row_dict row)) !! k = None) as Hother.
  { intros k Hk Hne. rewrite lookup_insert_ne by done. by apply row_dict_other. }
  generalize dependent (<["last_ledger_timestamp" :=
                           select_last_ledger event_table other_statement ident]> (row_dict row)).
  intros d Hid Hfz Hty Hlar Hfiled Hagm Hst Hcs Hln Han Hfd Hbn Hjur Hdesc Hllt
    Hother.
  unfold mbind, M_bind.
  rewrite (set_jurisdiction_ok d _ _ _ w Hty Hjur Hdesc).
  erewrite set_name_ok by (rewrite lookup_insert_ne by done; exact Han).
  assert (∀ k, k ∉ public_fields → k ∉ removed_fields →
               (k ∉ columns) ∧ (k ≠ "last_ledger_timestamp")) as Hsplit.
  { intros k Hp Hr. split.
    - intros Hc. unfold columns in Hc.
      repeat (apply elem_of_cons in Hc as [->|Hc]);
        try (by apply elem_of_nil in Hc);
        first [ (apply Hp; listed) | (apply Hr; listed) ].
    - intros ->. apply Hr. listed. }
  destruct (truthy (assumed_name row));
    (erewrite set_status_ok by (lookups; eassumption));
    (erewrite to_json_format_ok
       by (lookups; first [eassumption|reflexivity]));
    (rewrite del_all_ok;
     [ eexists; split; [reflexivity|];
       split_and!;
       [ rewrite lookup_insert_ne by done;
         rewrite lookup_delete_all by kept; lookups; done ..
       | by rewrite lookup_insert_eq
       | intros k Hp;
         rewrite lookup_insert_ne by (intros <-; apply Hp; listed);
         destruct (decide (k ∈ removed_fields)) as [Hr|Hr];
         [ by apply lookup_delete_all_in |];
         rewrite lookup_delete_all by done;
         destruct (Hsplit k Hp Hr) as [Hcol Hllt'];
         repeat (rewrite lookup_insert_ne
                   by (intros <-; first [ (apply Hp; listed) | (apply Hr; listed) ]));
         by apply Hother ]
     | apply removed_fields_NoDup
     | intros k Hk; unfold removed_fields in Hk;
       repeat (apply elem_of_cons in Hk as [->|Hk]);
       [ lookups; eauto .. | by apply elem_of_nil in Hk ] ]).
Qed.

End Record.

(** The greatest timestamp of a list of events, NULL for no event. *)
Lemma max_timestmp_fold (l : list event_row) :
  match foldl max_timestmp Null l with
  | Null => l = []
  | Datetime m =>
      (∃ e, e ∈ l ∧ ev_event_timestmp e = m) ∧
      (∀ e, e ∈ l → (ev_event_timestmp e ≤ m)%Z)
  | _ => False
  end.
Proof.
  induction l as [|x l IH] using rev_ind; [done|].
  rewrite foldl_app. simpl.
  destruct (foldl max_timestmp Null l) as [| |m|]; simpl; try done.
  - subst l. split.
    + exists x. split; [by left|done].
    + intros e He. apply list_elem_of_singleton in He as ->. done.
  - destruct IH as [(e0 & He0 & Hm) Hmax]. split.
    + destruct (Z.max_spec m (ev_event_timestmp x)) as [[_ ->]|[_ ->]].
      * exists x. split; [|done]. apply elem_of_app. right. by left.
      * exists e0. split; [|done]. apply elem_of_app. by left.
    + intros e He. apply elem_of_app in He as [He|He].
      * specialize (Hmax e He). lia.
      * apply list_elem_of_singleton in He as ->. lia.
Qed.

Section Found.

Variable fault : statement → option exn.
Variable corp_join : list corp_row.
Variable event_table : list event_row.
Variable other_statement : string → value.
Variable convert_to_json_date : value → value.
Variable convert_to_json_datetime : value → value.

Lemma found_record identifier w b w' :
  find_by_identifier fault corp_join event_table other_statement convert_to_json_date
    convert_to_json_datetime identifier w = (inr (Some b), w') →
  ∃ ident row rest w2,
    identifier = Some ident ∧
    select_business corp_join ident = row :: rest ∧
    resolve fault event_table other_statement convert_to_json_date convert_to_json_datetime
      ident row w2 = (inr b, with_issued (SelectLastLedger ident) w2) ∧
    fault (SelectLastLedger ident) = None.
Proof.
  intros H. apply find_by_identifier_inv in H
    as (ident & row & rest & w2 & -> & Hne & Hs & Hf & Hr).
  exists ident, row, rest, w2. split_and!; [done|done| |done].
  destruct (resolve_ok fault event_table other_statement convert_to_json_date
              convert_to_json_datetime ident row w2 Hf) as (b' & Hr' & _).
  rewrite Hr in Hr'. injection Hr' as Hb Hw. by subst.
Qed.

(** X10. The dict that [find_by_identifier] hands out has exactly the
    twelve public fields: every column of the query and the helper entry
    for the ledger timestamp was renamed or removed, except the
    identifier. *)
Theorem find_by_identifier_public_fields identifier w b w' :
  find_by_identifier fault corp_join event_table other_statement convert_to_json_date
    convert_to_json_datetime identifier w = (inr (Some b), w') →
  ∀ k, is_Some (b !! k) ↔ k ∈ public_fields.
Proof.
  intros H. apply found_record in H as (ident & row & rest & w2 & -> & Hs & Hr & Hf).
  destruct (resolve_record fault event_table other_statement convert_to_json_date
              convert_to_json_datetime ident row w2 Hf)
    as (b' & Hr' & H1 & H2 & H3 & H4 & H5 & H6 & H7 & H8 & H9 & H10 & Hnone).
  rewrite Hr in Hr'. injection Hr' as <-.
  destruct (resolve_ok fault event_table other_statement convert_to_json_date
              convert_to_json_datetime ident row w2 Hf)
    as (b'' & Hr'' & _ & Hst & Hj & _).
  rewrite Hr in Hr''. injection Hr'' as <-.
  intros k. split.
  - intros Hsome. destruct (decide (k ∈ public_fields)) as [|Hn]; [done|].
    rewrite (Hnone k Hn) in Hsome. by destruct Hsome.
  - intros Hk. unfold public_fields in Hk.
    repeat (apply elem_of_cons in Hk as [->|Hk]); try (by apply elem_of_nil in Hk);
      by eexists.
Qed.

(** X11. The name, the dates and the type of the record. The legal name
    is the assumed name when there is one and the legal name otherwise;
    the last AR date is the period end of the fetched filing and falls
    back to the last AGM date when there is none; the identifier is the
    requested one, the legal type 'CP' and the cache id 0. *)
Theorem find_by_identifier_record identifier w b w' :
  find_by_identifier fault corp_join event_table other_statement convert_to_json_date
    convert_to_json_datetime identifier w = (inr (Some b), w') →
  ∃ ident row,
    identifier = Some ident ∧
    head (select_business corp_join ident) = Some row ∧
    b !! "identifier" = Some (Str ident) ∧
    b !! "legalType" = Some (Str "CP") ∧
    b !! "legalName" =
      Some (if truthy (assumed_name row) then assumed_name row else legal_name row) ∧
    b !! "lastAgmDate" = Some (convert_to_json_date (r_last_agm_date row)) ∧
    b !! "lastArDate" =
      Some (convert_to_json_date
              (if truthy (last_ar_date row) then last_ar_date row
               else r_last_agm_date row)) ∧
    b !! "foundingDate" = Some (convert_to_json_datetime (founding_date row)) ∧
    b !! "businessNumber" = Some (business_number row) ∧
    b !! "corpState" = Some (r_corp_state row) ∧
    b !! "cacheId" = Some (Int 0).
Proof.
  intros H. apply found_record in H as (ident & row & rest & w2 & -> & Hs & Hr & Hf).
  destruct (resolve_record fault event_table other_statement convert_to_json_date
              convert_to_json_datetime ident row w2 Hf)
    as (b' & Hr' & H1 & H2 & H3 & H4 & H5 & H6 & H7 & H8 & H9 & H10 & _).
  rewrite Hr in Hr'. injection Hr' as <-.
  destruct (select_business_where _ _ _ _ Hs) as (_ & Hty & Hid).
  exists ident, row. rewrite Hs. split_and!; try done.
  - by rewrite H1, Hid.
  - by rewrite H9, Hty.
  - rewrite H4. by destruct (truthy (last_ar_date row)).
Qed.

(** X12. For an identifier without a quote character, the last ledger
    timestamp of the record is the conversion of the greatest timestamp
    among the FILE and CONVOTHER events of the corporation, and of NULL
    when it has no such event; events of other types and of other
    corporations do not count. (The identifier is pasted into the text of
    this statement, so with a quote in it the statement is another one
    and the timestamp is whatever the database returns for that text:
    see [select_last_ledger_pasted].) *)
Theorem find_by_identifier_last_ledger ident w b w' :
  quote_free ident = true →
  find_by_identifier fault corp_join event_table other_statement convert_to_json_date
    convert_to_json_datetime (Some ident) w = (inr (Some b), w') →
  ∃ v,
    b !! "lastLedgerTimestamp" = Some (convert_to_json_datetime v) ∧
    match v with
    | Null => ∀ e, e ∈ event_table → ¬ ledger_event ident e
    | Datetime m =>
        (∃ e, e ∈ event_table ∧ ledger_event ident e ∧ ev_event_timestmp e = m) ∧
        (∀ e, e ∈ event_table → ledger_event ident e → (ev_event_timestmp e ≤ m)%Z)
    | _ => False
    end.
Proof.
  intros Hq H.
  apply found_record in H as (ident' & row & rest & w2 & [= <-] & Hs & Hr & Hf).
  destruct (resolve_record fault event_table other_statement convert_to_json_date
              convert_to_json_datetime ident row w2 Hf)
    as (b' & Hr' & _ & _ & _ & _ & H5 & _).
  rewrite Hr in Hr'. injection Hr' as <-.
  exists (select_last_ledger event_table other_statement ident). split; [done|].
  unfold select_last_ledger. rewrite Hq.
  pose proof (max_timestmp_fold
                (filter (λ e, (event_typ_cd e = "FILE" ∨ event_typ_cd e = "CONVOTHER")
                              ∧ ev_corp_num e = ident) event_table)) as Hmax.
  destruct (foldl max_timestmp Null _) as [| |m|]; try done.
  - intros e He Hl.
    assert (e ∈ filter (λ e, (event_typ_cd e = "FILE" ∨ event_typ_cd e = "CONVOTHER")
                             ∧ ev_corp_num e = ident) event_table) as Hin
      by (by apply list_elem_of_filter).
    rewrite Hmax in Hin. by apply elem_of_nil in Hin.
  - destruct Hmax as [(e0 & He0 & Hm) Hle]. split.
    + apply list_elem_of_filter in He0 as [Hl He0]. by exists e0.
    + intros e He Hl. apply Hle. by apply list_elem_of_filter.
Qed.

(** With a quote in the identifier the condition on CORP_NUM ends at that
    quote and the rest of the identifier is part of the statement. *)
Example last_ledger_sql_pasted :
  last_ledger_sql "X' OR 'a'='a" =
    newline
    +:+ "            select max(EVENT_TIMESTMP) as last_ledger_timestamp from EVENT"
    +:+ newline
    +:+ "            where EVENT_TYP_CD in('FILE', 'CONVOTHER') and CORP_NUM = 'X' OR 'a'='a'".
Proof. reflexivity. Qed.

Lemma select_last_ledger_pasted ident :
  quote_free ident = false →
  select_last_ledger event_table other_statement ident
  = other_statement (last_ledger_sql ident).
Proof. intros H. unfold select_last_ledger. by rewrite H. Qed.

(** ** [find_by_identifier]: the filing it picks *)

Lemma sorts_before_asym r r' : sorts_before r r' = true → sorts_before r' r = false.
Proof.
  unfold sorts_before.
  destruct (last_ar_date r), (last_ar_date r'); try done.
  intros H%bool_decide_eq_true. apply bool_decide_eq_false. lia.
Qed.

Lemma sorts_before_neg_trans r x y :
  sorts_before y x = false → sorts_before x r = false → sorts_before y r = false.
Proof.
  unfold sorts_before.
  destruct (last_ar_date r), (last_ar_date x), (last_ar_date y); try done.
  intros H1%bool_decide_eq_false H2%bool_decide_eq_false.
  apply bool_decide_eq_false. lia.
Qed.

(** No row of the ordered result comes strictly before its first row. *)
Lemma order_by_last_ar_date_head l row rest :
  order_by_last_ar_date l = row :: rest →
  ∀ y, y ∈ l → sorts_before y row = false.
Proof.
  unfold order_by_last_ar_date. revert row rest.
  induction l as [|r l IH]; intros row rest; [done|]. simpl.
  destruct (foldr insert_row [] l) as [|x l'] eqn:Hl.
  - simpl. intros [= <- <-] y Hy.
    assert (l = []) as ->.
    { apply Permutation_nil_r. rewrite <- (order_by_last_ar_date_perm l).
      unfold order_by_last_ar_date. by rewrite Hl. }
    apply list_elem_of_singleton in Hy as ->.
    unfold sorts_before. destruct (last_ar_date r); try done.
    apply bool_decide_eq_false. lia.
  - simpl. specialize (IH x l' eq_refl).
    destruct (sorts_before x r) eqn:Hx.
    + intros [= <- <-] y Hy. apply elem_of_cons in Hy as [->|Hy]; [|by apply IH].
      by apply sorts_before_asym.
    + intros [= <- <-] y Hy. apply elem_of_cons in Hy as [->|Hy].
      * unfold sorts_before. destruct (last_ar_date r); try done.
        apply bool_decide_eq_false. lia.
      * apply (sorts_before_neg_trans _ x); [by apply IH|done].
Qed.

(** X13. The row behind a business that [find_by_identifier] returns is a
    row of the corporation with the latest annual-report period end: no
    other row matching the query has a later one, and a row without a
    period end is fetched only when no matching row has one. *)
Theorem find_by_identifier_latest_report requested w b w' :
  find_by_identifier fault corp_join event_table other_statement convert_to_json_date
    convert_to_json_datetime requested w = (inr (Some b), w') →
  ∃ ident row,
    requested = Some ident ∧
    head (select_business corp_join ident) = Some row ∧
    row ∈ corp_join ∧
    ∀ r' a', r' ∈ corp_join →
             type r' = Str "CP" → identifier r' = Str ident →
             last_ar_date r' = Datetime a' →
             ∃ a, last_ar_date row = Datetime a ∧ (a' ≤ a)%Z.
Proof.
  intros H. apply found_record in H as (ident & row & rest & w2 & -> & Hs & Hr & Hf).
  destruct (select_business_where _ _ _ _ Hs) as (Hin & _ & _).
  exists ident, row. rewrite Hs. split_and!; [done|done|done|].
  intros r' a' Hr' Hty Hid Ha'.
  assert (sorts_before r' row = false) as Hnb.
  { unfold select_business in Hs.
    apply (order_by_last_ar_date_head _ _ _ Hs).
    apply list_elem_of_filter. split; [|done].
    unfold business_where. by rewrite !bool_decide_eq_true_2. }
  unfold sorts_before in Hnb. rewrite Ha' in Hnb.
  destruct (last_ar_date row) as [| |a|]; try done.
  apply bool_decide_eq_false in Hnb. exists a. split; [done|lia].
Qed.

(** X14. [find_by_identifier] only reads: in every outcome CORP_STATE and
    CORPORATION are as they were, the statements issued are an initial
    part of: open the cursor, the business query, the last-ledger query;
    and a call that returns has logged nothing. *)
Theorem find_by_identifier_read_only identifier w r w' :
  find_by_identifier fault corp_join event_table other_statement convert_to_json_date
    convert_to_json_datetime identifier w = (r, w') →
  corp_state w' = corp_state w ∧
  corporation w' = corporation w ∧
  (∃ n, issued w' = issued w ++
          take n [OpenCursor; SelectBusiness (default "" identifier);
                  SelectLastLedger (default "" identifier)]) ∧
  (∀ b, r = inr b → logged w' = logged w).
Proof.
  destruct identifier as [ident|]; [|intros [= <- <-]; split_and!; try done;
                                     exists 0%nat; by rewrite app_nil_r].
  destruct (decide (ident = "")) as [->|Hne].
  { intros [= <- <-]. split_and!; try done. exists 0%nat. by rewrite app_nil_r. }
  rewrite find_by_identifier_cases by done. simpl.
  destruct (fault OpenCursor).
  { intros [= <- <-]. split_and!; try done. by exists 1%nat. }
  destruct (fault (SelectBusiness ident)).
  { intros [= <- <-]. split_and!; try done. exists 2%nat. simpl.
    by rewrite <- app_assoc. }
  simpl. destruct (select_business corp_join ident) as [|row rest].
  { intros [= <- <-]. split_and!; try done. exists 2%nat. simpl.
    by rewrite <- app_assoc. }
  destruct (fault (SelectLastLedger ident)) as [e|] eqn:Hf.
  - rewrite (resolve_fault _ _ _ _ _ _ _ e) by done.
    intros [= <- <-]. split_and!; try done. exists 3%nat. simpl.
    by rewrite <- !app_assoc.
  - destruct (resolve_ok fault event_table other_statement convert_to_json_date
                convert_to_json_datetime ident row
                (with_issued (SelectBusiness ident) (with_issued OpenCursor w)) Hf)
      as (b & -> & _).
    intros [= <- <-]. split_and!; try done. exists 3%nat. simpl.
    by rewrite <- !app_assoc.
Qed.

End Found.

Lemma found_latest_eq : found_latest = (inr (Some latest_business), found_latest.2).
Proof.
  assert (match found_latest.1 with inr (Some _) => true | _ => false end = true)
    as H by (by vm_compute).
  unfold latest_business. by destruct found_latest as [[e|[b|]] w].
Qed.

Example latest_business_fields :
  latest_business !! "lastArDate" = Some (Datetime 300) ∧
  latest_business !! "legalName" = Some (Str "Test Co-op") ∧
  latest_business !! "lastLedgerTimestamp" = Some (Datetime 350).
Proof. vm_compute. by split_and!. Qed.

Lemma find_by_identifier_public_fields_witness :
  is_Some (latest_business !! "corp_frozen_typ_cd") ↔
  "corp_frozen_typ_cd" ∈ public_fields.
Proof.
  apply (find_by_identifier_public_fields no_fault two_reports busy_ledger unanswered id id
           (Some "CP0001965") empty_world latest_business found_latest.2).
  exact found_latest_eq.
Defined.

Lemma find_by_identifier_record_witness :
  ∃ ident row,
    Some "CP0001965" = Some ident ∧
    head (select_business two_reports ident) = Some row ∧
    latest_business !! "identifier" = Some (Str ident) ∧
    latest_business !! "legalType" = Some (Str "CP") ∧
    latest_business !! "legalName" =
      Some (if truthy (assumed_name row) then assumed_name row else legal_name row) ∧
    latest_business !! "lastAgmDate" = Some (id (r_last_agm_date row)) ∧
    latest_business !! "lastArDate" =
      Some (id (if truthy (last_ar_date row) then last_ar_date row
                else r_last_agm_date row)) ∧
    latest_business !! "foundingDate" = Some (id (founding_date row)) ∧
    latest_business !! "businessNumber" = Some (business_number row) ∧
    latest_business !! "corpState" = Some (r_corp_state row) ∧
    latest_business !! "cacheId" = Some (Int 0).
Proof.
  apply (find_by_identifier_record no_fault two_reports busy_ledger unanswered id id
           (Some "CP0001965") empty_world latest_business found_latest.2).
  exact found_latest_eq.
Defined.

Lemma find_by_identifier_last_ledger_witness :
  ∃ v,
    latest_business !! "lastLedgerTimestamp" = Some (id v) ∧
    match v with
    | Null => ∀ e, e ∈ busy_ledger → ¬ ledger_event "CP0001965" e
    | Datetime m =>
        (∃ e, e ∈ busy_ledger ∧ ledger_event "CP0001965" e ∧ ev_event_timestmp e = m) ∧
        (∀ e, e ∈ busy_ledger → ledger_event "CP0001965" e → (ev_event_timestmp e ≤ m)%Z)
    | _ => False
    end.
Proof.
  apply (find_by_identifier_last_ledger no_fault two_reports busy_ledger unanswered id id
           "CP0001965" empty_world latest_business found_latest.2).
  - reflexivity.
  - exact found_latest_eq.
Defined.

Lemma find_by_identifier_latest_report_witness :
  ∃ ident row,
    Some "CP0001965" = Some ident ∧
    head (select_business two_reports ident) = Some row ∧
    row ∈ two_reports ∧
    ∀ r' a', r' ∈ two_reports →
             type r' = Str "CP" → identifier r' = Str ident →
             last_ar_date r' = Datetime a' →
             ∃ a, last_ar_date row = Datetime a ∧ (a' ≤ a)%Z.
Proof.
  apply (find_by_identifier_latest_report no_fault two_reports busy_ledger unanswered id id
           (Some "CP0001965") empty_world latest_business found_latest.2).
  exact found_latest_eq.
Defined.

Lemma find_by_identifier_read_only_witness :
  corp_state found_latest.2 = corp_state empty_world ∧
  corporation found_latest.2 = corporation empty_world ∧
  (∃ n, issued found_latest.2 = issued empty_world ++
          take n [OpenCursor; SelectBusiness (default "" (Some "CP0001965"));
                  SelectLastLedger (default "" (Some "CP0001965"))]) ∧
  (∀ b, (inr (Some latest_business) : exn + option (gmap string value)) = inr b →
        logged found_latest.2 = logged empty_world).
Proof.
  apply (find_by_identifier_read_only no_fault two_reports busy_ledger unanswered id id
           (Some "CP0001965") empty_world (inr (Some latest_business))
           found_latest.2).
  exact found_latest_eq.
Defined.

End ColinMore.

(** * Further facts about the validation pipeline *)

Module ValidationMore.
Import Json Validation ValidationFacts.

Section Validate.

Context {Business Error : Type}.
Variable validate_against_schema : json → option Error.
Variable annual_report_validate : Business → json → option Error.
Variable coa_validate : Business → json → option Error.
Variable cod_validate : Business → json → option Error.
Variable FILINGS : gmap string (gmap string string).

Local Abbreviation run :=
  (run_validator annual_report_validate coa_validate cod_validate).
Local Abbreviation errors :=
  (first_error annual_report_validate coa_validate cod_validate).


(** X16. What a document without a usable ['filing'] entry does once it
    passed the generic schema: [validate] raises [KeyError] when the key
    is missing, [TypeError] when the document is no dict, and
    [AttributeError] when the entry is no dict; no validator is called. *)
Theorem validate_malformed business filing_json :
  validate_against_schema filing_json = None →
  (∀ d, filing_json = JDict d → dict_get "filing" d = None →
        validate validate_against_schema annual_report_validate coa_validate
          cod_validate FILINGS business filing_json
        = (inl (KeyError "filing"), [])) ∧
  ((∀ d, filing_json ≠ JDict d) →
   validate validate_against_schema annual_report_validate coa_validate
     cod_validate FILINGS business filing_json = (inl TypeError, [])) ∧
  (∀ d filing, filing_json = JDict d → dict_get "filing" d = Some filing →
               (∀ f, filing ≠ JDict f) →
               validate validate_against_schema annual_report_validate coa_validate
                 cod_validate FILINGS business filing_json
               = (inl AttributeError, [])).
Proof.
  intros Hs. unfold validate. rewrite Hs. split_and!.
  - intros d -> Hd. simpl. by rewrite Hd.
  - intros Hn. destruct filing_json; try done. by destruct (Hn d).
  - intros d filing -> Hd Hn. simpl. rewrite Hd.
    destruct filing; try done. by destruct (Hn d0).
Qed.

Lemma dedicated_name n_ar n_coa n_cod k v :
  dedicated FILINGS n_ar n_coa n_cod k = Some v →
  Some k = match v with
           | AnnualReport => n_ar
           | ChangeOfAddress => n_coa
           | ChangeOfDirectors => n_cod
           end.
Proof.
  unfold dedicated. destruct (registered FILINGS k); [|done].
  repeat case_bool_decide; intros [= <-]; done.
Qed.

Lemma dedicated_NoDup n_ar n_coa n_cod ks :
  NoDup ks → NoDup (omap (dedicated FILINGS n_ar n_coa n_cod) ks).
Proof.
  induction 1 as [|k ks Hk Hnd IH]; simpl; [constructor|].
  destruct (dedicated FILINGS n_ar n_coa n_cod k) as [v|] eqn:Hv; [|done].
  constructor; [|done]. intros Hin.
  apply list_elem_of_omap in Hin as (k' & Hk' & Hv').
  apply dedicated_name in Hv, Hv'.
  assert (k = k') as -> by (destruct v; congruence). done.
Qed.

(** X17. No validator runs twice on a document: the keys of a dict are
    distinct, and each validator is dedicated to at most one key. *)
Theorem validate_calls_once business filing_json filing ks ar coa cod r called :
  validate_against_schema filing_json = None →
  getitem filing_json "filing" = inr filing →
  keys filing = inr ks →
  NoDup ks →
  FILINGS !! "annualReport" = Some ar →
  FILINGS !! "changeOfAddress" = Some coa →
  FILINGS !! "changeOfDirectors" = Some cod →
  validate validate_against_schema annual_report_validate coa_validate
    cod_validate FILINGS business filing_json = (r, called) →
  NoDup called.
Proof.
  intros Hs Hf Hk Hnd Har Hcoa Hcod. unfold validate. rewrite Hs, Hf, Hk.
  rewrite (validate_keys_first_error _ _ _ _ ar coa cod Har Hcoa Hcod). simpl.
  pose proof (dedicated_NoDup (ar !! "name") (coa !! "name") (cod !! "name")
                ks Hnd) as Hsel.
  pose proof (first_error_spec annual_report_validate coa_validate cod_validate
                business filing_json
                (omap (dedicated FILINGS (ar !! "name") (coa !! "name")
                         (cod !! "name")) ks)) as Hspec.
  destruct (errors business filing_json _) as [[e|] t]; simpl in *.
  - destruct Hspec as (pre & v & post & Heq & _ & _ & ->).
    intros [= _ <-]. rewrite Heq in Hsel.
    replace (pre ++ v :: post) with ((pre ++ [v]) ++ post) in Hsel
      by (by rewrite <- app_assoc).
    by apply NoDup_app in Hsel as [? _].
  - destruct Hspec as [_ ->]. by intros [= _ <-].
Qed.

End Validate.


Lemma validate_malformed_witness :
  validate accept ar_passes coa_fails cod_fails sample_registry tt
    (JDict [("header", JDict [])]) = (inl (KeyError "filing"), []).
Proof.
  apply (proj1 (validate_malformed accept ar_passes coa_fails cod_fails
                  sample_registry tt (JDict [("header", JDict [])]) eq_refl)
           [("header", JDict [])]); reflexivity.
Defined.

Lemma validate_calls_once_witness :
  NoDup [AnnualReport; ChangeOfDirectors].
Proof.
  apply (validate_calls_once accept ar_passes coa_fails cod_fails sample_registry
           tt three_filings three_filings_body three_filings_keys
           ar_entry coa_entry cod_entry (inr (Some "Directors")));
    try reflexivity.
  apply (bool_decide_unpack (NoDup three_filings_keys)). by vm_compute.
Defined.

End ValidationMore.

(** * Further facts about filing submission *)

Module FilingsMore.
Import Json Filings FilingsFacts.

Section Resource.

Variable authorized : string → bool.
Variable schema_validate : json → bool * list (list string * string).
Variable current_user : User.
Variable find_by_identifier : string → option Business.
Variable utcnow : Z.
Variable Filing_json : Filing → list (string * json).
Variable save_rejects : Filing → option (string * HTTPStatus).
Variable FILINGS : gmap string (gmap string string).
Variable token_auth_header : option string.
Variable payment_svc_url : string.
Variable requests_post : string → json → string → post_outcome.

Local Abbreviation save_filing :=
  (_save_filing find_by_identifier utcnow save_rejects).
Local Abbreviation create_invoice :=
  (_create_invoice save_rejects FILINGS token_auth_header payment_svc_url
     requests_post).

(** [save] writes only when it returns. *)
Lemma save_raises filing e w w' :
  save save_rejects filing w = (inl e, w') → w' = w.
Proof.
  unfold save. destruct (save_rejects filing) as [[error status]|]; [|done].
  by intros [= _ <-].
Qed.

(** [_save_filing] answers with an error code only when it wrote
    nothing, and without one only together with a business and a filing. *)
Lemma save_filing_outcome request identifier user filing_id w business filing msg code w' :
  save_filing request identifier user filing_id w
    = (inr (business, filing, msg, code), w') →
  match code with
  | Some _ => w' = w
  | None => is_Some business ∧ is_Some filing
  end.
Proof.
  unfold _save_filing.
  destruct (truthy (get_json request)); simpl; [|by intros [= <- <- <- <- <-]].
  destruct (find_by_identifier identifier) as [b|]; [|by intros [= <- <- <- <- <-]].
  assert (∀ f : Filing,
             (let '(r, w1) := save save_rejects f w in
              match r with
              | inl (BusinessException error status) =>
                  (inr (None, None, Some (message error), Some status), w1)
              | inl e => (inl e, w1)
              | inr saved => (inr (Some b, Some saved, None, None), w1)
              end) = (inr (business, filing, msg, code), w') →
             match code with
             | Some _ => w' = w
             | None => is_Some business ∧ is_Some filing
             end) as Hstore.
  { intros f. destruct (save save_rejects f w) as [[e|saved] w1] eqn:Hs.
    - apply save_raises in Hs as ->. destruct e; try done. by intros [= <- <- <- <- <-].
    - intros [= <- <- <- <- <-]. by split. }
  case_bool_decide.
  - destruct (filing_id ≫= _) as [f|]; [|by intros [= <- <- <- <- <-]].
    case_bool_decide; [|by intros [= <- <- <- <- <-]]. apply Hstore.
  - apply Hstore.
Qed.

(** [_create_invoice] answers with an error code only for a connection
    failure, and then with PAYMENT_REQUIRED and the filings as they were. *)
Lemma create_invoice_outcome business filing filing' msg code w w' :
  create_invoice business filing w = (inr (filing', (msg, Some code)), w') →
  code = PAYMENT_REQUIRED ∧ filings w' = filings w ∧ next_id w' = next_id w.
Proof.
  unfold _create_invoice, mbind, M_bind, lift.
  destruct (invoice_payload FILINGS business filing) as [e|payload]; [done|]. simpl.
  destruct token_auth_header as [token|]; [|done].
  destruct (requests_post _ _ _) as [|body]; simpl.
  - by intros [= <- <- <- <-].
  - destruct body; try done. unfold mret, M_ret. simpl.
    destruct (save _ _ _) as [[e|saved] w1]; [done|]. done.
Qed.

(** X18. [put] touches the filings table only when it answers 201, 202
    or 402: with any other answer (400, 401, 403, 404, or 200 for a
    validation-only request) the table, the next key and the log are as
    they were. *)
Theorem put_writes_only_when_accepted identifier filing_id request w body status w' :
  put authorized schema_validate current_user find_by_identifier utcnow
    Filing_json save_rejects FILINGS token_auth_header payment_svc_url
    requests_post identifier filing_id request w = (inr (body, status), w') →
  status ≠ CREATED → status ≠ ACCEPTED → status ≠ PAYMENT_REQUIRED →
  w' = w.
Proof.
  unfold put.
  destruct (_put_basic_checks identifier filing_id request) as [[j s]|];
    [by intros [= <- <- <-]|].
  destruct (authorized identifier); simpl; [|by intros [= <- <- <-]].
  destruct (_validate_filing_json schema_validate request) as [err_msg err_code].
  destruct (bool_decide (err_code ≠ OK) || bool_decide (_ = Some "true"));
    [by intros [= <- <- <-]|].
  unfold mbind at 1. unfold M_bind at 1.
  destruct (save_filing request identifier current_user filing_id w)
    as [[e|[[[business filing] msg] code]] w1] eqn:Hsave; [done|].
  apply save_filing_outcome in Hsave.
  destruct code as [code|].
  { subst w1. by intros [= <- <- <-]. }
  destruct Hsave as [[b ->] [f ->]].
  assert (∀ f0 w0,
             (mret (JDict (Filing_json f0),
                    if bool_decide (method request = POST) then CREATED else ACCEPTED)
                : M (json * HTTPStatus)) w0 = (inr (body, status), w') →
             status ≠ CREATED → status ≠ ACCEPTED → status ≠ PAYMENT_REQUIRED →
             w' = w) as Hdone.
  { intros f0 w0. unfold mret, M_ret. intros [= <- <- <-].
    case_bool_decide; done. }
  destruct (not_draft request); [|apply Hdone].
  unfold mbind, M_bind.
  destruct (create_invoice b f w1) as [[e|[f' [m [c|]]]] w2] eqn:Hinv; [done|..].
  - apply create_invoice_outcome in Hinv as (-> & _ & _).
    unfold mret, M_ret. by intros [= <- <- <-].
  - apply Hdone.
Qed.


(** X20. A submission that is not a draft and whose invoice the payment
    service creates: the token of the reply (null when the reply has no
    ['id']) is stored on the filing, the filing is saved again under the
    same key, and [put] answers 201 for a POST and 202 otherwise, with
    the JSON of the filing that carries the token. *)
Theorem put_attaches_payment_token
  identifier filing_id request w business filing key w1 payload token reply :
  _put_basic_checks identifier filing_id request = None →
  authorized identifier = true →
  (_validate_filing_json schema_validate request).2 = OK →
  args request !! "only_validate" ≠ Some "true" →
  save_filing request identifier current_user filing_id w
    = (inr (Some business, Some filing, None, None), w1) →
  id filing = Some key →
  not_draft request = true →
  invoice_payload FILINGS business filing = inr payload →
  token_auth_header = Some token →
  requests_post payment_svc_url payload ("Bearer " +:+ token)
    = Response (JDict reply) →
  let paid :=
    {| id := Some key; business_id := business_id filing;
       submitter_id := submitter_id filing; filing_date := filing_date filing;
       filing_json := filing_json filing;
       payment_token := default JNull (dict_get "id" reply) |} in
  save_rejects
    {| id := id filing; business_id := business_id filing;
       submitter_id := submitter_id filing; filing_date := filing_date filing;
       filing_json := filing_json filing;
       payment_token := default JNull (dict_get "id" reply) |} = None →
  ∃ w',
    put authorized schema_validate current_user find_by_identifier utcnow
      Filing_json save_rejects FILINGS token_auth_header payment_svc_url
      requests_post identifier filing_id request w
    = (inr (JDict (Filing_json paid),
            if bool_decide (method request = POST) then CREATED else ACCEPTED), w') ∧
    filings w' = <[key := paid]> (filings w1) ∧
    logged w' = logged w1.
Proof.
  intros Hbasic Hauth Hvalid Honly Hsave Hkey Hdraft Hpayload Htoken Hpost paid Hok.
  unfold put. rewrite Hbasic, Hauth. simpl.
  destruct (_validate_filing_json schema_validate request) as [msg code].
  simpl in Hvalid. subst code.
  rewrite bool_decide_eq_false_2 by (by intros ?).
  rewrite bool_decide_eq_false_2 by done. simpl.
  unfold mbind at 1. unfold M_bind at 1. rewrite Hsave, Hdraft.
  unfold mbind at 1. unfold M_bind at 1.
  unfold _create_invoice, lift. unfold mbind at 1. unfold M_bind at 1.
  rewrite Hpayload. unfold mret at 1. unfold M_ret at 1.
  rewrite Htoken, Hpost.
  unfold mbind at 1. unfold M_bind at 1. unfold mret at 1. unfold M_ret at 1.
  unfold mbind at 1. unfold M_bind at 1.
  unfold save. rewrite Hok. rewrite Hkey. simpl.
  eexists. split_and!; reflexivity.
Qed.

(** X21. A PUT cannot create a filing: when the request passed the
    checks and the business exists, a PUT that names an unknown filing id,
    or the id of a filing of another business, is answered with 404 and
    nothing is written. (A PUT on the route without a filing id does not
    reach the body of [put], which has no default for [filing_id].) *)
Theorem put_unknown_filing identifier i request w business :
  _put_basic_checks identifier (Some i) request = None →
  authorized identifier = true →
  (_validate_filing_json schema_validate request).2 = OK →
  args request !! "only_validate" ≠ Some "true" →
  method request = PUT →
  find_by_identifier identifier = Some business →
  (∀ filing, filings w !! i = Some filing →
             business_id filing ≠ Some (b_id business)) →
  put authorized schema_validate current_user find_by_identifier utcnow
    Filing_json save_rejects FILINGS token_auth_header payment_svc_url
    requests_post identifier (Some i) request w
  = (inr (message (identifier +:+ " no filings found"), NOT_FOUND), w).
Proof.
  intros Hbasic Hauth Hvalid Honly Hput Hfind Hnone.
  unfold put. rewrite Hbasic, Hauth. simpl.
  destruct (_validate_filing_json schema_validate request) as [msg code].
  simpl in Hvalid. subst code.
  rewrite bool_decide_eq_false_2 by (by intros ?).
  rewrite bool_decide_eq_false_2 by done. simpl.
  unfold mbind at 1. unfold M_bind at 1.
  assert (truthy (get_json request) = true) as Hjson.
  { unfold _put_basic_checks in Hbasic.
    by destruct (truthy (get_json request)). }
  unfold _save_filing. rewrite Hjson, Hfind. simpl.
  rewrite bool_decide_eq_true_2 by done.
  destruct (filings w !! i) as [f|] eqn:Hf; [|done].
  rewrite bool_decide_eq_false_2; [done|].
  intros [Hb _]. by apply (Hnone f).
Qed.

(** X22. A validation-only request ([only_validate=true]) that passed
    the basic checks and the authorization is answered with the verdict
    of the schema, 200 and "Filing is valid" or 400 and the list of
    errors, and nothing is saved. *)
Theorem put_only_validate identifier filing_id request w :
  _put_basic_checks identifier filing_id request = None →
  authorized identifier = true →
  args request !! "only_validate" = Some "true" →
  put authorized schema_validate current_user find_by_identifier utcnow
    Filing_json save_rejects FILINGS token_auth_header payment_svc_url
    requests_post identifier filing_id request w
  = (inr (if (schema_validate (get_json request)).1
          then (message "Filing is valid", OK)
          else (JDict [("errors",
                        JList ((λ error, JDict [("path", JStr (join "/" error.1));
                                                ("error", JStr error.2)])
                                 <$> (schema_validate (get_json request)).2))],
                BAD_REQUEST)), w).
Proof.
  intros Hbasic Hauth Honly. unfold put. rewrite Hbasic, Hauth. simpl.
  unfold _validate_filing_json.
  destruct (schema_validate (get_json request)) as [[] err]; simpl.
  - rewrite Honly. by rewrite bool_decide_eq_true_2.
  - done.
Qed.


End Resource.

Lemma put_writes_only_when_accepted_witness :
  (put (λ _, false) (λ _, (true, [])) {| user_id := 3 |} registry_of 1000 as_json
     (λ _, None) sample_registry (Some "token") "https://pay" unreachable
     "CP0001965" None post_request no_filings).2 = no_filings.
Proof.
  apply (put_writes_only_when_accepted (λ _, false) (λ _, (true, []))
           {| user_id := 3 |} registry_of 1000 as_json (λ _, None) sample_registry
           (Some "token") "https://pay" unreachable "CP0001965" None post_request
           no_filings
           (message "You are not authorized to submit a filing for CP0001965.")
           UNAUTHORIZED); [reflexivity|done..].
Defined.


Lemma put_attaches_payment_token_witness :
  ∃ w',
    put (λ _, true) (λ _, (true, [])) {| user_id := 3 |} registry_of 1000 as_json
      (λ _, None) sample_registry (Some "token") "https://pay" pays
      "CP0001965" None post_request no_filings
    = (inr (JDict (as_json paid_filing),
            if bool_decide (method post_request = POST) then CREATED else ACCEPTED),
       w') ∧
    filings w' = <[1%Z := paid_filing]> (filings after_save) ∧
    logged w' = logged after_save.
Proof.
  apply (put_attaches_payment_token (λ _, true) (λ _, (true, []))
           {| user_id := 3 |} registry_of 1000 as_json (λ _, None) sample_registry
           (Some "token") "https://pay" pays
           "CP0001965" None post_request no_filings coop saved_filing 1%Z after_save
           sample_payload "token" [("id", JNum 42)]);
    first [ exact after_save_eq | reflexivity | done ].
Defined.

Lemma put_unknown_filing_witness :
  filings other_business_table !! 1%Z = Some other_business_filing ∧
  put (λ _, true) (λ _, (true, [])) {| user_id := 3 |} registry_of 1000 as_json
    (λ _, None) sample_registry (Some "token") "https://pay" pays
    "CP0001965" (Some 1%Z) put_request other_business_table
  = (inr (message ("CP0001965" +:+ " no filings found"), NOT_FOUND),
     other_business_table) ∧
  put (λ _, true) (λ _, (true, [])) {| user_id := 3 |} registry_of 1000 as_json
    (λ _, None) sample_registry (Some "token") "https://pay" pays
    "CP0001965" (Some 5%Z) put_request other_business_table
  = (inr (message ("CP0001965" +:+ " no filings found"), NOT_FOUND),
     other_business_table).
Proof.
  split_and!.
  - reflexivity.
  - apply (put_unknown_filing (λ _, true) (λ _, (true, []))
             {| user_id := 3 |} registry_of 1000 as_json (λ _, None) sample_registry
             (Some "token") "https://pay" pays
             "CP0001965" 1 put_request other_business_table coop);
      try reflexivity; try done.
    intros filing [= <-]. discriminate.
  - apply (put_unknown_filing (λ _, true) (λ _, (true, []))
             {| user_id := 3 |} registry_of 1000 as_json (λ _, None) sample_registry
             (Some "token") "https://pay" pays
             "CP0001965" 5 put_request other_business_table coop);
      try reflexivity; try done.
Defined.

Lemma put_only_validate_witness :
  put (λ _, true) (λ _, (true, [])) {| user_id := 3 |} registry_of 1000 as_json
    (λ _, None) sample_registry (Some "token") "https://pay" pays
    "CP0001965" None validate_request no_filings
  = (inr (message "Filing is valid", OK), no_filings).
Proof.
  apply (put_only_validate (λ _, true) (λ _, (true, []))
           {| user_id := 3 |} registry_of 1000 as_json (λ _, None) sample_registry
           (Some "token") "https://pay" pays
           "CP0001965" None validate_request no_filings); reflexivity.
Defined.


End FilingsMore.

(** * Facts about the internal endpoints ([InternalFilings], [ColinLastUpdate]) *)

Module InternalFacts.
Import Json Filings Internal.

(** ** The newest row of [colin_last_update] *)

Lemma last_row_snoc l u : last_row (l ++ [u]) = newest (last_row l) u.
Proof. unfold last_row. by rewrite foldl_app. Qed.

Lemma last_row_bound (bound : Z) l u :
  Forall (λ x, lu_id x < bound)%Z l → last_row l = Some u → (lu_id u < bound)%Z.
Proof.
  revert u. induction l as [|x l IH] using rev_ind; intros u Hall; [done|].
  apply Forall_app in Hall as [Hl Hx]. rewrite Forall_singleton in Hx.
  rewrite last_row_snoc. destruct (last_row l) as [a|] eqn:Ha; simpl.
  - case_bool_decide; intros [= <-]; [exact Hx|]. by apply IH.
  - intros [= <-]. exact Hx.
Qed.

(** A row whose id exceeds every id of the table is the newest one once it
    has been appended. *)
Lemma last_row_fresh l u :
  Forall (λ x, lu_id x < lu_id u)%Z l → last_row (l ++ [u]) = Some u.
Proof.
  intros Hall. rewrite last_row_snoc.
  destruct (last_row l) as [a|] eqn:Ha; simpl; [|done].
  rewrite bool_decide_true; [done|]. by apply (last_row_bound _ l).
Qed.

Lemma last_row_nil_inv l : last_row l = None → l = [].
Proof.
  destruct l as [|x l] using rev_ind; [done|].
  rewrite last_row_snoc. by destruct (last_row l); simpl; [case_bool_decide|].
Qed.

(** ** Rows found by their COLIN id *)

Lemma carries_spec c r : carries c r = true ↔ colin_event_id r = JNum c.
Proof.
  unfold carries. destruct (colin_event_id r); try (split; by intros).
  rewrite bool_decide_eq_true. split; [by intros ->|by intros [= ->]].
Qed.

(** ** Saving a row *)

Lemma save_row_frame r l :
  (∀ x, x ∈ l → id (filing x) = id (filing r) →
        filing x = filing r ∧ status x = status r) →
  Forall2 (λ old new, filing new = filing old ∧ status new = status old ∧
                      (id (filing old) ≠ id (filing r) → new = old))
    l (save_row r l).
Proof.
  unfold save_row. induction l as [|x l IH]; intros Hl; simpl; constructor.
  - destruct (decide _) as [He|He]; [|done].
    destruct (Hl x) as [-> ->]; [left|done|done].
  - apply IH. intros y Hy. apply Hl. by right.
Qed.

Lemma save_row_pending r l :
  ¬ pending r →
  filter pending (save_row r l) =
  filter pending (filter (λ x, id (filing x) ≠ id (filing r)) l).
Proof.
  intros Hr. unfold save_row. induction l as [|x l IH]; [done|].
  rewrite fmap_cons, (filter_cons (λ x, id (filing x) ≠ id (filing r))).
  destruct (decide (id (filing x) = id (filing r))) as [He|He].
  - rewrite decide_False by (by intros ?). by rewrite filter_cons_False.
  - rewrite decide_True by done. rewrite !filter_cons, IH. done.
Qed.

Lemma one_or_none_some filing_id l rv :
  one_or_none filing_id l = inr (Some rv) →
  id (filing rv) = Some filing_id ∧
  ∀ x, x ∈ l → id (filing x) = Some filing_id → x = rv.
Proof.
  unfold one_or_none.
  destruct (filter _ l) as [|r [|]] eqn:Hf; intros [= <-].
  split.
  - assert (Hin : r ∈ filter (λ r, id (filing r) = Some filing_id) l)
      by (rewrite Hf; left).
    apply list_elem_of_filter in Hin. tauto.
  - intros x Hx He.
    assert (Hin : x ∈ filter (λ r, id (filing r) = Some filing_id) l)
      by (apply list_elem_of_filter; tauto).
    rewrite Hf in Hin. by apply list_elem_of_singleton in Hin.
Qed.

Lemma one_or_none_none filing_id l :
  one_or_none filing_id l = inr None ↔ Forall (λ r, id (filing r) ≠ Some filing_id) l.
Proof.
  unfold one_or_none. split.
  - destruct (filter _ l) as [|r [|]] eqn:Hf; intros [=].
    apply Forall_forall. intros r Hr He.
    assert (Hin : r ∈ filter (λ r, id (filing r) = Some filing_id) l)
      by (apply list_elem_of_filter; tauto).
    rewrite Hf in Hin. by apply elem_of_nil in Hin.
  - intros Hall.
    assert (filter (λ r, id (filing r) = Some filing_id) l = []) as ->; [|done].
    induction Hall as [|x l Hx _ IH]; [done|]. by rewrite filter_cons_False.
Qed.

Section Endpoints.

Variable row_json : FilingRow → list (string * json).
Variable save_rejects : FilingRow → option (string * HTTPStatus).
Variable current_timestamp : Z.

(** X24 ([ColinLastUpdate.post] then [ColinLastUpdate.get]): when the caller
    has the colin role, the INSERT is accepted, the posted id is not 0 and
    the serial key is beyond every id of the table, the POST answers 201
    with the posted id as [maxId], leaves the filings alone, and a following
    GET without an id answers 200 with the same [maxId]: the row just
    written is the one that [order by id desc] puts first, wherever the
    older rows stand. *)
Theorem last_update_post_then_get (colin_id : Z) (s : store) :
  colin_id ≠ 0%Z →
  Forall (λ u, lu_id u < next_update_id s)%Z (colin_last_update s) →
  let out := last_update_post true None current_timestamp colin_id s in
  out.1 = Reply (JDict [("maxId", JNum colin_id)]) CREATED ∧
  last_update_get GET None out.2 = inr (Reply (JDict [("maxId", JNum colin_id)]) OK) ∧
  rows out.2 = rows s ∧
  error_log out.2 = error_log s ∧
  Forall (λ u, lu_id u < next_update_id out.2)%Z (colin_last_update out.2).
Proof.
  intros Hc Hall. unfold last_update_post, last_update_get. simpl.
  rewrite last_row_fresh by done. simpl.
  rewrite bool_decide_false by done. simpl.
  rewrite last_row_fresh by done. simpl.
  rewrite bool_decide_false by done.
  split_and!; try done.
  apply Forall_app. split.
  - eapply Forall_impl; [exact Hall|]. simpl. lia.
  - apply Forall_singleton. simpl. lia.
Qed.

(** X25 ([ColinLastUpdate.post], refusals): the role is checked before the
    INSERT and outside what is logged. Without the colin role the answer
    is 401 and nothing at all changes, the log included; with the role
    and an INSERT that the database rejects the answer is the set of the
    [except] branch, the table and the filings are as before, and the log
    has grown by exactly the one line that carries the error. *)
Theorem last_update_post_refusals (has_colin_role : bool) (insert_error : option string)
    (colin_id : Z) (s : store) :
  has_colin_role = false ∨ insert_error ≠ None →
  let out := last_update_post has_colin_role insert_error current_timestamp colin_id s in
  colin_last_update out.2 = colin_last_update s ∧
  next_update_id out.2 = next_update_id s ∧
  rows out.2 = rows s ∧
  (has_colin_role = false →
   out = (Reply (message "You are not authorized to update this table") UNAUTHORIZED, s)) ∧
  (has_colin_role = true →
   ∃ err, insert_error = Some err ∧
     out.1 = MessageSet "message: failed to update colin_last_update." 500 ∧
     error_log out.2 =
       error_log s ++ ["Error updating colin_last_update table in legal db: " +:+ err]).
Proof.
  intros Hor. unfold last_update_post.
  destruct has_colin_role; simpl.
  - destruct Hor as [|Herr]; [done|].
    destruct insert_error as [err|]; [|done]. simpl.
    split_and!; try done. intros _. by exists err.
  - split_and!; done.
Qed.

(** X26 ([ColinLastUpdate.post] of id 0): posting 0 is not refused. The row
    is inserted, yet the answer is 404 "No colin ids found", and from then
    on a GET without an id answers 404 too, whatever ids the older rows
    hold: only the newest row is read. *)
Theorem last_update_post_zero (s : store) :
  Forall (λ u, lu_id u < next_update_id s)%Z (colin_last_update s) →
  let out := last_update_post true None current_timestamp 0 s in
  out.1 = Reply (message "No colin ids found") NOT_FOUND ∧
  colin_last_update out.2 =
    colin_last_update s ++
      [{| lu_id := next_update_id s; last_update := current_timestamp;
          last_event_id := 0 |}] ∧
  last_update_get GET None out.2 = inr (Reply (message "No colin ids found") NOT_FOUND).
Proof.
  intros Hall. unfold last_update_post, last_update_get. simpl.
  rewrite last_row_fresh by done. simpl.
  rewrite last_row_fresh by done. done.
Qed.

(** X27 ([ColinLastUpdate.get] with an id): for an id other than 0 the
    answer depends on the filings alone. It is 200 with that id as
    [colinId] when some filing carries the id, whichever of several such
    filings the database returns first, and 404 when none does; the
    [colin_last_update] table is not read, so the call cannot fail on an
    empty one. *)
Theorem last_update_get_by_id (m : http_method) (c : Z) (s : store) :
  c ≠ 0%Z →
  (Exists (λ r, colin_event_id r = JNum c) (rows s) →
   last_update_get m (Some c) s = inr (Reply (JDict [("colinId", JNum c)]) OK)) ∧
  (Forall (λ r, colin_event_id r ≠ JNum c) (rows s) →
   last_update_get m (Some c) s = inr (Reply (message "No colin ids found") NOT_FOUND)).
Proof.
  intros Hc. unfold last_update_get. rewrite bool_decide_true by done.
  split.
  - intros Hex. apply Exists_exists in Hex as (r & Hr & He).
    destruct (filter (λ r, carries c r = true) (rows s)) as [|r' l] eqn:Hf.
    + assert (Hin : r ∈ filter (λ r, carries c r = true) (rows s))
        by (apply list_elem_of_filter; split; [by apply carries_spec|done]).
      rewrite Hf in Hin. by apply elem_of_nil in Hin.
    + assert (Hin : r' ∈ filter (λ r, carries c r = true) (rows s))
        by (rewrite Hf; left).
      apply list_elem_of_filter in Hin as [Hc' _]. apply carries_spec in Hc'.
      simpl. by rewrite Hc'.
  - intros Hall.
    assert (filter (λ r, carries c r = true) (rows s) = []) as ->; [|done].
    induction Hall as [|x l Hx _ IH]; [done|].
    rewrite filter_cons_False; [done|]. by rewrite carries_spec.
Qed.

(** X28 ([ColinLastUpdate.get] without an id): the call raises exactly when
    [colin_last_update] has no row, since [fetchone()] is then [None] and
    is subscripted; an id of 0 is treated as no id. With at least one row
    it always answers. *)
Theorem last_update_get_raises_iff_empty (m : http_method) (s : store) :
  (last_update_get m None s = inl NoneNotSubscriptable ↔ colin_last_update s = []) ∧
  last_update_get m (Some 0%Z) s = last_update_get m None s.
Proof.
  split; [|done]. unfold last_update_get. split.
  - destruct (last_row (colin_last_update s)) as [u|] eqn:Hu.
    + by case_bool_decide.
    + intros _. by apply last_row_nil_inv.
  - by intros ->.
Qed.

(** X29 ([InternalFilings.patch] then [InternalFilings.get]): once a patch
    with a [colinId] other than null has been accepted with 202, the list
    of filings offered to COLIN is the list offered before without the
    patched filing, in the same order: the filing is not offered again
    and no other filing enters or leaves the list. *)
Theorem internal_patch_then_get (filing_id : Z) (json_input colin_id body : json)
    (s : store) :
  getitem json_input "colinId" = inr colin_id →
  colin_id ≠ JNull →
  (internal_patch row_json save_rejects filing_id json_input s).1 =
    inr (Reply body ACCEPTED) →
  internal_get row_json (internal_patch row_json save_rejects filing_id json_input s).2 =
    Reply (JList ((λ x, JDict (row_json x)) <$>
                    filter (λ r, id (filing r) ≠ Some filing_id)
                      (filter pending (rows s)))) OK.
Proof.
  intros Hget Hnull. unfold internal_patch.
  destruct (truthy json_input); simpl; [|done].
  rewrite Hget.
  destruct (one_or_none filing_id (rows s)) as [e|[rv|]] eqn:Hone; simpl; try done.
  apply one_or_none_some in Hone as [Hid _].
  destruct (save_rejects _) as [[error code]|]; simpl; [done|].
  intros _. unfold internal_get. simpl. do 3 f_equal.
  rewrite save_row_pending by (by intros [? _]). simpl. rewrite Hid.
  rewrite !list_filter_filter. apply list_filter_iff. tauto.
Qed.

(** X30 ([InternalFilings.patch], what it may change): whatever the body
    and the id, a patch touches neither [colin_last_update] nor the log,
    adds and removes no filing, and changes at most the [colin_event_id]
    of filings with the requested id; unless it answers 202 it changes
    nothing at all. *)
Theorem internal_patch_frame (filing_id : Z) (json_input : json) (s : store) :
  let out := internal_patch row_json save_rejects filing_id json_input s in
  colin_last_update out.2 = colin_last_update s ∧
  next_update_id out.2 = next_update_id s ∧
  error_log out.2 = error_log s ∧
  Forall2 (λ old new, filing new = filing old ∧ status new = status old ∧
                      (id (filing old) ≠ Some filing_id → new = old))
    (rows s) (rows out.2) ∧
  ((∀ body, out.1 ≠ inr (Reply body ACCEPTED)) → out.2 = s).
Proof.
  assert (Hsame : Forall2 (λ old new, filing new = filing old ∧ status new = status old ∧
                                      (id (filing old) ≠ Some filing_id → new = old))
                    (rows s) (rows s))
    by (apply Forall_Forall2_diag, Forall_forall; by intros).
  unfold internal_patch.
  destruct (truthy json_input); simpl; [|done].
  destruct (getitem json_input "colinId") as [e|colin_id]; simpl; [done|].
  destruct (one_or_none filing_id (rows s)) as [e|[rv|]] eqn:Hone; simpl; try done.
  apply one_or_none_some in Hone as [Hid Hin].
  destruct (save_rejects _) as [[error code]|]; simpl; [done|].
  split_and!; try done.
  - refine (Forall2_impl _ _ _ _ (save_row_frame _ _ _) _).
    + simpl. rewrite Hid. intros x Hx He. by rewrite (Hin x Hx He).
    + simpl. rewrite Hid. tauto.
  - intros Hne. by destruct (Hne (JDict (row_json
      {| filing := filing rv; colin_event_id := colin_id; status := status rv |}))).
Qed.

End Endpoints.

Lemma last_update_post_then_get_witness :
  (last_update_post true None 30 81 two_pending).1 =
    Reply (JDict [("maxId", JNum 81)]) CREATED ∧
  last_update_get GET None (last_update_post true None 30 81 two_pending).2 =
    inr (Reply (JDict [("maxId", JNum 81)]) OK).
Proof.
  assert (Hc : 81%Z ≠ 0%Z) by done.
  assert (Hall : Forall (λ u, lu_id u < next_update_id two_pending)%Z
                   (colin_last_update two_pending))
    by (repeat constructor).
  destruct (last_update_post_then_get 30 81 two_pending Hc Hall) as (H1 & H2 & _).
  split; [exact H1|exact H2].
Defined.

Lemma last_update_post_refusals_witness :
  last_update_post false None 30 81 two_pending =
    (Reply (message "You are not authorized to update this table") UNAUTHORIZED,
     two_pending).
Proof.
  assert (Hor : false = false ∨ (None : option string) ≠ None) by (by left).
  destruct (last_update_post_refusals 30 false None 81 two_pending Hor)
    as (_ & _ & _ & H & _).
  apply H. reflexivity.
Defined.

Lemma last_update_post_zero_witness :
  (last_update_post true None 30 0 two_pending).1 =
    Reply (message "No colin ids found") NOT_FOUND ∧
  last_update_get GET None (last_update_post true None 30 0 two_pending).2 =
    inr (Reply (message "No colin ids found") NOT_FOUND).
Proof.
  assert (Hall : Forall (λ u, lu_id u < next_update_id two_pending)%Z
                   (colin_last_update two_pending))
    by (repeat constructor).
  destruct (last_update_post_zero 30 two_pending Hall) as (H1 & _ & H2).
  split; [exact H1|exact H2].
Defined.

Lemma last_update_get_by_id_witness :
  last_update_get GET (Some 77%Z) two_pending =
    inr (Reply (JDict [("colinId", JNum 77)]) OK).
Proof.
  assert (Hc : 77%Z ≠ 0%Z) by done.
  apply (proj1 (last_update_get_by_id GET 77 two_pending Hc)).
  apply Exists_cons_tl, Exists_cons_hd. reflexivity.
Defined.

Lemma internal_patch_then_get_witness :
  internal_get row_key
    (internal_patch row_key (λ _, None) 1 (JDict [("colinId", JNum 90)]) two_pending).2 =
  Reply (JList [JDict [("id", JNum 3); ("colinId", JNull)]]) OK.
Proof.
  rewrite (internal_patch_then_get row_key (λ _, None) 1
             (JDict [("colinId", JNum 90)]) (JNum 90)
             (JDict (row_key (completed 1 (JNum 90)))) two_pending);
    [reflexivity|reflexivity|done|reflexivity].
Defined.

Lemma internal_patch_frame_witness :
  (internal_patch row_key (λ _, None) 9 (JDict [("colinId", JNum 90)]) two_pending).2 =
  two_pending.
Proof.
  destruct (internal_patch_frame row_key (λ _, None) 9
              (JDict [("colinId", JNum 90)]) two_pending) as (_ & _ & _ & _ & H).
  apply H. intros body. discriminate.
Defined.

End InternalFacts.
